(** * SlightBuild cost monitor: a shallow embedding of [scripts/cost-monitor.js]

    The script queries the AWS billing APIs, builds a cost report, checks the
    spend against a budget and prints optimisation hints.  This development
    embeds the script in Gallina and proves properties of it.

    Layout:
    - [JS]: the parts of the JavaScript runtime the script calls
      (IEEE-754 binary64 numbers, [parseFloat], [Number.prototype.toFixed],
      [Number::toString], string helpers);
    - [JSON]: [JSON.stringify] with an indent and [JSON.parse];
    - [Aws]: the shapes of the AWS SDK responses the script reads;
    - [CostMonitor]: the script itself, function by function;
    - the theorems. *)

From Stdlib Require Import ZArith NArith List String Ascii Bool Lia.
From Stdlib Require Import Decimal DecimalString DecimalN DecimalPos DecimalFacts.
From Stdlib Require Import Floats.SpecFloat.
Import ListNotations.

#[local] Open Scope string_scope.
#[local] Open Scope Z_scope.

(* ================================================================== *)
(** * The JavaScript runtime *)
(* ================================================================== *)

Module JS.

(** ** Numbers

    A JavaScript Number is an IEEE-754 binary64 value.  We use the Standard
    Library's specification floats at precision 53 and maximal exponent 1024:
    a finite value [S754_finite s m e] denotes [(-1)^s * m * 2^e]. *)

Definition Number : Set := spec_float.

Definition prec : Z := 53.
Definition emax : Z := 1024.

Definition NaN : Number := S754_nan.
Definition Infinity : Number := S754_infinity false.
Definition zero : Number := S754_zero false.

Definition add : Number -> Number -> Number := SFadd prec emax.
Definition sub : Number -> Number -> Number := SFsub prec emax.
Definition mul : Number -> Number -> Number := SFmul prec emax.
Definition div : Number -> Number -> Number := SFdiv prec emax.
Definition abs : Number -> Number := SFabs.

(** [x < y], [x > y], [x >= y], [x <= y]: all false when an operand is NaN. *)
Definition lt (x y : Number) : bool := SFltb x y.
Definition gt (x y : Number) : bool := SFltb y x.
Definition ge (x y : Number) : bool := SFleb y x.
Definition le (x y : Number) : bool := SFleb x y.

Definition is_finite (x : Number) : bool :=
  match x with
  | S754_zero _ | S754_finite _ _ _ => true
  | S754_infinity _ | S754_nan => false
  end.

(** ToBoolean on a Number: [+0], [-0] and [NaN] are falsy. *)
Definition truthy (x : Number) : bool :=
  match x with
  | S754_zero _ | S754_nan => false
  | S754_infinity _ | S754_finite _ _ _ => true
  end.

(** [x || d] on Numbers. *)
Definition or_else (x d : Number) : Number := if truthy x then x else d.

(** A finite value is a binary64 value when its mantissa and exponent are in
    canonical position: a normal number has a 53-bit mantissa and an exponent
    in [-1074, 971]; a subnormal one has the exponent -1074. *)
Definition canonical (m e : Z) : Prop :=
  (2 ^ 52 <= m < 2 ^ 53 /\ -1074 <= e <= 971) \/ (0 < m < 2 ^ 52 /\ e = -1074).

Definition wf (x : Number) : Prop :=
  match x with
  | S754_finite _ m e => canonical (Zpos m) e
  | _ => True
  end.

(** *** Rounding a positive rational to binary64

    [round_to_binary64 s p q] is the binary64 value nearest to [p / q]
    ([p, q > 0]), ties to even, with sign [s].  [t] is [floor (log2 (p/q))];
    the mantissa is the quotient at exponent [e = max (t - 52) (-1074)],
    rounded on the remainder. *)
Definition floor_log2_ratio (p q : Z) : Z :=
  let l := Z.log2 p - Z.log2 q in
  if q * 2 ^ Z.max 0 l <=? p * 2 ^ Z.max 0 (- l) then l else l - 1.

Definition round_to_binary64 (s : bool) (p q : Z) : Number :=
  let t := floor_log2_ratio p q in
  let e := Z.max (t - 52) (-1074) in
  let num := p * 2 ^ Z.max 0 (- e) in
  let den := q * 2 ^ Z.max 0 e in
  let m := num / den in
  let r := num mod den in
  let m' := match 2 * r ?= den with
            | Lt => m
            | Gt => m + 1
            | Eq => if Z.even m then m else m + 1
            end in
  let '(m'', e') := if m' =? 2 ^ 53 then (2 ^ 52, e + 1) else (m', e) in
  if 971 <? e' then S754_infinity s
  else match m'' with
       | Zpos mm => S754_finite s mm e'
       | _ => S754_zero s
       end.

(** The Number value of the decimal [(-1)^s * M * 10^q]. *)
Definition of_decimal (s : bool) (M : N) (q : Z) : Number :=
  match M with
  | N0 => S754_zero s
  | Npos _ =>
      if 0 <=? q then round_to_binary64 s (Z.of_N M * 10 ^ q) 1
      else round_to_binary64 s (Z.of_N M) (10 ^ (- q))
  end.

(** The Number value of a non-negative integer literal. *)
Definition of_N (n : N) : Number := of_decimal false n 0.

(** ** Decimal digits *)

Definition is_digit (c : ascii) : bool :=
  match c with
  | "0" | "1" | "2" | "3" | "4" | "5" | "6" | "7" | "8" | "9" => true
  | _ => false
  end%char.

Definition digits_of_N (n : N) : string :=
  NilEmpty.string_of_uint (N.to_uint n).

Definition digit_value (c : ascii) : N := N.of_nat (nat_of_ascii c - 48).

(** The value of a string of digits, read from the left onto [acc]. *)
Fixpoint digits_onto (acc : N) (s : string) : N :=
  match s with
  | EmptyString => acc
  | String c r => digits_onto (10 * acc + digit_value c)%N r
  end.

Definition N_of_digits (s : string) : N := digits_onto 0 s.

Fixpoint span_digits (s : string) : string * string :=
  match s with
  | String c r =>
      if is_digit c then let '(d, r') := span_digits r in (String c d, r')
      else ("", s)
  | EmptyString => ("", "")
  end.

Fixpoint repeat_char (c : ascii) (n : nat) : string :=
  match n with
  | O => ""
  | S n' => String c (repeat_char c n')
  end.

Definition zeros (n : nat) : string := repeat_char "0" n.

(** ** String helpers *)

Fixpoint drop (n : nat) (s : string) : string :=
  match n, s with
  | S n', String _ r => drop n' r
  | _, _ => s
  end.

Fixpoint take (n : nat) (s : string) : string :=
  match n, s with
  | S n', String c r => String c (take n' r)
  | _, _ => ""
  end.

(** [s.substring(0, n)] *)
Definition substring0 (n : nat) (s : string) : string := take n s.

(** [hay.includes(needle)] *)
Fixpoint includes (needle hay : string) : bool :=
  prefix needle hay ||
  match hay with
  | String _ r => includes needle r
  | EmptyString => false
  end.

(** [s.length]: the number of UTF-16 code units of the text whose UTF-8
    bytes are [s].  A byte that continues a sequence ([10xxxxxx]) counts for
    nothing, a byte that opens a sequence of four bytes ([11110xxx], a code
    point beyond U+FFFF) for two, any other byte for one. *)
Fixpoint length16 (s : string) : nat :=
  match s with
  | EmptyString => 0
  | String c r =>
      let n := nat_of_ascii c in
      ((if (n <? 128) || (192 <=? n) then 1 else 0)
       + (if 240 <=? n then 1 else 0)
       + length16 r)%nat
  end.

(** [s.padEnd(n)] and [s.padStart(n)], padding with spaces. *)
Definition padEnd (n : nat) (s : string) : string :=
  s ++ repeat_char " " (n - length16 s).

Definition padStart (n : nat) (s : string) : string :=
  repeat_char " " (n - length16 s) ++ s.

(** [a || d] on strings that may be [undefined]: the empty string is falsy. *)
Definition str_or_else (a : option string) (d : string) : string :=
  match a with
  | Some (String c r) => String c r
  | _ => d
  end.

(** [xs.slice(-n)]: the last [n] elements. *)
Definition slice_last {A : Type} (n : nat) (xs : list A) : list A :=
  skipn (List.length xs - n) xs.

(** ** parseFloat

    [parseFloat] trims leading white space, takes the longest prefix that is
    a StrDecimalLiteral and rounds its value; with no such prefix the result
    is NaN.  Strings are the UTF-8 bytes of the text.  White space is
    WhiteSpace and LineTerminator: the ASCII characters of [is_whitespace],
    and beyond ASCII U+00A0 (two bytes) and U+1680, U+2000 to U+200A, U+2028,
    U+2029, U+202F, U+205F, U+3000 and U+FEFF (three bytes each). *)

Definition is_whitespace (c : ascii) : bool :=
  match c with
  | "009" | "010" | "011" | "012" | "013" | " " => true
  | _ => false
  end%char.

(** U+00A0 is [C2 A0]. *)
Definition is_whitespace2 (c1 c2 : ascii) : bool :=
  ((nat_of_ascii c1 =? 194) && (nat_of_ascii c2 =? 160))%nat.

(** U+1680 is [E1 9A 80]; U+2000 to U+200A are [E2 80 80] to [E2 80 8A];
    U+2028, U+2029 and U+202F are [E2 80 A8], [E2 80 A9] and [E2 80 AF];
    U+205F is [E2 81 9F]; U+3000 is [E3 80 80]; U+FEFF is [EF BB BF]. *)
Definition is_whitespace3 (c1 c2 c3 : ascii) : bool :=
  let '(a, b, c) := (nat_of_ascii c1, nat_of_ascii c2, nat_of_ascii c3) in
  ((a =? 225) && (b =? 154) && (c =? 128)
   || (a =? 226) && (b =? 128)
      && ((128 <=? c) && (c <=? 138) || (c =? 168) || (c =? 169) || (c =? 175))
   || (a =? 226) && (b =? 129) && (c =? 159)
   || (a =? 227) && (b =? 128) && (c =? 128)
   || (a =? 239) && (b =? 187) && (c =? 191))%nat.

Fixpoint trim_start (s : string) : string :=
  match s with
  | String c1 r1 =>
      if is_whitespace c1 then trim_start r1
      else
        match r1 with
        | String c2 r2 =>
            if is_whitespace2 c1 c2 then trim_start r2
            else
              match r2 with
              | String c3 r3 => if is_whitespace3 c1 c2 c3 then trim_start r3 else s
              | EmptyString => s
              end
        | EmptyString => s
        end
  | EmptyString => ""
  end.

Definition strip_prefix (p s : string) : option string :=
  if prefix p s then Some (drop (length p) s) else None.

(** An optional sign: [(negative, rest)]. *)
Definition read_sign (s : string) : bool * string :=
  match s with
  | String "-" r => (true, r)
  | String "+" r => (false, r)
  | _ => (false, s)
  end.

(** An optional ExponentPart at the head of [s]: its value, 0 when absent or
    incomplete (an [e] with no digit after it is not part of the literal). *)
Definition read_exponent (s : string) : Z * string :=
  match s with
  | String c r =>
      if (Ascii.eqb c "e" || Ascii.eqb c "E")%bool then
        let '(neg, r1) := read_sign r in
        let '(ds, r2) := span_digits r1 in
        match ds with
        | EmptyString => (0, s)
        | _ => ((if neg then - Z.of_N (N_of_digits ds) else Z.of_N (N_of_digits ds)), r2)
        end
      else (0, s)
  | EmptyString => (0, s)
  end.

Definition parseFloat (input : string) : Number :=
  let '(neg, r0) := read_sign (trim_start input) in
  match strip_prefix "Infinity" r0 with
  | Some _ => S754_infinity neg
  | None =>
      let '(ip, r1) := span_digits r0 in
      let '(fp, r2) :=
        match r1 with
        | String "." r => span_digits r
        | _ => ("", r1)
        end in
      match ip ++ fp with
      | EmptyString => NaN
      | ds =>
          let '(ex, _) := read_exponent r2 in
          of_decimal neg (N_of_digits ds) (ex - Z.of_nat (length fp))
      end
  end.

(** [parseFloat(process.env.X)]: an unset variable is [undefined], whose
    string conversion is not a number. *)
Definition parseFloat_env (v : option string) : Number :=
  match v with
  | Some s => parseFloat s
  | None => parseFloat "undefined"
  end.

(** ** Number::toString

    For a finite non-zero [x] the digits are the shortest decimal [s * 10^q]
    whose Number value is [x]; among the candidates of that length the one
    nearest to [x], the even one on a tie.  The search runs from one digit up
    to the length of the exact decimal expansion of [x]. *)

(** The exact decimal expansion of [m * 2^e]. *)
Definition exact_decimal (m : positive) (e : Z) : N * Z :=
  if 0 <=? e then ((Npos m * 2 ^ Z.to_N e)%N, 0)
  else ((Npos m * 5 ^ Z.to_N (- e))%N, e).

Fixpoint strip_zeros (fuel : nat) (s : N) (q : Z) : N * Z :=
  match fuel with
  | O => (s, q)
  | S fuel' =>
      if ((s mod 10 =? 0) && (0 <? s))%N then strip_zeros fuel' (s / 10)%N (q + 1)
      else (s, q)
  end.

Definition normalise (sq : N * Z) : N * Z :=
  strip_zeros (length (digits_of_N (fst sq))) (fst sq) (snd sq).

(** The decimals that keep all but the last [d] digits of [sig * 10^ex], the
    nearer to the exact value first. *)
Definition candidates (d : nat) (sig : N) (ex : Z) : list (N * Z) :=
  let pw := (10 ^ N.of_nat d)%N in
  let lo := (sig / pw)%N in
  let rem := (sig mod pw)%N in
  let q := ex + Z.of_nat d in
  if (rem =? 0)%N then [normalise (lo, q)]
  else
    match (2 * rem ?= pw)%N with
    | Lt => [normalise (lo, q); normalise ((lo + 1)%N, q)]
    | Gt => [normalise ((lo + 1)%N, q); normalise (lo, q)]
    | Eq =>
        if N.even lo then [normalise (lo, q); normalise ((lo + 1)%N, q)]
        else [normalise ((lo + 1)%N, q); normalise (lo, q)]
    end.

Definition number_eqb (x y : Number) : bool :=
  match x, y with
  | S754_zero a, S754_zero b => Bool.eqb a b
  | S754_infinity a, S754_infinity b => Bool.eqb a b
  | S754_nan, S754_nan => true
  | S754_finite a m e, S754_finite b m' e' =>
      Bool.eqb a b && Pos.eqb m m' && Z.eqb e e'
  | _, _ => false
  end.

Definition reads_back (x : Number) (c : N * Z) : bool :=
  number_eqb (of_decimal false (fst c) (snd c)) x.

Fixpoint shortest_from (d : nat) (x : Number) (sig : N) (ex : Z) : N * Z :=
  match find (reads_back x) (candidates d sig ex) with
  | Some c => c
  | None =>
      match d with
      | O => (sig, ex)
      | S d' => shortest_from d' x sig ex
      end
  end.

Definition shortest (m : positive) (e : Z) : N * Z :=
  let '(sig, ex) := exact_decimal m e in
  shortest_from (length (digits_of_N sig) - 1) (S754_finite false m e) sig ex.

(** The layout of the digits [s] at decimal exponent [q]. *)
Definition layout (s : N) (q : Z) : string :=
  let ds := digits_of_N s in
  let k := Z.of_nat (length ds) in
  let n := k + q in
  if (k <=? n) && (n <=? 21) then ds ++ zeros (Z.to_nat (n - k))
  else if (0 <? n) && (n <=? 21) then
    take (Z.to_nat n) ds ++ "." ++ drop (Z.to_nat n) ds
  else if (-6 <? n) && (n <=? 0) then "0." ++ zeros (Z.to_nat (- n)) ++ ds
  else
    let ex := n - 1 in
    let exs := (if ex <? 0 then "-" else "+") ++ digits_of_N (Z.to_N (Z.abs ex)) in
    match ds with
    | String c EmptyString => String c ("e" ++ exs)
    | String c r => String c ("." ++ r ++ "e" ++ exs)
    | EmptyString => ""
    end.

Definition Number_toString (x : Number) : string :=
  match x with
  | S754_nan => "NaN"
  | S754_zero _ => "0"
  | S754_infinity s => (if s then "-" else "") ++ "Infinity"
  | S754_finite s m e =>
      let '(d, q) := shortest m e in
      (if s then "-" else "") ++ layout d q
  end.

(** ** Number.prototype.toFixed

    [toFixed x f] for [0 <= f <= 100]: the integer [n] nearest to
    [|x| * 10^f] (the larger on a tie), its digits with a point before the
    last [f]; a value of magnitude at least [10^21] and a non-finite one
    print as [Number::toString] does. *)

Definition round_half_up (m : positive) (e : Z) (f : nat) : N :=
  let scaled := (Zpos m * 10 ^ Z.of_nat f)%Z in
  if 0 <=? e then Z.to_N (scaled * 2 ^ e)
  else Z.to_N ((2 * scaled + 2 ^ (- e)) / 2 ^ (- e + 1)).

Definition fixed_digits (n : N) (f : nat) : string :=
  let m := digits_of_N n in
  match f with
  | O => m
  | _ =>
      let m' := if (length m <=? f)%nat then zeros (f + 1 - length m) ++ m else m in
      let k := length m' in
      take (k - f) m' ++ "." ++ drop (k - f) m'
  end.

Definition toFixed (x : Number) (f : nat) : string :=
  match x with
  | S754_nan | S754_infinity _ => Number_toString x
  | S754_zero _ => fixed_digits 0 f
  | S754_finite s m e =>
      if (0 <=? e) && (10 ^ 21 <=? Zpos m * 2 ^ e) then Number_toString x
      else (if s then "-" else "") ++ fixed_digits (round_half_up m e f) f
  end.

End JS.

(* ================================================================== *)
(** * JSON text *)
(* ================================================================== *)

Module JSON.

(** The values [JSON.stringify] writes and [JSON.parse] returns.  An object
    is the list of its members in insertion order. *)
#[warnings="-register-all"]
Inductive value : Type :=
  | Null
  | Bool (b : bool)
  | Num (x : JS.Number)
  | Str (s : string)
  | Arr (items : list value)
  | Obj (members : list (string * value)).

Definition nl : string := String "010" "".
Definition dquote : ascii := "034"%char.
Definition backslash : ascii := "092"%char.

Definition hex_digit (n : nat) : ascii :=
  nth n ["0"; "1"; "2"; "3"; "4"; "5"; "6"; "7"; "8"; "9";
         "a"; "b"; "c"; "d"; "e"; "f"]%char "0"%char.

(** QuoteJSONString, one character at a time. *)
Definition quote_char (c : ascii) : string :=
  let n := nat_of_ascii c in
  if (n =? 8)%nat then String backslash "b"
  else if (n =? 9)%nat then String backslash "t"
  else if (n =? 10)%nat then String backslash "n"
  else if (n =? 12)%nat then String backslash "f"
  else if (n =? 13)%nat then String backslash "r"
  else if (n =? 34)%nat then String backslash (String dquote "")
  else if (n =? 92)%nat then String backslash (String backslash "")
  else if (n <? 32)%nat then
    String backslash
      ("u00" ++ String (hex_digit (n / 16)) (String (hex_digit (n mod 16)) ""))
  else String c "".

Fixpoint quote_chars (s : string) : string :=
  match s with
  | EmptyString => ""
  | String c r => quote_char c ++ quote_chars r
  end.

Definition quote (s : string) : string :=
  String dquote (quote_chars s ++ String dquote "").

Fixpoint join (sep : string) (parts : list string) : string :=
  match parts with
  | [] => ""
  | [p] => p
  | p :: rest => p ++ sep ++ join sep rest
  end.

(** SerializeJSONProperty at the current [indent], for the gap [gap]. *)
Fixpoint serialize (gap indent : string) (v : value) : string :=
  let inner := indent ++ gap in
  let wrap (opening closing : string) (parts : list string) : string :=
    match parts, gap with
    | [], _ => opening ++ closing
    | _, EmptyString => opening ++ join "," parts ++ closing
    | _, _ =>
        opening ++ nl ++ inner ++ join ("," ++ nl ++ inner) parts
        ++ nl ++ indent ++ closing
    end in
  match v with
  | Null => "null"
  | Bool true => "true"
  | Bool false => "false"
  | Num x => if JS.is_finite x then JS.Number_toString x else "null"
  | Str s => quote s
  | Arr items => wrap "[" "]" (map (serialize gap inner) items)
  | Obj members =>
      wrap "{" "}"
        (map (fun kv : string * value =>
                quote (fst kv)
                ++ (match gap with EmptyString => ":" | _ => ": " end)
                ++ serialize gap inner (snd kv))
             members)
  end.

(** [JSON.stringify(v, null, space)] for a numeric [space]: the gap is
    [min space 10] spaces. *)
Definition stringify (v : value) (space : nat) : string :=
  serialize (JS.repeat_char " " (Nat.min space 10)) "" v.

(** ** JSON.parse

    The text is read by recursive descent.  [fuel] bounds the calls; the
    length of the text is enough.  A syntax error is [None]. *)

Definition is_json_ws (c : ascii) : bool :=
  match c with
  | "009" | "010" | "013" | " " => true
  | _ => false
  end%char.

Fixpoint skip_ws (s : string) : string :=
  match s with
  | String c r => if is_json_ws c then skip_ws r else s
  | EmptyString => ""
  end.

Definition hex_value (c : ascii) : option nat :=
  let n := nat_of_ascii c in
  if (48 <=? n)%nat && (n <=? 57)%nat then Some (n - 48)%nat
  else if (97 <=? n)%nat && (n <=? 102)%nat then Some (n - 87)%nat
  else if (65 <=? n)%nat && (n <=? 70)%nat then Some (n - 55)%nat
  else None.

(** The bytes of the code unit [n] of an escape [\uXXXX], in UTF-8.
    Surrogate halves are written each on its own. *)
Definition utf8 (n : nat) : string :=
  if (n <? 128)%nat then String (ascii_of_nat n) ""
  else if (n <? 2048)%nat then
    String (ascii_of_nat (192 + n / 64))
      (String (ascii_of_nat (128 + n mod 64)) "")
  else
    String (ascii_of_nat (224 + n / 4096))
      (String (ascii_of_nat (128 + (n / 64) mod 64))
         (String (ascii_of_nat (128 + n mod 64)) "")).

(** The characters of a string up to its closing quote, and the rest. *)
Fixpoint parse_chars (s : string) : option (string * string) :=
  match s with
  | EmptyString => None
  | String c r =>
      if Ascii.eqb c dquote then Some ("", r)
      else if Ascii.eqb c backslash then
        match r with
        | String e r1 =>
            let simple (b : nat) :=
              match parse_chars r1 with
              | Some (t, rest) => Some (String (ascii_of_nat b) t, rest)
              | None => None
              end in
            if Ascii.eqb e dquote then simple 34%nat
            else if Ascii.eqb e backslash then simple 92%nat
            else if Ascii.eqb e "/" then simple 47%nat
            else if Ascii.eqb e "b" then simple 8%nat
            else if Ascii.eqb e "f" then simple 12%nat
            else if Ascii.eqb e "n" then simple 10%nat
            else if Ascii.eqb e "r" then simple 13%nat
            else if Ascii.eqb e "t" then simple 9%nat
            else if Ascii.eqb e "u" then
              match r1 with
              | String h1 (String h2 (String h3 (String h4 r2))) =>
                  match hex_value h1, hex_value h2, hex_value h3, hex_value h4,
                        parse_chars r2 with
                  | Some a, Some b, Some c', Some d, Some (t, rest) =>
                      Some (utf8 (((a * 16 + b) * 16 + c') * 16 + d) ++ t, rest)
                  | _, _, _, _, _ => None
                  end
              | _ => None
              end
            else None
        | EmptyString => None
        end
      else if (nat_of_ascii c <? 32)%nat then None
      else
        match parse_chars r with
        | Some (t, rest) => Some (String c t, rest)
        | None => None
        end
  end.

(** A number: [-? int frac? exp?], where [int] has no leading zero. *)
Definition valid_int (ip : string) : bool :=
  match ip with
  | EmptyString => false
  | String c r => negb (Ascii.eqb c "0") || String.eqb r ""
  end.

(** An optional fraction: its digits, none when absent. *)
Definition read_fraction (s : string) : option (string * string) :=
  match s with
  | String c r =>
      if Ascii.eqb c "." then
        let '(fp, r2) := JS.span_digits r in
        match fp with
        | EmptyString => None
        | _ => Some (fp, r2)
        end
      else Some ("", s)
  | EmptyString => Some ("", s)
  end.

(** An optional exponent: its value, 0 when absent. *)
Definition read_exponent (s : string) : option (Z * string) :=
  match s with
  | String c r =>
      if (Ascii.eqb c "e" || Ascii.eqb c "E")%bool then
        let '(eneg, r3) := JS.read_sign r in
        let '(ds, r4) := JS.span_digits r3 in
        match ds with
        | EmptyString => None
        | _ =>
            let ex := Z.of_N (JS.N_of_digits ds) in
            Some ((if eneg then - ex else ex), r4)
        end
      else Some (0, s)
  | EmptyString => Some (0, s)
  end.

Definition parse_unsigned (neg : bool) (s : string) : option (JS.Number * string) :=
  let '(ip, r1) := JS.span_digits s in
  if valid_int ip then
    match read_fraction r1 with
    | Some (fp, r2) =>
        match read_exponent r2 with
        | Some (ex, r3) =>
            Some (JS.of_decimal neg (JS.N_of_digits (ip ++ fp))
                    (ex - Z.of_nat (length fp)), r3)
        | None => None
        end
    | None => None
    end
  else None.

Definition parse_number (s : string) : option (JS.Number * string) :=
  match s with
  | String c r =>
      if Ascii.eqb c "-" then parse_unsigned true r else parse_unsigned false s
  | EmptyString => None
  end.

Definition parse_literal (word : string) (v : value) (s : string)
    : option (value * string) :=
  if prefix word s then Some (v, JS.drop (length word) s) else None.

(** [s] without its first character, when that is [c]. *)
Definition after_char (c : ascii) (s : string) : option string :=
  match s with
  | String c' r => if Ascii.eqb c' c then Some r else None
  | EmptyString => None
  end.

Fixpoint parse_value (fuel : nat) (s : string) : option (value * string) :=
  match fuel with
  | O => None
  | S fuel' =>
      match skip_ws s with
      | String c r =>
          if Ascii.eqb c "n" then parse_literal "null" Null (String c r)
          else if Ascii.eqb c "t" then parse_literal "true" (Bool true) (String c r)
          else if Ascii.eqb c "f" then parse_literal "false" (Bool false) (String c r)
          else if Ascii.eqb c dquote then
            match parse_chars r with
            | Some (t, rest) => Some (Str t, rest)
            | None => None
            end
          else if Ascii.eqb c "[" then
            match after_char "]" (skip_ws r) with
            | Some rest => Some (Arr [], rest)
            | None =>
                match parse_elements fuel' r with
                | Some (items, rest) => Some (Arr items, rest)
                | None => None
                end
            end
          else if Ascii.eqb c "{" then
            match after_char "}" (skip_ws r) with
            | Some rest => Some (Obj [], rest)
            | None =>
                match parse_members fuel' r with
                | Some (members, rest) => Some (Obj members, rest)
                | None => None
                end
            end
          else
            match parse_number (String c r) with
            | Some (x, rest) => Some (Num x, rest)
            | None => None
            end
      | EmptyString => None
      end
  end
with parse_elements (fuel : nat) (s : string) : option (list value * string) :=
  match fuel with
  | O => None
  | S fuel' =>
      match parse_value fuel' s with
      | Some (v, r) =>
          match after_char "," (skip_ws r) with
          | Some r' =>
              match parse_elements fuel' r' with
              | Some (vs, rest) => Some (v :: vs, rest)
              | None => None
              end
          | None =>
              match after_char "]" (skip_ws r) with
              | Some rest => Some ([v], rest)
              | None => None
              end
          end
      | None => None
      end
  end
with parse_members (fuel : nat) (s : string) : option (list (string * value) * string) :=
  match fuel with
  | O => None
  | S fuel' =>
      match after_char dquote (skip_ws s) with
      | Some r =>
          match parse_chars r with
          | Some (key, r1) =>
              match after_char ":" (skip_ws r1) with
              | Some r2 =>
                  match parse_value fuel' r2 with
                  | Some (v, r3) =>
                      match after_char "," (skip_ws r3) with
                      | Some r4 =>
                          match parse_members fuel' r4 with
                          | Some (ms, rest) => Some ((key, v) :: ms, rest)
                          | None => None
                          end
                      | None =>
                          match after_char "}" (skip_ws r3) with
                          | Some rest => Some ([(key, v)], rest)
                          | None => None
                          end
                      end
                  | None => None
                  end
              | None => None
              end
          | None => None
          end
      | None => None
      end
  end.

(** [JSON.parse(text)].  An object is returned as its members in the order
    of the text; [get] reads a property, the last member of that name. *)
Definition parse (text : string) : option value :=
  match parse_value (S (length text)) text with
  | Some (v, rest) =>
      match skip_ws rest with
      | EmptyString => Some v
      | _ => None
      end
  | None => None
  end.

Definition get (key : string) (v : value) : option value :=
  match v with
  | Obj members =>
      option_map snd (find (fun kv => String.eqb (fst kv) key) (List.rev members))
  | _ => None
  end.

End JSON.

(* ================================================================== *)
(** * The AWS SDK responses the script reads *)
(* ================================================================== *)

Module Aws.

(** A rejected request: the script reads only [error.message]. *)
Record Error : Set := { message : string }.

(** Cost Explorer *)
Record MetricValue : Set := { Amount : string; Unit : string }.
Record MetricMap : Set := { BlendedCost : MetricValue }.
Record Group : Set := { Keys : list string; Metrics : MetricMap }.
Record DateInterval : Set := { Start : string; End_ : string }.

(** The answers are taken in the shape the SDK documents for the requests
    the script makes: an entry of [ResultsByTime] has its [Groups], a group
    its [Metrics.BlendedCost], a forecast its [ForecastResultsByTime].  What
    the script does with an answer that lacks one of these (it throws a
    TypeError where it reads it) is outside this development; every
    statement below is about answers of this shape.

    One entry of [ResultsByTime].  [TimePeriod] and [Total] are absent
    ([None]) in the [{ Groups: [] }] the script substitutes for no data. *)
Record ResultByTime : Set := {
  TimePeriod : option DateInterval;
  Total : option MetricMap;
  Groups : list Group
}.

Record GetCostAndUsageResponse : Set := {
  ResultsByTime : option (list ResultByTime)
}.

Record ForecastResult : Set := { MeanValue : string }.
Record GetCostForecastResponse : Set := {
  ForecastResultsByTime : list ForecastResult
}.

(** Budgets *)
Record Budget : Set := {
  BudgetName : string;
  BudgetLimit : MetricValue;
  CalculatedSpend : MetricValue
}.
Record DescribeBudgetsResponse : Set := { Budgets : option (list Budget) }.

(** STS *)
Record GetCallerIdentityResponse : Set := { Account : string }.

(** SNS *)
Record PublishInput : Set := {
  TopicArn : string;
  Subject : string;
  Message : string
}.

Inductive Granularity : Set := MONTHLY | DAILY.

End Aws.

(* ================================================================== *)
(** * The script *)
(* ================================================================== *)

Module CostMonitor.

Import Aws.

(** ** What a run depends on

    The environment variables, the clock, the location of the reports
    directory and the outcome of every request the script may issue.  A
    request either is rejected with an error ([inl]) or resolves ([inr]). *)
Record World : Type := {
  AWS_REGION : option string;
  APP_NAME : option string;
  COST_BUDGET_LIMIT : option string;
  SNS_ALERT_TOPIC : option string;
  (** [path.join(__dirname, '..', 'reports')] *)
  reportsDir : string;
  (** [new Date().toISOString()] *)
  now : string;
  costExplorer_getCostAndUsage : Granularity -> Error + GetCostAndUsageResponse;
  costExplorer_getCostForecast : Error + GetCostForecastResponse;
  sts_getCallerIdentity : Error + GetCallerIdentityResponse;
  budgets_describeBudgets : string -> Error + DescribeBudgetsResponse;
  sns_publish : PublishInput -> Error + unit;
  fs_mkdirSync : string -> Error + unit;
  fs_writeFileSync : string -> Error + unit
}.

(** ** What a run does

    The pictographs and bullets that open some console lines are left out
    of the line texts. *)
Inductive event : Type :=
  | console_log_ev (line : string)
  | console_error_ev (line : string)
  | getCostAndUsage_ev (g : Granularity)
  | getCostForecast_ev
  | getCallerIdentity_ev
  | describeBudgets_ev (accountId : string)
  | publish_ev (params : PublishInput)
  | mkdirSync_ev (path : string)
  | writeFileSync_ev (path content : string).

(** The mutable state: the account id memoised in [CONFIG.accountId], the
    file system, and the events so far, oldest first. *)
Record State : Type := {
  accountId : option string;
  dirs : list string;
  files : list (string * string);
  trace : list event
}.

Definition initial (ds : list string) : State :=
  {| accountId := None; dirs := ds; files := []; trace := [] |}.

(** [readFile st path]: the text last written to [path]. *)
Definition readFile (st : State) (path : string) : option string :=
  option_map snd (find (fun pf => String.eqb (fst pf) path) (files st)).

(** ** Computations

    A computation returns, throws, or ends the process ([process.exit]). *)
Inductive outcome (A : Type) : Type :=
  | Returned (a : A)
  | Threw (e : Error)
  | Exited (code : Z).

Arguments Returned {A} a.
Arguments Threw {A} e.
Arguments Exited {A} code.

Definition M (A : Type) : Type := State -> outcome A * State.

Definition ret {A : Type} (a : A) : M A := fun st => (Returned a, st).

Definition bind {A B : Type} (m : M A) (k : A -> M B) : M B :=
  fun st =>
    match m st with
    | (Returned a, st') => k a st'
    | (Threw e, st') => (Threw e, st')
    | (Exited c, st') => (Exited c, st')
    end.

Definition throw {A : Type} (e : Error) : M A := fun st => (Threw e, st).

Definition process_exit {A : Type} (code : Z) : M A :=
  fun st => (Exited code, st).

(** [try { m } catch (error) { h error }] *)
Definition try_catch {A : Type} (m : M A) (h : Error -> M A) : M A :=
  fun st =>
    match m st with
    | (Threw e, st') => h e st'
    | r => r
    end.

Declare Scope js_scope.
Delimit Scope js_scope with js.
Notation "x <- m ;; k" := (bind m (fun x => k))
  (at level 61, m at next level, right associativity) : js_scope.
Notation "m ;; k" := (bind m (fun _ => k))
  (at level 61, right associativity) : js_scope.
#[local] Open Scope js_scope.

(** [extend st evs]: the state [st] after the events [evs]. *)
Definition extend (st : State) (evs : list event) : State :=
  {| accountId := accountId st; dirs := dirs st; files := files st;
     trace := trace st ++ evs |}.

Definition emit (e : event) : M unit :=
  fun st => (Returned tt, extend st [e]).

Definition console_log (line : string) : M unit := emit (console_log_ev line).
Definition console_error (line : string) : M unit := emit (console_error_ev line).

(** [await request.promise()]: the request is issued, then resolves or is
    rejected as the world says. *)
Definition await {A : Type} (call : event) (response : Error + A) : M A :=
  emit call ;;
  match response with
  | inr a => ret a
  | inl e => throw e
  end.

(** Reading a property of [undefined] throws a TypeError. *)
Definition defined {A : Type} (v : option A) (property : string) : M A :=
  match v with
  | Some a => ret a
  | None =>
      throw {| message := "Cannot read properties of undefined (reading '"
                          ++ property ++ "')" |}
  end.

Fixpoint forEach {A : Type} (xs : list A) (f : A -> M unit) : M unit :=
  match xs with
  | [] => ret tt
  | x :: rest => f x ;; forEach rest f
  end.

Fixpoint mapM {A B : Type} (f : A -> M B) (xs : list A) : M (list B) :=
  match xs with
  | [] => ret []
  | x :: rest => y <- f x ;; ys <- mapM f rest ;; ret (y :: ys)
  end.

(** ** The report *)

Module Breakdown.
Record t : Set := { service : option string; cost : string; percentage : string }.
End Breakdown.

Module Trend.
Record t : Set := { date : string; cost : string }.
End Trend.

Module Forecast.
Record t : Set := { nextMonth : string; confidence : string }.
End Forecast.

Record Summary : Set := {
  totalCost : string;
  budgetLimit : JS.Number;
  budgetUsed : string;
  status : string
}.

Record Report : Set := {
  timestamp : string;
  period : string;
  summary : Summary;
  serviceBreakdown : list Breakdown.t;
  dailyTrend : list Trend.t;
  forecast : option Forecast.t
}.

Module Recommendation.
Record t : Set := {
  service : option string;
  cost : string;
  recommendation : string;
  impact : string;
  effort : string
}.
End Recommendation.

(** The report as [JSON.stringify] sees it: the properties in the order of
    the object literal, an [undefined] property left out. *)
Definition json_of_breakdown (b : Breakdown.t) : JSON.value :=
  JSON.Obj
    ((match Breakdown.service b with
      | Some s => [("service", JSON.Str s)]
      | None => []
      end)
     ++ [("cost", JSON.Str (Breakdown.cost b));
         ("percentage", JSON.Str (Breakdown.percentage b))]).

Definition json_of_trend (d : Trend.t) : JSON.value :=
  JSON.Obj [("date", JSON.Str (Trend.date d)); ("cost", JSON.Str (Trend.cost d))].

Definition json_of_summary (s : Summary) : JSON.value :=
  JSON.Obj [("totalCost", JSON.Str (totalCost s));
            ("budgetLimit", JSON.Num (budgetLimit s));
            ("budgetUsed", JSON.Str (budgetUsed s));
            ("status", JSON.Str (status s))].

Definition json_of_report (r : Report) : JSON.value :=
  JSON.Obj
    [("timestamp", JSON.Str (timestamp r));
     ("period", JSON.Str (period r));
     ("summary", json_of_summary (summary r));
     ("serviceBreakdown", JSON.Arr (map json_of_breakdown (serviceBreakdown r)));
     ("dailyTrend", JSON.Arr (map json_of_trend (dailyTrend r)));
     ("forecast",
      match forecast r with
      | Some f => JSON.Obj [("nextMonth", JSON.Str (Forecast.nextMonth f));
                            ("confidence", JSON.Str (Forecast.confidence f))]
      | None => JSON.Null
      end)].

(** ** Configuration *)

Module Config.
Record t : Set := {
  region : string;
  appName : string;
  budgetLimit : JS.Number;
  alertThreshold : JS.Number;
  services : list string;
  outputDir : string
}.
End Config.

(** Number literals of the script. *)
Definition lit_0_8 : JS.Number := JS.of_decimal false 8 (-1).
Definition lit_1_0 : JS.Number := JS.of_N 1.
Definition lit_2_0 : JS.Number := JS.of_N 2.
Definition lit_10_0 : JS.Number := JS.of_N 10.
Definition lit_100 : JS.Number := JS.of_N 100.

Definition nl : string := JSON.nl.

Section Script.

Variable w : World.

(** [CONFIG], lines 20-34.  [||] falls back on a falsy left operand: an
    unset or empty string, a budget that parses to zero or NaN. *)
Definition CONFIG : Config.t :=
  {| Config.region := JS.str_or_else (AWS_REGION w) "us-east-1";
     Config.appName := JS.str_or_else (APP_NAME w) "slightbuild";
     Config.budgetLimit :=
       JS.or_else (JS.parseFloat_env (COST_BUDGET_LIMIT w)) lit_10_0;
     Config.alertThreshold := lit_0_8;
     Config.services :=
       ["Amazon Amplify"; "Amazon CloudFront"; "Amazon Route 53";
        "AWS Certificate Manager"; "Amazon CloudWatch"; "Amazon S3"];
     Config.outputDir := reportsDir w |}.

(** The [{ Groups: [] }] returned for no data. *)
Definition no_groups : ResultByTime :=
  {| TimePeriod := None; Total := None; Groups := [] |}.

(** [getCurrentMonthCosts], lines 45-79. *)
Definition getCurrentMonthCosts : M ResultByTime :=
  try_catch
    (result <- await (getCostAndUsage_ev MONTHLY)
                     (costExplorer_getCostAndUsage w MONTHLY) ;;
     results <- defined (ResultsByTime result) "0" ;;
     ret (match results with
          | first :: _ => first
          | [] => no_groups
          end))
    (fun error =>
       console_error ("Error fetching cost data: " ++ message error) ;;
       ret no_groups).

(** [getDailyCosts], lines 84-112. *)
Definition getDailyCosts : M (list ResultByTime) :=
  try_catch
    (result <- await (getCostAndUsage_ev DAILY)
                     (costExplorer_getCostAndUsage w DAILY) ;;
     ret (match ResultsByTime result with
          | Some results => results
          | None => []
          end))
    (fun error =>
       console_error ("Error fetching daily cost data: " ++ message error) ;;
       ret []).

(** [getCostForecast], lines 117-145. *)
Definition getCostForecast : M GetCostForecastResponse :=
  try_catch
    (await getCostForecast_ev (costExplorer_getCostForecast w))
    (fun error =>
       console_error ("Error fetching cost forecast: " ++ message error) ;;
       ret {| ForecastResultsByTime := [] |}).

(** [getAccountId], lines 170-177: the identity is fetched once and kept in
    [CONFIG.accountId]; an empty id is falsy and fetched again. *)
Definition getAccountId : M string :=
  fun st =>
    match accountId st with
    | Some (String c r) => (Returned (String c r), st)
    | _ =>
        (result <- await getCallerIdentity_ev (sts_getCallerIdentity w) ;;
         (fun st' =>
            (Returned (Account result),
             {| accountId := Some (Account result); dirs := dirs st';
                files := files st'; trace := trace st' |}))) st
    end.

(** [getBudgetInfo], lines 150-165.  The account id is awaited while the
    parameters are built, before the [try] block is entered. *)
Definition getBudgetInfo : M (option Budget) :=
  account <- getAccountId ;;
  try_catch
    (result <- await (describeBudgets_ev account)
                     (budgets_describeBudgets w account) ;;
     budgets <- defined (Budgets result) "find" ;;
     ret (find (fun budget =>
                  JS.includes (Config.appName CONFIG) (BudgetName budget)
                  || JS.includes "monthly-budget" (BudgetName budget))
               budgets))
    (fun error =>
       console_error ("Error fetching budget info: " ++ message error) ;;
       ret None).

(** The cost of one group, [parseFloat(group.Metrics.BlendedCost.Amount)]. *)
Definition group_cost (group : Group) : JS.Number :=
  JS.parseFloat (Amount (BlendedCost (Metrics group))).

(** [currentCosts.Groups.reduce((sum, group) => sum + ..., 0)] *)
Definition total_of (groups : list Group) : JS.Number :=
  fold_left (fun sum group => JS.add sum (group_cost group)) groups JS.zero.

Definition breakdown_of (totalCost : JS.Number) (group : Group) : Breakdown.t :=
  {| Breakdown.service := hd_error (Keys group);
     Breakdown.cost := JS.toFixed (group_cost group) 2;
     Breakdown.percentage :=
       JS.toFixed (JS.mul (JS.div (group_cost group) totalCost) lit_100) 1 |}.

(** One entry of the daily trend; [day.TimePeriod.Start] and
    [day.Total.BlendedCost.Amount] throw on a missing object. *)
Definition trend_of (day : ResultByTime) : M Trend.t :=
  period <- defined (TimePeriod day) "Start" ;;
  total <- defined (Total day) "BlendedCost" ;;
  ret {| Trend.date := Start period;
         Trend.cost := JS.toFixed (JS.parseFloat (Amount (BlendedCost total))) 2 |}.

Definition forecast_of (forecast : GetCostForecastResponse) : option Forecast.t :=
  match ForecastResultsByTime forecast with
  | first :: _ =>
      Some {| Forecast.nextMonth := JS.toFixed (JS.parseFloat (MeanValue first)) 2;
              Forecast.confidence := "Medium" |}
  | [] => None
  end.

(** The report object, lines 199-221. *)
Definition build_report (currentCosts : ResultByTime)
    (dailyCosts : list ResultByTime) (forecast : GetCostForecastResponse)
    (budget : option Budget) : M Report :=
  let totalCost := total_of (Groups currentCosts) in
  trend <- mapM trend_of (JS.slice_last 7 dailyCosts) ;;
  ret {| timestamp := now w;
         period := JS.substring0 7 (now w);
         summary :=
           {| totalCost := JS.toFixed totalCost 2;
              budgetLimit := Config.budgetLimit CONFIG;
              budgetUsed :=
                match budget with
                | Some _ =>
                    JS.toFixed
                      (JS.mul (JS.div totalCost (Config.budgetLimit CONFIG)) lit_100) 1
                | None => "N/A"
                end;
              status :=
                if JS.gt totalCost
                     (JS.mul (Config.budgetLimit CONFIG) (Config.alertThreshold CONFIG))
                then "WARNING" else "OK" |};
         serviceBreakdown := map (breakdown_of totalCost) (Groups currentCosts);
         dailyTrend := trend;
         forecast := forecast_of forecast |}.

(** The console report, lines 224-253.  [service.service.padEnd] throws when
    the group had no key. *)
Definition print_report (report : Report) : M unit :=
  console_log "COST SUMMARY" ;;
  console_log "===============" ;;
  console_log ("Current Month Cost: $" ++ totalCost (summary report)) ;;
  console_log ("Budget Limit: $" ++ JS.Number_toString (budgetLimit (summary report))) ;;
  console_log ("Budget Used: " ++ budgetUsed (summary report) ++ "%") ;;
  console_log ("Status: " ++ status (summary report)) ;;
  console_log "" ;;
  console_log "SERVICE BREAKDOWN" ;;
  console_log "====================" ;;
  forEach (serviceBreakdown report) (fun service =>
    name <- defined (Breakdown.service service) "padEnd" ;;
    console_log (JS.padEnd 25 name ++ " $" ++ JS.padStart 6 (Breakdown.cost service)
                 ++ " (" ++ Breakdown.percentage service ++ "%)")) ;;
  console_log "" ;;
  match dailyTrend report with
  | [] => ret tt
  | _ =>
      console_log "DAILY TREND (Last 7 Days)" ;;
      console_log "============================" ;;
      forEach (dailyTrend report) (fun day =>
        console_log (Trend.date day ++ " $" ++ Trend.cost day)) ;;
      console_log ""
  end ;;
  match forecast report with
  | Some f =>
      console_log "FORECAST" ;;
      console_log "===========" ;;
      console_log ("Next Month Estimate: $" ++ Forecast.nextMonth f) ;;
      console_log ""
  | None => ret tt
  end.

(** [fs.existsSync], [fs.mkdirSync] and [fs.writeFileSync]. *)
Definition existsSync (path : string) : M bool :=
  fun st => (Returned (existsb (String.eqb path) (dirs st)), st).

Definition mkdirSync (path : string) : M unit :=
  await (mkdirSync_ev path) (fs_mkdirSync w path) ;;
  fun st =>
    (Returned tt,
     {| accountId := accountId st; dirs := path :: dirs st; files := files st;
        trace := trace st |}).

Definition writeFileSync (path content : string) : M unit :=
  await (writeFileSync_ev path content) (fs_writeFileSync w path) ;;
  fun st =>
    (Returned tt,
     {| accountId := accountId st; dirs := dirs st;
        files := (path, content) :: files st; trace := trace st |}).

(** [path.join(dir, file)] for a normalised non-empty [dir]. *)
Definition path_join (dir file : string) : string := dir ++ "/" ++ file.

Definition reportFile_of (report : Report) : string :=
  path_join (Config.outputDir CONFIG) ("cost-report-" ++ period report ++ ".json").

(** [generateCostReport], lines 182-270.  The four fetches of [Promise.all]
    are run in the order of the array.  The script issues their requests in
    this order too, each fetch running to its first [await] when it is
    called; the console line of a rejected fetch, logged here before the next
    request, comes there when the rejection arrives.  The clock is read once,
    for [timestamp] and for [period]. *)
Definition generateCostReport : M Report :=
  console_log ("Generating SlightBuild Cost Report..." ++ nl) ;;
  try_catch
    (currentCosts <- getCurrentMonthCosts ;;
     dailyCosts <- getDailyCosts ;;
     forecast <- getCostForecast ;;
     budget <- getBudgetInfo ;;
     report <- build_report currentCosts dailyCosts forecast budget ;;
     print_report report ;;
     dir_exists <- existsSync (Config.outputDir CONFIG) ;;
     (if dir_exists then ret tt else mkdirSync (Config.outputDir CONFIG)) ;;
     writeFileSync (reportFile_of report) (JSON.stringify (json_of_report report) 2) ;;
     console_log ("Report saved to: " ++ reportFile_of report) ;;
     ret report)
    (fun error =>
       console_error ("Error generating cost report: " ++ message error) ;;
       process_exit 1).

(** [sendAlert], lines 309-329. *)
Definition sendAlert (level message : string) : M unit :=
  match SNS_ALERT_TOPIC w with
  | Some (String c r) =>
      let topicArn := String c r in
      let params :=
        {| TopicArn := topicArn;
           Subject := "SlightBuild Cost Alert - " ++ level;
           Message := message ++ nl ++ nl ++ "Timestamp: " ++ now w ++ nl
                      ++ "App: " ++ Config.appName CONFIG |} in
      try_catch
        (await (publish_ev params) (sns_publish w params) ;;
         console_log "Alert notification sent")
        (fun error => console_error ("Error sending alert: " ++ Aws.message error))
  | _ => console_log "SNS_ALERT_TOPIC not configured, skipping notification"
  end.

(** [checkCostAlerts], lines 275-304. *)
Definition checkCostAlerts : M unit :=
  console_log ("Checking Cost Alerts..." ++ nl) ;;
  try_catch
    (currentCosts <- getCurrentMonthCosts ;;
     let totalCost := total_of (Groups currentCosts) in
     let percentageUsed :=
       JS.mul (JS.div totalCost (Config.budgetLimit CONFIG)) lit_100 in
     let limit := JS.Number_toString (Config.budgetLimit CONFIG) in
     console_log ("Current cost: $" ++ JS.toFixed totalCost 2) ;;
     console_log ("Budget limit: $" ++ limit) ;;
     console_log ("Percentage used: " ++ JS.toFixed percentageUsed 1 ++ "%") ;;
     if JS.ge percentageUsed lit_100 then
       console_log "CRITICAL: Budget limit exceeded!" ;;
       sendAlert "CRITICAL"
         ("Budget exceeded: $" ++ JS.toFixed totalCost 2 ++ " / $" ++ limit)
     else if JS.ge percentageUsed (JS.mul (Config.alertThreshold CONFIG) lit_100) then
       console_log "WARNING: Approaching budget limit" ;;
       sendAlert "WARNING"
         ("Budget " ++ JS.toFixed percentageUsed 1 ++ "% used: $"
          ++ JS.toFixed totalCost 2 ++ " / $" ++ limit)
     else console_log "OK: Within budget limits")
    (fun error =>
       console_error ("Error checking cost alerts: " ++ message error) ;;
       process_exit 1).

(** The recommendation pushed for one group, lines 342-381: the [switch] has
    a case for three of the services, each with its own threshold. *)
Definition recommend (group : Group) : list Recommendation.t :=
  let service := hd_error (Keys group) in
  let cost := group_cost group in
  let push (threshold : JS.Number) (recommendation impact effort : string) :=
    if JS.gt cost threshold then
      [{| Recommendation.service := service;
          Recommendation.cost := JS.toFixed cost 2;
          Recommendation.recommendation := recommendation;
          Recommendation.impact := impact;
          Recommendation.effort := effort |}]
    else [] in
  match service with
  | Some name =>
      if String.eqb name "Amazon Amplify" then
        push lit_2_0
          "Consider enabling performance mode and optimizing build times"
          "Medium" "Low"
      else if String.eqb name "Amazon CloudFront" then
        push lit_1_0
          "Review caching policies and consider image optimization"
          "High" "Medium"
      else if String.eqb name "Amazon Route 53" then
        push lit_1_0
          "Review DNS queries and consider consolidating hosted zones"
          "Low" "Low"
      else []
  | None => []
  end.

(** [currentCosts.Groups.forEach(group => { ... recommendations.push ... })] *)
Definition recommendations_of (groups : list Group) : list Recommendation.t :=
  fold_left (fun recommendations group => (recommendations ++ recommend group)%list)
            groups [].

Definition print_recommendation (index : nat) (rec : Recommendation.t) : M unit :=
  name <- ret (match Recommendation.service rec with
               | Some s => s
               | None => "undefined"
               end) ;;
  console_log (JS.digits_of_N (N.of_nat (index + 1)) ++ ". " ++ name
               ++ " ($" ++ Recommendation.cost rec ++ ")") ;;
  console_log ("   Recommendation: " ++ Recommendation.recommendation rec) ;;
  console_log ("   Impact: " ++ Recommendation.impact rec ++ " | Effort: "
               ++ Recommendation.effort rec) ;;
  console_log "".

Fixpoint forEach_indexed {A : Type} (index : nat) (xs : list A)
    (f : nat -> A -> M unit) : M unit :=
  match xs with
  | [] => ret tt
  | x :: rest => f index x ;; forEach_indexed (S index) rest f
  end.

(** [generateOptimizationReport], lines 334-412.  The recommendations are a
    local of the function; they are returned here so that they can be
    spoken of. *)
Definition generateOptimizationReport : M (list Recommendation.t) :=
  console_log ("Generating Cost Optimization Recommendations..." ++ nl) ;;
  try_catch
    (currentCosts <- getCurrentMonthCosts ;;
     let recommendations := recommendations_of (Groups currentCosts) in
     console_log "OPTIMIZATION RECOMMENDATIONS" ;;
     console_log "================================" ;;
     match recommendations with
     | [] => console_log "No specific recommendations - costs are optimized"
     | _ => forEach_indexed 0 recommendations print_recommendation
     end ;;
     console_log "GENERAL BEST PRACTICES" ;;
     console_log "=========================" ;;
     console_log "Enable Amplify performance mode for faster builds" ;;
     console_log "Use appropriate cache headers for static assets" ;;
     console_log "Monitor and clean up old build artifacts" ;;
     console_log "Set up budget alerts for proactive cost management" ;;
     console_log "Review and optimize image sizes and formats" ;;
     console_log "Consider using CDN edge locations closer to users" ;;
     ret recommendations)
    (fun error =>
       console_error ("Error generating optimization report: " ++ message error) ;;
       process_exit 1).

Definition separator : string := nl ++ JS.repeat_char "=" 50 ++ nl.

(** [main], lines 417-439, on [process.argv.slice(2)]. *)
Definition main (args : list string) : M unit :=
  let has flag := existsb (String.eqb flag) args in
  try_catch
    (if has "--report" then generateCostReport ;; ret tt
     else if has "--alert" then checkCostAlerts
     else if has "--optimize" then generateOptimizationReport ;; ret tt
     else
       generateCostReport ;;
       console_log separator ;;
       checkCostAlerts ;;
       console_log separator ;;
       generateOptimizationReport ;;
       ret tt)
    (fun error =>
       console_error ("Script execution failed: " ++ message error) ;;
       process_exit 1).

End Script.

End CostMonitor.

(* ================================================================== *)
(** * Properties *)
(* ================================================================== *)

Import Aws CostMonitor.
#[local] Open Scope js_scope.

(** ** Notions used in the statements

    The views of a run, the sample worlds and the predicates of the
    statements, ahead of the lemmas and theorems. *)

(** [2^t <= p / q], on integers. *)
Definition at_least_pow2 (p q t : Z) : Prop :=
  q * 2 ^ Z.max 0 t <= p * 2 ^ Z.max 0 (- t).

(** *** The fetches

    What each Cost Explorer fetch returns and what it logs, read off a run
    from a fresh state. *)
Definition month_result (w : World) : ResultByTime :=
  match fst (getCurrentMonthCosts w (initial [])) with
  | Returned r => r
  | _ => no_groups
  end.

Definition month_events (w : World) : list event :=
  trace (snd (getCurrentMonthCosts w (initial []))).

Definition daily_result (w : World) : list ResultByTime :=
  match fst (getDailyCosts w (initial [])) with
  | Returned r => r
  | _ => []
  end.

Definition daily_events (w : World) : list event :=
  trace (snd (getDailyCosts w (initial []))).

Definition forecast_result (w : World) : GetCostForecastResponse :=
  match fst (getCostForecast w (initial [])) with
  | Returned r => r
  | _ => {| ForecastResultsByTime := [] |}
  end.

Definition forecast_events (w : World) : list event :=
  trace (snd (getCostForecast w (initial []))).

(** The per-service groups of the current month, as the script sees them. *)
Definition month_groups (w : World) : list Group := Groups (month_result w).

(** The total the script computes: the amounts added left to right from 0. *)
Definition month_total (w : World) : JS.Number :=
  fold_left JS.add (map group_cost (month_groups w)) JS.zero.

(** ** Sample worlds

    Worlds in which every request resolves, used to run the script on
    concrete inputs. *)
Module Samples.

Definition usd (amount : string) : MetricValue := {| Amount := amount; Unit := "USD" |}.

Definition group (name amount : string) : Group :=
  {| Keys := [name]; Metrics := {| BlendedCost := usd amount |} |}.

Definition day (date amount : string) : ResultByTime :=
  {| TimePeriod := Some {| Start := date; End_ := date |};
     Total := Some {| BlendedCost := usd amount |};
     Groups := [] |}.

Definition budget (name : string) : Budget :=
  {| BudgetName := name; BudgetLimit := usd "25.0"; CalculatedSpend := usd "1.0" |}.

(** The budget limit of the environment, the alert topic, the groups of the
    current month and the budgets of the account. *)
Definition world (limit topic : option string) (groups : list Group)
    (budgets : list Budget) : World :=
  {| AWS_REGION := None;
     APP_NAME := None;
     COST_BUDGET_LIMIT := limit;
     SNS_ALERT_TOPIC := topic;
     reportsDir := "/site/reports";
     now := "2024-05-17T09:30:00.000Z";
     costExplorer_getCostAndUsage := fun g =>
       match g with
       | MONTHLY =>
           inr {| ResultsByTime :=
                    Some [{| TimePeriod := None; Total := None; Groups := groups |}] |}
       | DAILY =>
           inr {| ResultsByTime :=
                    Some [day "2024-05-15" "0.41"; day "2024-05-16" "0.38"] |}
       end;
     costExplorer_getCostForecast :=
       inr {| ForecastResultsByTime := [{| MeanValue := "9.256" |}] |};
     sts_getCallerIdentity := inr {| Account := "123456789012" |};
     budgets_describeBudgets := fun _ => inr {| Budgets := Some budgets |};
     sns_publish := fun _ => inr tt;
     fs_mkdirSync := fun _ => inr tt;
     fs_writeFileSync := fun _ => inr tt |}.

Definition topic : option string := Some "arn:aws:sns:us-east-1:123456789012:alerts".

(** The report of a run from a fresh state, when there is one. *)
Definition report_of (w : World) : option Report :=
  match fst (generateCostReport w (initial [])) with
  | Returned r => Some r
  | _ => None
  end.

Definition blank : Report :=
  {| timestamp := ""; period := "";
     summary := {| totalCost := ""; budgetLimit := JS.NaN; budgetUsed := ""; status := "" |};
     serviceBreakdown := []; dailyTrend := []; forecast := None |}.

Definition the_report (w : World) : Report :=
  match report_of w with
  | Some r => r
  | None => blank
  end.

End Samples.

(** *** Alerts *)

(** The publish requests among some events, oldest first. *)
Definition published (evs : list event) : list PublishInput :=
  flat_map (fun e => match e with publish_ev p => [p] | _ => [] end) evs.

(** The line [sendAlert] logs without a topic. *)
Definition skip_line : string :=
  "SNS_ALERT_TOPIC not configured, skipping notification".

(** The events of [sendAlert] and of [checkCostAlerts]. *)
Definition sendAlert_events (w : World) (level message : string) : list event :=
  trace (snd (sendAlert w level message (initial []))).

Definition alert_events (w : World) : list event :=
  trace (snd (checkCostAlerts w (initial []))).

(** [percentageUsed] of [checkCostAlerts]. *)
Definition percent_used (w : World) : JS.Number :=
  JS.mul (JS.div (month_total w) (Config.budgetLimit (CONFIG w))) lit_100.

(** The messages of the two alerts, lines 292 and 295. *)
Definition critical_message (w : World) : string :=
  "Budget exceeded: $" ++ JS.toFixed (total_of (month_groups w)) 2 ++ " / $"
  ++ JS.Number_toString (Config.budgetLimit (CONFIG w)).

Definition warning_message (w : World) : string :=
  "Budget " ++ JS.toFixed (percent_used w) 1 ++ "% used: $"
  ++ JS.toFixed (total_of (month_groups w)) 2 ++ " / $"
  ++ JS.Number_toString (Config.budgetLimit (CONFIG w)).

(** The console lines of the three branches, lines 290-299. *)
Definition critical_line : string := "CRITICAL: Budget limit exceeded!".

Definition warning_line : string := "WARNING: Approaching budget limit".

Definition ok_line : string := "OK: Within budget limits".

(** The classification in the words of the specification: at least 100
    percent is CRITICAL; at least the threshold times 100 percent but under
    100 percent is WARNING; anything else is OK. *)
Inductive AlertLevel : Set := CRITICAL | WARNING | OK.

Definition classify (threshold percent : JS.Number) : AlertLevel :=
  if JS.ge percent lit_100 then CRITICAL
  else if JS.ge percent (JS.mul threshold lit_100) && JS.lt percent lit_100
  then WARNING
  else OK.

(** The footprint of [sendAlert level _] in the events [evs]: with a topic
    configured, one publish request to that topic whose subject names the
    level; without one, no request and the line that says so. *)
Definition dispatched (w : World) (level : string) (evs : list event) : Prop :=
  match SNS_ALERT_TOPIC w with
  | Some (String c r) =>
      map (fun p => (TopicArn p, Subject p)) (published evs)
      = [(String c r, "SlightBuild Cost Alert - " ++ level)]
  | _ => published evs = [] /\ In (console_log_ev skip_line) evs
  end.

(** [sendAlert] was not entered. *)
Definition nothing_dispatched (evs : list event) : Prop :=
  published evs = [] /\ ~ In (console_log_ev skip_line) evs.

(** The request [sendAlert] publishes to the topic [topicArn]. *)
Definition alert_params (w : World) (topicArn level message : string) : PublishInput :=
  {| TopicArn := topicArn;
     Subject := "SlightBuild Cost Alert - " ++ level;
     Message := message ++ nl ++ nl ++ "Timestamp: " ++ now w ++ nl
                ++ "App: " ++ JS.str_or_else (APP_NAME w) "slightbuild" |}.

(** *** Numbers *)

Definition is_zero (x : JS.Number) : bool :=
  match x with
  | S754_zero _ => true
  | _ => false
  end.

Definition is_nan (x : JS.Number) : bool :=
  match x with
  | S754_nan => true
  | _ => false
  end.

(** [x == y] on Numbers. *)
Definition eq_num (x y : JS.Number) : bool := SFeqb x y.

(** *** The optimisation table *)

(** The services with a threshold, and the advice that goes with each:
    the three cases of the [switch]. *)
Definition cost_threshold (service : string) : option JS.Number :=
  if String.eqb service "Amazon Amplify" then Some (JS.parseFloat "2.0")
  else if String.eqb service "Amazon CloudFront" then Some (JS.parseFloat "1.0")
  else if String.eqb service "Amazon Route 53" then Some (JS.parseFloat "1.0")
  else None.

Definition advice (service : string) : string * string * string :=
  if String.eqb service "Amazon Amplify" then
    ("Consider enabling performance mode and optimizing build times", "Medium", "Low")
  else if String.eqb service "Amazon CloudFront" then
    ("Review caching policies and consider image optimization", "High", "Medium")
  else
    ("Review DNS queries and consider consolidating hosted zones", "Low", "Low").

(** One group against the table: a recommendation when its service has a
    threshold and its cost is over it. *)
Definition recommended (group : Group) : list Recommendation.t :=
  match hd_error (Keys group) with
  | Some service =>
      match cost_threshold service with
      | Some threshold =>
          if JS.gt (group_cost group) threshold then
            let '(recommendation, impact, effort) := advice service in
            [{| Recommendation.service := Some service;
                Recommendation.cost := JS.toFixed (group_cost group) 2;
                Recommendation.recommendation := recommendation;
                Recommendation.impact := impact;
                Recommendation.effort := effort |}]
          else []
      | None => []
      end
  | None => []
  end.

(** *** The report *)

(** The sum of the costs written in the breakdown, and of its percentages,
    read back as Numbers. *)
Definition breakdown_sum (r : Report) : JS.Number :=
  fold_left JS.add
    (map (fun b => JS.parseFloat (Breakdown.cost b)) (serviceBreakdown r)) JS.zero.

Definition percentage_sum (r : Report) : JS.Number :=
  fold_left JS.add
    (map (fun b => JS.parseFloat (Breakdown.percentage b)) (serviceBreakdown r)) JS.zero.

(** [|a - b| <= tolerance] *)
Definition within (tolerance a b : JS.Number) : bool :=
  JS.le (JS.abs (JS.sub a b)) tolerance.

(** No account id is memoised yet. *)
Definition no_account (st : State) : Prop :=
  accountId st = None \/ accountId st = Some "".

(** [s] contains the character [c]. *)
Fixpoint has_char (c : ascii) (s : string) : bool :=
  match s with
  | EmptyString => false
  | String c' r => Ascii.eqb c c' || has_char c r
  end.

Definition slash : ascii := "/"%char.

(** The budget record the lookup finds for the account [account]: the first
    budget whose name contains the application name or [monthly-budget];
    none when there is no such budget or the request fails. *)
Definition matching_budget (w : World) (account : string) : option Budget :=
  match budgets_describeBudgets w account with
  | inr {| Budgets := Some budgets |} =>
      find (fun budget =>
              JS.includes (Config.appName (CONFIG w)) (BudgetName budget)
              || JS.includes "monthly-budget" (BudgetName budget))
           budgets
  | _ => None
  end.

(** *** JSON text

    Strings of decimal digits. *)
Fixpoint all_digits (s : string) : bool :=
  match s with
  | EmptyString => true
  | String c r => JS.is_digit c && all_digits r
  end.

(** No digit follows. *)
Definition no_digit_ahead (rest : string) : Prop :=
  match rest with
  | String c _ => JS.is_digit c = false
  | EmptyString => True
  end.

(** What may follow a number: nothing, or a character that cannot continue
    it. *)
Definition number_ends (rest : string) : Prop :=
  match rest with
  | String c _ =>
      JS.is_digit c = false /\ Ascii.eqb c "." = false
      /\ Ascii.eqb c "e" = false /\ Ascii.eqb c "E" = false
  | EmptyString => True
  end.

(** What [JSON.parse] reads for a finite Number: the Number, its zero
    without sign. *)
Definition unsigned_zero (x : JS.Number) : JS.Number :=
  match x with
  | S754_zero _ => S754_zero false
  | _ => x
  end.

(** Strings of JSON white space. *)
Fixpoint all_ws (s : string) : bool :=
  match s with
  | EmptyString => true
  | String c r => JSON.is_json_ws c && all_ws r
  end.

(** What [JSON.parse] returns for what [JSON.stringify] was given: a Number
    that is not finite is written [null], a zero loses its sign. *)
Definition norm_num (x : JS.Number) : JSON.value :=
  if JS.is_finite x then JSON.Num (unsigned_zero x) else JSON.Null.

Fixpoint norm (v : JSON.value) : JSON.value :=
  match v with
  | JSON.Num x => norm_num x
  | JSON.Arr items => JSON.Arr (map norm items)
  | JSON.Obj members => JSON.Obj (map (fun kv => (fst kv, norm (snd kv))) members)
  | _ => v
  end.

(** Every Number in the value is a binary64 number. *)
Fixpoint value_wf (v : JSON.value) : Prop :=
  match v with
  | JSON.Num x => JS.wf x
  | JSON.Arr items => fold_right (fun item P => value_wf item /\ P) True items
  | JSON.Obj members => fold_right (fun kv P => value_wf (snd kv) /\ P) True members
  | _ => True
  end.

(** The first character of a serialized value opens a value. *)
Definition opens_value (c : ascii) : Prop :=
  JSON.is_json_ws c = false /\ Ascii.eqb c "]" = false /\ Ascii.eqb c "}" = false.

(** The first character of a printed finite Number. *)
Definition is_number_start (c : ascii) : bool := JS.is_digit c || Ascii.eqb c "-".

(** One member of an object as [JSON.stringify] writes it with a gap. *)
Definition member_text (gap inner : string) (kv : string * JSON.value) : string :=
  JSON.quote (fst kv) ++ ": " ++ JSON.serialize gap inner (snd kv).

(** [v], serialized with the gap [gap] at any indent and followed by
    anything that does not continue a number, is read back. *)
Definition reads_back_at (gap : string) (v : JSON.value) : Prop :=
  value_wf v ->
  forall indent rest fuel,
    all_ws indent = true -> number_ends rest ->
    (length (JSON.serialize gap indent v) <= fuel)%nat ->
    JSON.parse_value fuel (JSON.serialize gap indent v ++ rest) = Some (norm v, rest).

(** What a reader of the report file finds under [summary]. *)
Definition parsed_summary (text : string) : option JSON.value :=
  match JSON.parse text with
  | Some v => JSON.get "summary" v
  | None => None
  end.

(** The four summary values of a parsed summary. *)
Definition summary_values (s : JSON.value)
    : option JSON.value * option JSON.value * option JSON.value * option JSON.value :=
  (JSON.get "totalCost" s, JSON.get "budgetLimit" s,
   JSON.get "budgetUsed" s, JSON.get "status" s).

(** The summary values as they were placed into the report. *)
Definition placed_values (s : Summary)
    : option JSON.value * option JSON.value * option JSON.value * option JSON.value :=
  (Some (JSON.Str (totalCost s)), Some (JSON.Num (budgetLimit s)),
   Some (JSON.Str (budgetUsed s)), Some (JSON.Str (status s))).

(** *** Runs that go the same way

    Two states agree when they hold the same account id and directories;
    two computations are related when, from states that agree, they end the
    same way, in states that agree, with results in [R]. *)
Definition agrees (st1 st2 : State) : Prop :=
  accountId st1 = accountId st2 /\ dirs st1 = dirs st2.

Definition related {A B : Type} (R : A -> B -> Prop) (m1 : M A) (m2 : M B) : Prop :=
  forall st1 st2,
    agrees st1 st2 ->
    match m1 st1, m2 st2 with
    | (Returned a, s1), (Returned b, s2) => R a b /\ agrees s1 s2
    | (Threw e1, s1), (Threw e2, s2) => e1 = e2 /\ agrees s1 s2
    | (Exited c1, s1), (Exited c2, s2) => c1 = c2 /\ agrees s1 s2
    | _, _ => False
    end.

(** The world in which the forecast request is answered by [answer]. *)
Definition with_forecast (w : World) (answer : Error + GetCostForecastResponse) : World :=
  {| AWS_REGION := AWS_REGION w;
     APP_NAME := APP_NAME w;
     COST_BUDGET_LIMIT := COST_BUDGET_LIMIT w;
     SNS_ALERT_TOPIC := SNS_ALERT_TOPIC w;
     reportsDir := reportsDir w;
     now := now w;
     costExplorer_getCostAndUsage := costExplorer_getCostAndUsage w;
     costExplorer_getCostForecast := answer;
     sts_getCallerIdentity := sts_getCallerIdentity w;
     budgets_describeBudgets := budgets_describeBudgets w;
     sns_publish := sns_publish w;
     fs_mkdirSync := fs_mkdirSync w;
     fs_writeFileSync := fs_writeFileSync w |}.

(** The report with [forecast: null]. *)
Definition without_forecast (r : Report) : Report :=
  {| timestamp := timestamp r;
     period := period r;
     summary := summary r;
     serviceBreakdown := serviceBreakdown r;
     dailyTrend := dailyTrend r;
     forecast := None |}.

(** *** When the report is produced *)

(** The requests among some events: what is asked of AWS and of the file
    system, oldest first, without the console lines. *)
Definition is_request (e : event) : bool :=
  match e with
  | console_log_ev _ | console_error_ev _ => false
  | _ => true
  end.

Definition requests (evs : list event) : list event := filter is_request evs.

(** [st'] is [st] with the same directories and files, after the requests
    [rs] and any console lines. *)
Definition after (st : State) (rs : list event) (st' : State) : Prop :=
  dirs st' = dirs st /\ files st' = files st
  /\ requests (trace st') = (requests (trace st) ++ rs)%list.

(** From any state [m] ends as [P] says, having issued the requests [rs] and
    changed nothing else of the state; [quietly]: with console lines only. *)
Definition asks {A : Type} (rs : list event) (m : M A) (P : outcome A -> Prop) : Prop :=
  forall st,
    exists o evs, m st = (o, extend st evs) /\ requests evs = rs /\ P o.

Definition quietly {A : Type} (m : M A) (P : outcome A -> Prop) : Prop := asks [] m P.

Definition returns {A : Type} (a : A) (o : outcome A) : Prop := o = Returned a.

Definition throws {A : Type} (o : outcome A) : Prop := exists e, o = Threw e.

(** The request resolves. *)
Definition resolves {A : Type} (response : Error + A) : bool :=
  match response with
  | inr _ => true
  | inl _ => false
  end.

(** [CONFIG.accountId] is set, to a non-empty id. *)
Definition memoised (st : State) : bool :=
  match accountId st with
  | Some (String _ _) => true
  | _ => false
  end.

(** [getAccountId] has an id to return, and the id it returns then. *)
Definition identity_available (w : World) (st : State) : bool :=
  memoised st || resolves (sts_getCallerIdentity w).

Definition account_of (w : World) (st : State) : string :=
  match accountId st with
  | Some (String c r) => String c r
  | _ =>
      match sts_getCallerIdentity w with
      | inr result => Account result
      | inl _ => ""
      end
  end.

(** The days of the trend: the last seven of the daily results.  A day is
    complete when it has its [TimePeriod] and its [Total]. *)
Definition trend_days (w : World) : list ResultByTime :=
  JS.slice_last 7 (daily_result w).

Definition day_complete (day : ResultByTime) : bool :=
  match TimePeriod day, Total day with
  | Some _, Some _ => true
  | _, _ => false
  end.

(** The trend entry of a complete day. *)
Definition trend_entry (day : ResultByTime) : option Trend.t :=
  match TimePeriod day, Total day with
  | Some period, Some total =>
      Some {| Trend.date := Start period;
              Trend.cost := JS.toFixed (JS.parseFloat (Amount (BlendedCost total))) 2 |}
  | _, _ => None
  end.

(** A group has a key, [group.Keys[0]]. *)
Definition group_keyed (group : Group) : bool :=
  match Keys group with
  | [] => false
  | _ :: _ => true
  end.

Definition service_named (b : Breakdown.t) : bool :=
  match Breakdown.service b with
  | Some _ => true
  | None => false
  end.

(** The directory and the file of the report. *)
Definition report_dir (w : World) : string := Config.outputDir (CONFIG w).

Definition report_path (w : World) : string :=
  path_join (report_dir w) ("cost-report-" ++ JS.substring0 7 (now w) ++ ".json").

Definition dir_exists (w : World) (st : State) : bool :=
  existsb (String.eqb (report_dir w)) (dirs st).

(** All that [generateCostReport] needs to return a report from [st]: an
    account id, complete days for the trend, a key on every group, the
    directory, and a write that succeeds. *)
Definition producible (w : World) (st : State) : bool :=
  identity_available w st
  && forallb day_complete (trend_days w)
  && forallb group_keyed (month_groups w)
  && (dir_exists w st || resolves (fs_mkdirSync w (report_dir w)))
  && resolves (fs_writeFileSync w (report_path w)).

(** The report object built in a run from [st]. *)
Definition report_from (w : World) (st : State) : Report :=
  match fst (build_report w (month_result w) (daily_result w) (forecast_result w)
               (matching_budget w (account_of w st)) (initial [])) with
  | Returned r => r
  | _ => Samples.blank
  end.

Definition report_text (w : World) (st : State) : string :=
  JSON.stringify (json_of_report (report_from w st)) 2.

(** The requests of [generateCostReport] from [st], in the order in which
    they are issued. *)
Definition report_requests (w : World) (st : State) : list event :=
  ([getCostAndUsage_ev MONTHLY; getCostAndUsage_ev DAILY; getCostForecast_ev]
   ++ (if memoised st then [] else [getCallerIdentity_ev])
   ++ (if identity_available w st then
         describeBudgets_ev (account_of w st)
         :: (if forallb day_complete (trend_days w)
                && forallb group_keyed (month_groups w)
             then
               (if dir_exists w st then [] else [mkdirSync_ev (report_dir w)])
               ++ (if dir_exists w st || resolves (fs_mkdirSync w (report_dir w))
                   then [writeFileSync_ev (report_path w) (report_text w st)]
                   else [])
             else [])
       else []))%list.

(** The end of the [try] block of [generateCostReport], lines 255-264: the
    report is saved and returned. *)
Definition save_report (w : World) (report : Report) : M Report :=
  dir_exists <- existsSync (Config.outputDir (CONFIG w)) ;;
  (if dir_exists then ret tt else mkdirSync w (Config.outputDir (CONFIG w))) ;;
  writeFileSync w (reportFile_of w report) (JSON.stringify (json_of_report report) 2) ;;
  console_log ("Report saved to: " ++ reportFile_of w report) ;;
  ret report.

(** Worlds for the edge cases: the daily results and the groups are given,
    the directory of the reports cannot be made or the file cannot be
    written. *)
Definition world_with_days (w : World) (days : list ResultByTime) : World :=
  {| AWS_REGION := AWS_REGION w;
     APP_NAME := APP_NAME w;
     COST_BUDGET_LIMIT := COST_BUDGET_LIMIT w;
     SNS_ALERT_TOPIC := SNS_ALERT_TOPIC w;
     reportsDir := reportsDir w;
     now := now w;
     costExplorer_getCostAndUsage := fun g =>
       match g with
       | DAILY => inr {| ResultsByTime := Some days |}
       | MONTHLY => costExplorer_getCostAndUsage w MONTHLY
       end;
     costExplorer_getCostForecast := costExplorer_getCostForecast w;
     sts_getCallerIdentity := sts_getCallerIdentity w;
     budgets_describeBudgets := budgets_describeBudgets w;
     sns_publish := sns_publish w;
     fs_mkdirSync := fs_mkdirSync w;
     fs_writeFileSync := fs_writeFileSync w |}.

Definition world_with_disk (w : World) (mkdir write : string -> Error + unit) : World :=
  {| AWS_REGION := AWS_REGION w;
     APP_NAME := APP_NAME w;
     COST_BUDGET_LIMIT := COST_BUDGET_LIMIT w;
     SNS_ALERT_TOPIC := SNS_ALERT_TOPIC w;
     reportsDir := reportsDir w;
     now := now w;
     costExplorer_getCostAndUsage := costExplorer_getCostAndUsage w;
     costExplorer_getCostForecast := costExplorer_getCostForecast w;
     sts_getCallerIdentity := sts_getCallerIdentity w;
     budgets_describeBudgets := budgets_describeBudgets w;
     sns_publish := sns_publish w;
     fs_mkdirSync := mkdir;
     fs_writeFileSync := write |}.

(** *** The modes of [main]

    [args.includes(flag)], and the phases [main] runs for the arguments:
    [--report] goes before [--alert], which goes before [--optimize]; with
    none of the three every phase runs. *)
Definition has_flag (flag : string) (args : list string) : bool :=
  existsb (String.eqb flag) args.

Definition runs_report (args : list string) : bool :=
  has_flag "--report" args
  || negb (has_flag "--alert" args || has_flag "--optimize" args).

Definition runs_alerts (args : list string) : bool :=
  negb (has_flag "--report" args)
  && (has_flag "--alert" args || negb (has_flag "--optimize" args)).

Definition runs_optimization (args : list string) : bool :=
  negb (has_flag "--report" args) && negb (has_flag "--alert" args).

(** The requests of [checkCostAlerts]. *)
Definition alert_requests (w : World) : list event :=
  getCostAndUsage_ev MONTHLY :: map publish_ev (published (alert_events w)).

(** None of the three flags is given. *)
Definition no_flag (args : list string) : bool :=
  negb (has_flag "--report" args || has_flag "--alert" args
        || has_flag "--optimize" args).

(* ================================================================== *)
(** * Lemmas and theorems *)
(* ================================================================== *)

(** ** Rounding to binary64

    The value [p / q] is compared with powers of two on integers. *)

Lemma pow2_split a b : 0 <= a -> 0 <= b -> 2 ^ (a + b) = 2 ^ a * 2 ^ b.
Proof. intros; apply Z.pow_add_r; lia. Qed.

(** The test at the exponent [E], scaled by [2^j]. *)
Lemma at_least_pow2_scaled p q E j :
  0 < p -> 0 < q -> 0 <= j ->
  (q * 2 ^ Z.max 0 E * 2 ^ j <= p * 2 ^ Z.max 0 (- E)) <-> at_least_pow2 p q (E + j).
Proof.
  intros Hp Hq Hj. unfold at_least_pow2.
  destruct (Z_lt_le_dec E 0) as [HE | HE].
  - rewrite (Z.max_l 0 E), (Z.max_r 0 (- E)) by lia. rewrite Z.pow_0_r, Z.mul_1_r.
    destruct (Z_lt_le_dec (E + j) 0) as [HEj | HEj].
    + rewrite (Z.max_l 0 (E + j)), (Z.max_r 0 (- (E + j))) by lia.
      rewrite Z.pow_0_r, Z.mul_1_r.
      replace (- E) with (j + - (E + j)) by lia.
      rewrite pow2_split by lia.
      assert (0 < 2 ^ j) by (apply Z.pow_pos_nonneg; lia).
      assert (0 < 2 ^ (- (E + j))) by (apply Z.pow_pos_nonneg; lia).
      split; intros; nia.
    + rewrite (Z.max_r 0 (E + j)), (Z.max_l 0 (- (E + j))) by lia.
      rewrite Z.pow_0_r, Z.mul_1_r.
      replace j with (E + j + - E) at 1 by lia.
      rewrite pow2_split by lia.
      assert (0 < 2 ^ (- E)) by (apply Z.pow_pos_nonneg; lia).
      assert (0 < 2 ^ (E + j)) by (apply Z.pow_pos_nonneg; lia).
      split; intros; nia.
  - rewrite (Z.max_r 0 E), (Z.max_l 0 (- E)) by lia.
    rewrite (Z.max_r 0 (E + j)), (Z.max_l 0 (- (E + j))) by lia.
    rewrite !Z.pow_0_r, !Z.mul_1_r, pow2_split by lia.
    split; intros; nia.
Qed.

Lemma at_least_pow2_mono p q t t' :
  0 < p -> 0 < q -> t <= t' -> at_least_pow2 p q t' -> at_least_pow2 p q t.
Proof.
  intros Hp Hq Ht H.
  replace t' with (t + (t' - t)) in H by lia.
  apply at_least_pow2_scaled in H; try lia.
  replace t with (t + 0) by lia. apply at_least_pow2_scaled; try lia.
  rewrite Z.pow_0_r, Z.mul_1_r.
  assert (1 <= 2 ^ (t' - t)).
  { change 1 with (2 ^ 0). apply Z.pow_le_mono_r; lia. }
  assert (0 < 2 ^ Z.max 0 t) by (apply Z.pow_pos_nonneg; lia).
  nia.
Qed.

(** [floor_log2_ratio p q] is the [t] with [2^t <= p/q < 2^(t+1)]. *)
Lemma floor_log2_ratio_spec p q :
  0 < p -> 0 < q ->
  at_least_pow2 p q (JS.floor_log2_ratio p q)
  /\ ~ at_least_pow2 p q (JS.floor_log2_ratio p q + 1).
Proof.
  intros Hp Hq. unfold JS.floor_log2_ratio.
  set (l := Z.log2 p - Z.log2 q).
  destruct (Z.log2_spec p Hp) as [Hp1 Hp2].
  destruct (Z.log2_spec q Hq) as [Hq1 Hq2].
  pose proof (Z.log2_nonneg p) as Hlp. pose proof (Z.log2_nonneg q) as Hlq.
  (* 2^(l-1) <= p/q < 2^(l+1) *)
  assert (Hlow : at_least_pow2 p q (l - 1)).
  { unfold at_least_pow2.
    destruct (Z_lt_le_dec (l - 1) 0) as [H | H].
    - rewrite (Z.max_l 0 (l - 1)), (Z.max_r 0 (- (l - 1))) by lia.
      rewrite Z.pow_0_r, Z.mul_1_r.
      (* q < 2^(lq+1) = 2^(lp) * 2^(-(l-1)) <= p * 2^(-(l-1)) *)
      replace (Z.succ (Z.log2 q)) with (Z.log2 p + - (l - 1)) in Hq2 by (unfold l; lia).
      rewrite pow2_split in Hq2 by lia.
      assert (0 < 2 ^ (- (l - 1))) by (apply Z.pow_pos_nonneg; lia).
      nia.
    - rewrite (Z.max_r 0 (l - 1)), (Z.max_l 0 (- (l - 1))) by lia.
      rewrite Z.pow_0_r, Z.mul_1_r.
      (* q * 2^(l-1) < 2^(lq+1) * 2^(l-1) = 2^lp <= p *)
      replace (Z.log2 p) with (Z.succ (Z.log2 q) + (l - 1)) in Hp1 by (unfold l; lia).
      rewrite pow2_split in Hp1 by lia.
      assert (0 < 2 ^ (l - 1)) by (apply Z.pow_pos_nonneg; lia).
      nia. }
  assert (Hhigh : ~ at_least_pow2 p q (l + 1)).
  { unfold at_least_pow2.
    destruct (Z_lt_le_dec (l + 1) 0) as [H | H].
    - rewrite (Z.max_l 0 (l + 1)), (Z.max_r 0 (- (l + 1))) by lia.
      rewrite Z.pow_0_r, Z.mul_1_r.
      (* p * 2^(-(l+1)) < 2^(lp+1) * 2^(-(l+1)) = 2^lq <= q *)
      replace (Z.log2 q) with (Z.succ (Z.log2 p) + - (l + 1)) in Hq1 by (unfold l; lia).
      rewrite pow2_split in Hq1 by lia.
      assert (0 < 2 ^ (- (l + 1))) by (apply Z.pow_pos_nonneg; lia).
      nia.
    - rewrite (Z.max_r 0 (l + 1)), (Z.max_l 0 (- (l + 1))) by lia.
      rewrite Z.pow_0_r, Z.mul_1_r.
      (* p < 2^(lp+1) = 2^lq * 2^(l+1) <= q * 2^(l+1) *)
      replace (Z.succ (Z.log2 p)) with (Z.log2 q + (l + 1)) in Hp2 by (unfold l; lia).
      rewrite pow2_split in Hp2 by lia.
      assert (0 < 2 ^ (l + 1)) by (apply Z.pow_pos_nonneg; lia).
      nia. }
  destruct (Z.leb_spec (q * 2 ^ Z.max 0 l) (p * 2 ^ Z.max 0 (- l))) as [H | H].
  - split; [exact H | exact Hhigh].
  - split; [exact Hlow |].
    replace (l - 1 + 1) with l by lia. unfold at_least_pow2. lia.
Qed.

Lemma floor_log2_ratio_unique p q t :
  0 < p -> 0 < q ->
  at_least_pow2 p q t -> ~ at_least_pow2 p q (t + 1) ->
  JS.floor_log2_ratio p q = t.
Proof.
  intros Hp Hq Ht Ht'.
  destruct (floor_log2_ratio_spec p q Hp Hq) as [H H'].
  destruct (Z.lt_trichotomy (JS.floor_log2_ratio p q) t) as [Hlt | [Heq | Hgt]];
    [| assumption |].
  - exfalso; apply H'. apply (at_least_pow2_mono p q _ t); auto; lia.
  - exfalso; apply Ht'. apply (at_least_pow2_mono p q _ (JS.floor_log2_ratio p q)); auto; lia.
Qed.

(** The quotient and the remainder at the exponent [E]. *)
Lemma scaled_den_pos q E : 0 < q -> 0 < q * 2 ^ Z.max 0 E.
Proof.
  intros Hq. assert (0 < 2 ^ Z.max 0 E) by (apply Z.pow_pos_nonneg; lia). nia.
Qed.

(** A value that is a binary64 number rounds to itself. *)
Lemma round_to_binary64_exact s p q m e :
  0 < p -> 0 < q -> JS.canonical m e ->
  p * 2 ^ Z.max 0 (- e) = m * (q * 2 ^ Z.max 0 e) ->
  JS.round_to_binary64 s p q = S754_finite s (Z.to_pos m) e.
Proof.
  intros Hp Hq Hcan Hval.
  pose proof (scaled_den_pos q e Hq) as Hden.
  assert (Hscaled : forall j, 0 <= j -> (2 ^ j <= m <-> at_least_pow2 p q (e + j))).
  { intros j Hj. rewrite <- at_least_pow2_scaled by lia. rewrite Hval.
    split; intros; nia. }
  destruct (floor_log2_ratio_spec p q Hp Hq) as [Ht Ht'].
  assert (HE : Z.max (JS.floor_log2_ratio p q - 52) (-1074) = e).
  { destruct Hcan as [[Hm He] | [Hm He]].
    - rewrite (floor_log2_ratio_unique p q (e + 52)); try lia.
      + apply Hscaled; lia.
      + replace (e + 52 + 1) with (e + 53) by lia.
        rewrite <- Hscaled by lia. lia.
    - assert (JS.floor_log2_ratio p q < e + 52); [| lia].
      destruct (Z_lt_le_dec (JS.floor_log2_ratio p q) (e + 52)) as [H | H]; [exact H |].
      exfalso. apply (at_least_pow2_mono p q _ _ Hp Hq H) in Ht.
      apply Hscaled in Ht; lia. }
  unfold JS.round_to_binary64. rewrite HE, Hval.
  rewrite Z.div_mul, Z.mod_mul by lia.
  replace (2 * 0 ?= q * 2 ^ Z.max 0 e) with Lt by (symmetry; apply Z.compare_lt_iff; lia).
  assert (Hm : 0 < m < 2 ^ 53) by (destruct Hcan as [[? ?] | [? ?]]; lia).
  assert (He : e <= 971) by (destruct Hcan as [[? ?] | [? ?]]; lia).
  destruct (Z.eqb_spec m (2 ^ 53)) as [-> | _]; [lia |].
  destruct (Z.ltb_spec 971 e); [lia |].
  destruct m; try lia. reflexivity.
Qed.

(** Rounding yields a binary64 number. *)
Lemma round_to_binary64_wf s p q : 0 < p -> 0 < q -> JS.wf (JS.round_to_binary64 s p q).
Proof.
  intros Hp Hq.
  destruct (floor_log2_ratio_spec p q Hp Hq) as [Ht Ht'].
  unfold JS.round_to_binary64.
  set (t := JS.floor_log2_ratio p q) in *.
  set (E := Z.max (t - 52) (-1074)).
  set (num := p * 2 ^ Z.max 0 (- E)).
  set (den := q * 2 ^ Z.max 0 E).
  assert (Hden : 0 < den) by (apply scaled_den_pos; exact Hq).
  assert (Hnum : 0 <= num).
  { unfold num. assert (0 < 2 ^ Z.max 0 (- E)) by (apply Z.pow_pos_nonneg; lia). nia. }
  assert (Hscaled : forall j, 0 <= j -> (den * 2 ^ j <= num <-> at_least_pow2 p q (E + j))).
  { intros j Hj. apply at_least_pow2_scaled; assumption. }
  assert (Hupper : num / den < 2 ^ 53).
  { apply Z.div_lt_upper_bound; [exact Hden |].
    destruct (Z_lt_le_dec num (den * 2 ^ 53)) as [H | H]; [exact H |].
    exfalso. apply Hscaled in H; [| lia].
    apply Ht'. apply (at_least_pow2_mono p q _ (E + 53)); auto. unfold E; lia. }
  assert (Hlower : 0 <= num / den) by (apply Z.div_pos; lia).
  assert (Hnormal : -1074 <= t - 52 -> 2 ^ 52 <= num / den).
  { intros H. apply Z.div_le_lower_bound; [exact Hden |].
    apply Hscaled; [lia |]. replace (E + 52) with t by (unfold E; lia). exact Ht. }
  assert (Hsub : t - 52 < -1074 -> num / den < 2 ^ 52).
  { intros H. apply Z.div_lt_upper_bound; [exact Hden |].
    destruct (Z_lt_le_dec num (den * 2 ^ 52)) as [H' | H']; [exact H' |].
    exfalso. apply Hscaled in H'; [| lia].
    apply Ht'. apply (at_least_pow2_mono p q _ (E + 52)); auto. unfold E; lia. }
  set (m := num / den) in *.
  set (m' := match 2 * (num mod den) ?= den with
             | Eq => if Z.even m then m else m + 1
             | Lt => m
             | Gt => m + 1
             end).
  assert (Hm' : m' = m \/ m' = m + 1).
  { unfold m'. destruct (2 * (num mod den) ?= den); auto. destruct (Z.even m); auto. }
  assert (HE : -1074 <= E) by (unfold E; lia).
  destruct (Z.eqb_spec m' (2 ^ 53)) as [H53 | H53].
  - destruct (Z.ltb_spec 971 (E + 1)); [exact I |].
    simpl. left. lia.
  - destruct (Z.ltb_spec 971 E); [exact I |].
    destruct m' as [| mm | mm] eqn:Emm; try exact I.
    simpl. unfold JS.canonical.
    destruct (Z_lt_le_dec (t - 52) (-1074)) as [Hs | Hn].
    + specialize (Hsub Hs).
      destruct (Z.eq_dec (Z.pos mm) (2 ^ 52)) as [H52 | H52].
      * left. unfold E in *. lia.
      * right. unfold E in *. lia.
    + specialize (Hnormal Hn). left. lia.
Qed.

Lemma of_decimal_wf s M q : JS.wf (JS.of_decimal s M q).
Proof.
  unfold JS.of_decimal. destruct M as [| M]; [exact I |].
  destruct (0 <=? q) eqn:Hq.
  - apply round_to_binary64_wf; [| lia].
    apply Z.leb_le in Hq. assert (0 < 10 ^ q) by (apply Z.pow_pos_nonneg; lia).
    simpl Z.of_N. nia.
  - apply round_to_binary64_wf; [reflexivity |].
    apply Z.leb_gt in Hq. apply Z.pow_pos_nonneg; lia.
Qed.

Lemma parseFloat_wf input : JS.wf (JS.parseFloat input).
Proof.
  unfold JS.parseFloat.
  destruct (JS.read_sign _) as [neg r0].
  destruct (JS.strip_prefix _ _); [exact I |].
  destruct (JS.span_digits r0) as [ip r1].
  destruct (match r1 with String "."%char r => JS.span_digits r | _ => ("", r1) end)
    as [fp r2].
  destruct (ip ++ fp); [exact I |].
  destruct (JS.read_exponent r2). apply of_decimal_wf.
Qed.

(** The sign of a decimal is the sign of its Number. *)
Lemma of_decimal_sign s M q m e :
  JS.of_decimal false M q = S754_finite false m e ->
  JS.of_decimal s M q = S754_finite s m e.
Proof.
  unfold JS.of_decimal, JS.round_to_binary64.
  destruct M as [| M]; [discriminate |].
  destruct (0 <=? q);
    match goal with
    | |- context [if ?c then (2 ^ 52, ?a) else (?b, ?d)] =>
        destruct (if c then (2 ^ 52, a) else (b, d)) as [m'' e']
    end;
    destruct (971 <? e'); try discriminate;
    destruct m''; try discriminate; intros [= <- <-]; reflexivity.
Qed.

Lemma of_decimal_pos s M q :
  (0 < M)%N ->
  JS.of_decimal s M q
  = if 0 <=? q then JS.round_to_binary64 s (Z.of_N M * 10 ^ q) 1
    else JS.round_to_binary64 s (Z.of_N M) (10 ^ (- q)).
Proof. destruct M; [lia | reflexivity]. Qed.

(** The exact decimal expansion of a binary64 number reads back as it. *)
Lemma exact_decimal_reads_back m e :
  JS.canonical (Zpos m) e ->
  let '(sig, ex) := JS.exact_decimal m e in
  JS.of_decimal false sig ex = S754_finite false m e.
Proof.
  intros Hcan. unfold JS.exact_decimal.
  destruct (Z.leb_spec 0 e) as [He | He].
  - assert (Hpow : 0 < 2 ^ e) by (apply Z.pow_pos_nonneg; lia).
    assert (Hsig : Z.of_N (N.pos m * 2 ^ Z.to_N e) = Z.pos m * 2 ^ e).
    { rewrite N2Z.inj_mul, N2Z.inj_pow, Z2N.id by lia. reflexivity. }
    rewrite of_decimal_pos by lia. simpl (0 <=? 0). cbv iota. rewrite Hsig.
    rewrite (round_to_binary64_exact false _ 1 (Zpos m) e); try assumption.
    + reflexivity.
    + nia.
    + lia.
    + rewrite (Z.max_l 0 (- e)), (Z.max_r 0 e) by lia.
      rewrite !Z.pow_0_r. ring.
  - assert (Hpow : 0 < 5 ^ (- e)) by (apply Z.pow_pos_nonneg; lia).
    assert (Hsig : Z.of_N (N.pos m * 5 ^ Z.to_N (- e)) = Z.pos m * 5 ^ (- e)).
    { rewrite N2Z.inj_mul, N2Z.inj_pow, Z2N.id by lia. reflexivity. }
    rewrite of_decimal_pos by lia.
    destruct (Z.leb_spec 0 e) as [He' | _]; [lia |]. rewrite Hsig.
    rewrite (round_to_binary64_exact false _ _ (Zpos m) e); try assumption.
    + reflexivity.
    + nia.
    + apply Z.pow_pos_nonneg; lia.
    + rewrite (Z.max_r 0 (- e)), (Z.max_l 0 e) by lia.
      rewrite Z.pow_0_r, Z.mul_1_r.
      change 10 with (5 * 2). rewrite Z.pow_mul_l. ring.
Qed.

Lemma number_eqb_eq x y : JS.number_eqb x y = true -> x = y.
Proof.
  destruct x as [a | a | | a m e], y as [b | b | | b m' e']; simpl; try discriminate;
    try reflexivity.
  - intros H; apply Bool.eqb_prop in H; now subst.
  - intros H; apply Bool.eqb_prop in H; now subst.
  - intros H. apply andb_true_iff in H as [H He]. apply andb_true_iff in H as [Hs Hm].
    apply Bool.eqb_prop in Hs. apply Pos.eqb_eq in Hm. apply Z.eqb_eq in He. now subst.
Qed.

Lemma number_eqb_refl x : JS.number_eqb x x = true.
Proof.
  destruct x as [a | a | | a m e]; simpl; try reflexivity.
  - apply eqb_reflx.
  - apply eqb_reflx.
  - now rewrite eqb_reflx, Pos.eqb_refl, Z.eqb_refl.
Qed.

Lemma shortest_from_reads_back d x sig ex :
  JS.reads_back x (sig, ex) = true ->
  JS.reads_back x (JS.shortest_from d x sig ex) = true.
Proof.
  intros Hexact. induction d as [| d IH]; simpl.
  - destruct (find _ _) as [c |] eqn:Hfind; [| exact Hexact].
    now apply find_some in Hfind.
  - destruct (find _ _) as [c |] eqn:Hfind; [| exact IH].
    now apply find_some in Hfind.
Qed.

(** The digits [Number::toString] chooses read back as the number, and are
    not zero. *)
Lemma shortest_reads_back m e :
  JS.canonical (Zpos m) e ->
  let '(d, q) := JS.shortest m e in
  JS.of_decimal false d q = S754_finite false m e /\ (0 < d)%N.
Proof.
  intros Hcan. unfold JS.shortest.
  pose proof (exact_decimal_reads_back m e Hcan) as Hexact.
  destruct (JS.exact_decimal m e) as [sig ex].
  assert (H : JS.reads_back (S754_finite false m e)
                (JS.shortest_from (length (JS.digits_of_N sig) - 1)
                   (S754_finite false m e) sig ex) = true).
  { apply shortest_from_reads_back. unfold JS.reads_back; simpl.
    rewrite Hexact. apply number_eqb_refl. }
  destruct (JS.shortest_from _ _ sig ex) as [d q].
  unfold JS.reads_back in H; simpl in H. apply number_eqb_eq in H.
  split; [exact H |].
  destruct d; [discriminate | reflexivity].
Qed.

(** ** Running computations *)

Lemma extend_nil st : extend st [] = st.
Proof. destruct st; unfold extend; simpl; now rewrite List.app_nil_r. Qed.

Lemma extend_extend st a b : extend (extend st a) b = extend st (a ++ b)%list.
Proof. unfold extend; simpl; now rewrite List.app_assoc. Qed.

Lemma trace_extend st evs : trace (extend st evs) = (trace st ++ evs)%list.
Proof. reflexivity. Qed.

Lemma bind_returned {A B} (m : M A) (k : A -> M B) st a st1 :
  m st = (Returned a, st1) -> bind m k st = k a st1.
Proof. unfold bind; now intros ->. Qed.

Lemma bind_threw {A B} (m : M A) (k : A -> M B) st e st1 :
  m st = (Threw e, st1) -> bind m k st = (Threw e, st1).
Proof. unfold bind; now intros ->. Qed.

Lemma bind_returned_inv {A B} (m : M A) (k : A -> M B) st b st' :
  bind m k st = (Returned b, st') ->
  exists a st1, m st = (Returned a, st1) /\ k a st1 = (Returned b, st').
Proof.
  unfold bind; destruct (m st) as [[a | e | c] st1]; intros H; try discriminate.
  now exists a, st1.
Qed.

(** Closes an equation between two runs once both are states extended by
    event lists. *)
Ltac same_trace :=
  cbn [fst snd trace extend initial app];
  rewrite ?extend_extend;
  rewrite <- ?List.app_assoc;
  cbn [app];
  reflexivity.

Lemma emit_run e st : emit e st = (Returned tt, extend st [e]).
Proof. reflexivity. Qed.

Lemma console_log_run line st :
  console_log line st = (Returned tt, extend st [console_log_ev line]).
Proof. reflexivity. Qed.

Lemma console_error_run line st :
  console_error line st = (Returned tt, extend st [console_error_ev line]).
Proof. reflexivity. Qed.

(** A [catch] block that ends the process never returns. *)
Lemma try_exit_returned_inv {A} (m : M A) (line : Error -> string) st a st' :
  try_catch m (fun error => console_error (line error) ;; process_exit 1) st
  = (Returned a, st') ->
  m st = (Returned a, st').
Proof.
  unfold try_catch; destruct (m st) as [[a0 | e | c] st1]; intros H;
    try assumption; discriminate.
Qed.

(** ** The fetches

    Each of the three Cost Explorer fetches returns whatever the world
    answers: its value and its events do not depend on the state. *)

Lemma getCurrentMonthCosts_run w st :
  getCurrentMonthCosts w st = (Returned (month_result w), extend st (month_events w)).
Proof.
  unfold month_result, month_events, getCurrentMonthCosts, try_catch, bind, await,
    defined, emit, console_error, ret, throw.
  destruct (costExplorer_getCostAndUsage w MONTHLY) as [e | [[results |]]]; simpl;
    rewrite ?extend_extend; reflexivity.
Qed.

Lemma getDailyCosts_run w st :
  getDailyCosts w st = (Returned (daily_result w), extend st (daily_events w)).
Proof.
  unfold daily_result, daily_events, getDailyCosts, try_catch, bind, await,
    emit, console_error, ret, throw.
  destruct (costExplorer_getCostAndUsage w DAILY) as [e | [[results |]]]; simpl;
    rewrite ?extend_extend; reflexivity.
Qed.

Lemma getCostForecast_run w st :
  getCostForecast w st = (Returned (forecast_result w), extend st (forecast_events w)).
Proof.
  unfold forecast_result, forecast_events, getCostForecast, try_catch, bind, await,
    emit, console_error, ret, throw.
  destruct (costExplorer_getCostForecast w) as [e | r]; simpl;
    rewrite ?extend_extend; reflexivity.
Qed.

Lemma total_of_sum groups :
  total_of groups = fold_left JS.add (map group_cost groups) JS.zero.
Proof.
  unfold total_of. generalize JS.zero.
  induction groups as [| g gs IH]; intros acc; simpl; [reflexivity | apply IH].
Qed.

(** ** The report *)

Lemma mapM_returned_inv {A B} (f : A -> M B) xs st ys st' :
  mapM f xs st = (Returned ys, st') -> List.length ys = List.length xs.
Proof.
  revert st ys st'; induction xs as [| x xs IH]; intros st ys st' H; simpl in H.
  - now inversion H.
  - apply bind_returned_inv in H as (y & st1 & _ & H).
    apply bind_returned_inv in H as (ys' & st2 & Hys & H).
    inversion H; subst; simpl; f_equal; eauto.
Qed.

(** What [build_report] puts into the report it returns. *)
Lemma build_report_returned_inv w currentCosts dailyCosts fc budget st r st' :
  build_report w currentCosts dailyCosts fc budget st = (Returned r, st') ->
  let total := total_of (Groups currentCosts) in
  let limit := Config.budgetLimit (CONFIG w) in
  summary r =
    {| totalCost := JS.toFixed total 2;
       budgetLimit := limit;
       budgetUsed :=
         match budget with
         | Some _ => JS.toFixed (JS.mul (JS.div total limit) lit_100) 1
         | None => "N/A"
         end;
       status :=
         if JS.gt total (JS.mul limit (Config.alertThreshold (CONFIG w)))
         then "WARNING" else "OK" |}
  /\ serviceBreakdown r = map (breakdown_of total) (Groups currentCosts)
  /\ forecast r = forecast_of fc
  /\ timestamp r = now w
  /\ period r = JS.substring0 7 (now w).
Proof.
  unfold build_report; intros H.
  apply bind_returned_inv in H as (trend & st1 & _ & H).
  inversion H; subst; simpl; repeat split; reflexivity.
Qed.

(** A run of [generateCostReport] that returns a report has fetched the
    budget and built the report from the fetched data. *)
Lemma generateCostReport_returned_inv w st r st' :
  generateCostReport w st = (Returned r, st') ->
  exists budget st0 st1 st2,
    getBudgetInfo w st0 = (Returned budget, st1)
    /\ build_report w (month_result w) (daily_result w) (forecast_result w)
         budget st1 = (Returned r, st2).
Proof.
  unfold generateCostReport; intros H.
  rewrite (bind_returned _ _ _ _ _ (console_log_run _ _)) in H.
  apply (try_exit_returned_inv _
           (fun error => "Error generating cost report: " ++ message error)) in H.
  rewrite (bind_returned _ _ _ _ _ (getCurrentMonthCosts_run _ _)) in H.
  rewrite (bind_returned _ _ _ _ _ (getDailyCosts_run _ _)) in H.
  rewrite (bind_returned _ _ _ _ _ (getCostForecast_run _ _)) in H.
  apply bind_returned_inv in H as (budget & st1 & Hbudget & H).
  apply bind_returned_inv in H as (report & st2 & Hreport & H).
  apply bind_returned_inv in H as (? & st3 & _ & H).
  apply bind_returned_inv in H as (? & st4 & _ & H).
  apply bind_returned_inv in H as (? & st5 & _ & H).
  apply bind_returned_inv in H as (? & st6 & _ & H).
  apply bind_returned_inv in H as (? & st7 & _ & H).
  inversion H; subst.
  eauto 8.
Qed.

(** The status of a returned report, line 206. *)
Lemma report_status w st r st' :
  generateCostReport w st = (Returned r, st') ->
  status (summary r)
  = if JS.gt (month_total w)
             (JS.mul (Config.budgetLimit (CONFIG w)) (Config.alertThreshold (CONFIG w)))
    then "WARNING" else "OK".
Proof.
  intros H.
  apply generateCostReport_returned_inv in H as (budget & st0 & st1 & st2 & _ & H).
  apply build_report_returned_inv in H as (Hsummary & _).
  rewrite Hsummary; simpl.
  unfold month_total, month_groups; now rewrite <- total_of_sum.
Qed.

(** C1.  For every report [generateCostReport] returns, the status is
    WARNING exactly when the total of the per-service costs of the current
    month is greater than the budget limit times the alert threshold, and OK
    otherwise; the threshold is the Number 0.8. *)
Theorem status_is_warning_iff_total_exceeds_threshold :
  forall w st r st',
    generateCostReport w st = (Returned r, st') ->
    let exceeded :=
      JS.gt (month_total w)
            (JS.mul (Config.budgetLimit (CONFIG w)) (Config.alertThreshold (CONFIG w))) in
    Config.alertThreshold (CONFIG w) = JS.parseFloat "0.8"
    /\ (status (summary r) = "WARNING" <-> exceeded = true)
    /\ (status (summary r) = "OK" <-> exceeded = false).
Proof.
  intros w st r st' H exceeded.
  split; [reflexivity |].
  rewrite (report_status _ _ _ _ H). fold exceeded.
  destruct exceeded; split; split; intros; congruence.
Qed.

Lemma status_is_warning_iff_total_exceeds_threshold_witness :
  let w := Samples.world None Samples.topic
             [Samples.group "Amazon Amplify" "6.25"; Samples.group "Amazon S3" "2.5"]
             [Samples.budget "slightbuild-monthly-budget"] in
  status (summary (Samples.the_report w)) = "WARNING"
  /\ JS.toFixed (month_total w) 2 = "8.75".
Proof.
  intros w.
  assert (H : generateCostReport w (initial [])
              = (Returned (Samples.the_report w),
                 snd (generateCostReport w (initial []))))
    by (vm_compute; reflexivity).
  split.
  - apply (proj1 (proj2 (status_is_warning_iff_total_exceeds_threshold _ _ _ _ H))).
    vm_compute; reflexivity.
  - vm_compute; reflexivity.
Defined.

(** ** Alerts *)

(** [sendAlert] always returns; its events do not depend on the state. *)
Lemma sendAlert_run w level message st :
  sendAlert w level message st
  = (Returned tt, extend st (sendAlert_events w level message)).
Proof.
  unfold sendAlert_events, sendAlert.
  destruct (SNS_ALERT_TOPIC w) as [[| c r] |]; try reflexivity.
  unfold try_catch, await, console_log, console_error, bind, emit, ret, throw.
  destruct (sns_publish w _) as [e | []]; same_trace.
Qed.

(** [checkCostAlerts] always returns. *)
Lemma checkCostAlerts_run w st :
  checkCostAlerts w st = (Returned tt, extend st (alert_events w)).
Proof.
  unfold alert_events, checkCostAlerts.
  rewrite !(bind_returned _ _ _ _ _ (console_log_run _ _)).
  unfold try_catch at 1 2.
  rewrite !(bind_returned _ _ _ _ _ (getCurrentMonthCosts_run _ _)).
  rewrite !(bind_returned _ _ _ _ _ (console_log_run _ _)).
  destruct (JS.ge _ lit_100).
  - rewrite !(bind_returned _ _ _ _ _ (console_log_run _ _)), !sendAlert_run.
    same_trace.
  - destruct (JS.ge _ _).
    + rewrite !(bind_returned _ _ _ _ _ (console_log_run _ _)), !sendAlert_run.
      same_trace.
    + rewrite !console_log_run.
      same_trace.
Qed.

(** The events of [checkCostAlerts], branch by branch. *)
Lemma alert_events_cases w :
  alert_events w =
  (console_log_ev ("Checking Cost Alerts..." ++ nl)
   :: month_events w
   ++ [console_log_ev ("Current cost: $" ++ JS.toFixed (total_of (month_groups w)) 2);
       console_log_ev ("Budget limit: $"
                       ++ JS.Number_toString (Config.budgetLimit (CONFIG w)));
       console_log_ev ("Percentage used: " ++ JS.toFixed (percent_used w) 1 ++ "%")]
   ++ (if JS.ge (percent_used w) lit_100 then
         console_log_ev critical_line
         :: sendAlert_events w "CRITICAL" (critical_message w)
       else if JS.ge (percent_used w)
                     (JS.mul (Config.alertThreshold (CONFIG w)) lit_100) then
         console_log_ev warning_line
         :: sendAlert_events w "WARNING" (warning_message w)
       else [console_log_ev ok_line]))%list.
Proof.
  unfold alert_events, checkCostAlerts, critical_message, warning_message,
    percent_used, month_total, month_groups.
  rewrite <- total_of_sum.
  rewrite !(bind_returned _ _ _ _ _ (console_log_run _ _)).
  unfold try_catch at 1.
  rewrite !(bind_returned _ _ _ _ _ (getCurrentMonthCosts_run _ _)).
  rewrite !(bind_returned _ _ _ _ _ (console_log_run _ _)).
  destruct (JS.ge _ lit_100).
  - rewrite !(bind_returned _ _ _ _ _ (console_log_run _ _)), !sendAlert_run.
    same_trace.
  - destruct (JS.ge _ _).
    + rewrite !(bind_returned _ _ _ _ _ (console_log_run _ _)), !sendAlert_run.
      same_trace.
    + rewrite !console_log_run. same_trace.
Qed.

Lemma published_app a b : published (a ++ b)%list = (published a ++ published b)%list.
Proof. apply flat_map_app. Qed.

(** The fetch of the month's costs publishes nothing and logs no line with
    [console.log]. *)
Lemma month_events_cases w :
  exists line, month_events w = [getCostAndUsage_ev MONTHLY]
               \/ month_events w = [getCostAndUsage_ev MONTHLY; console_error_ev line].
Proof.
  unfold month_events, getCurrentMonthCosts, try_catch, await, defined,
    console_error, bind, emit, ret, throw.
  destruct (costExplorer_getCostAndUsage w MONTHLY) as [e | [[results |]]];
    cbn [fst snd trace extend initial app].
  - eexists; right; reflexivity.
  - exists ""; left; reflexivity.
  - eexists; right; reflexivity.
Qed.

(** The two ways [sendAlert] can go. *)
Lemma sendAlert_events_cases w level message :
  match SNS_ALERT_TOPIC w with
  | Some (String c r) =>
      exists body last,
        sendAlert_events w level message
        = [publish_ev {| TopicArn := String c r;
                         Subject := "SlightBuild Cost Alert - " ++ level;
                         Message := body |};
           last]
        /\ (last = console_log_ev "Alert notification sent"
            \/ exists e, last = console_error_ev ("Error sending alert: " ++ Aws.message e))
  | _ => sendAlert_events w level message = [console_log_ev skip_line]
  end.
Proof.
  unfold sendAlert_events, sendAlert.
  destruct (SNS_ALERT_TOPIC w) as [[| c r] |]; try reflexivity.
  unfold try_catch, await, console_log, console_error, bind, emit, ret, throw.
  destruct (sns_publish w _) as [e | []]; cbn [fst snd trace extend initial app];
    do 2 eexists; split; try reflexivity; eauto.
Qed.

(** ** Comparisons of Numbers *)

Lemma SFcompare_swap x y c :
  SFcompare x y = Some c -> SFcompare y x = Some (CompOpp c).
Proof.
  destruct x as [sx | sx | | sx mx ex], y as [sy | sy | | sy my ey]; simpl;
    try discriminate; intros [= <-];
    try (destruct sx; reflexivity); try (destruct sy; reflexivity);
    try (destruct sx, sy; reflexivity).
  pose proof (Pos.compare_cont_antisym mx my Eq) as Hm; simpl in Hm.
  destruct sx, sy; try reflexivity; f_equal;
    rewrite (Z.compare_antisym ex ey); destruct (ex ?= ey); simpl; try reflexivity;
    rewrite <- Hm; destruct (Pos.compare_cont Eq mx my); reflexivity.
Qed.

Lemma SFcompare_total x y :
  x <> S754_nan -> y <> S754_nan -> exists c, SFcompare x y = Some c.
Proof.
  destruct x, y; simpl; intros Hx Hy; try congruence; eauto.
Qed.

(** [p >= h] fails for a number [p] exactly when [p < h]: it is a number
    as soon as some [p >= t] holds. *)
Lemma not_ge_is_lt p h t :
  h <> S754_nan -> JS.ge p t = true -> JS.ge p h = false -> JS.lt p h = true.
Proof.
  unfold JS.ge, JS.lt, SFleb, SFltb; intros Hh Ht Hge.
  assert (Hp : p <> S754_nan).
  { intros ->. destruct t; simpl in Ht; discriminate. }
  destruct (SFcompare_total h p Hh Hp) as [c Hc].
  rewrite Hc in Hge. rewrite (SFcompare_swap _ _ _ Hc).
  destruct c; try discriminate; reflexivity.
Qed.

Lemma lit_100_value : lit_100 = S754_finite false 7036874417766400 (-46).
Proof. vm_compute; reflexivity. Qed.

(** ** C2: the alert check *)

Lemma published_month_events w : published (month_events w) = [].
Proof.
  destruct (month_events_cases w) as [line [-> | ->]]; reflexivity.
Qed.

Lemma month_events_no_log w line : ~ In (console_log_ev line) (month_events w).
Proof.
  destruct (month_events_cases w) as [l [-> | ->]]; simpl; intuition discriminate.
Qed.

Lemma dispatched_sendAlert w level message :
  dispatched w level (sendAlert_events w level message).
Proof.
  unfold dispatched. pose proof (sendAlert_events_cases w level message) as H.
  destruct (SNS_ALERT_TOPIC w) as [[| c r] |].
  - rewrite H; simpl; auto.
  - destruct H as (body & last & -> & [-> | [e ->]]); reflexivity.
  - rewrite H; simpl; auto.
Qed.

(** A dispatch at the end of the events of [checkCostAlerts]. *)
Lemma dispatched_after_logs w level first lines line tail :
  dispatched w level tail ->
  dispatched w level
    (console_log_ev first :: month_events w
     ++ map console_log_ev lines ++ console_log_ev line :: tail)%list.
Proof.
  assert (Hlogs : forall ls, published (map console_log_ev ls) = []).
  { induction ls; simpl; auto. }
  unfold dispatched; intros H.
  change (published (console_log_ev first :: ?l)) with (published l).
  rewrite !published_app, published_month_events, Hlogs.
  change (published (console_log_ev line :: tail)) with (published tail).
  destruct (SNS_ALERT_TOPIC w) as [[| c r] |]; simpl; try assumption.
  - destruct H as [-> H]; split; [reflexivity |].
    right; apply in_or_app; right; apply in_or_app; right; right; exact H.
  - destruct H as [-> H]; split; [reflexivity |].
    right; apply in_or_app; right; apply in_or_app; right; right; exact H.
Qed.

(** What [checkCostAlerts] does in each class of the percentage used. *)
Lemma alert_events_by_class w :
  match classify (Config.alertThreshold (CONFIG w)) (percent_used w) with
  | CRITICAL =>
      In (console_log_ev critical_line) (alert_events w)
      /\ dispatched w "CRITICAL" (alert_events w)
  | WARNING =>
      In (console_log_ev warning_line) (alert_events w)
      /\ dispatched w "WARNING" (alert_events w)
  | OK =>
      In (console_log_ev ok_line) (alert_events w)
      /\ nothing_dispatched (alert_events w)
  end.
Proof.
  unfold classify; rewrite alert_events_cases.
  set (a := console_log_ev
              ("Current cost: $" ++ JS.toFixed (total_of (month_groups w)) 2)).
  set (b := "Budget limit: $" ++ JS.Number_toString (Config.budgetLimit (CONFIG w))).
  set (c := "Percentage used: " ++ JS.toFixed (percent_used w) 1 ++ "%").
  destruct (JS.ge (percent_used w) lit_100) eqn:Hcritical.
  - split.
    + right; apply in_or_app; right; apply in_or_app; right; left; reflexivity.
    + apply (dispatched_after_logs w "CRITICAL" _ [_; b; c]).
      apply dispatched_sendAlert.
  - destruct (JS.ge (percent_used w)
                     (JS.mul (Config.alertThreshold (CONFIG w)) lit_100)) eqn:Hwarning.
    + assert (Hnan : lit_100 <> S754_nan) by (rewrite lit_100_value; discriminate).
      rewrite (not_ge_is_lt _ _ _ Hnan Hwarning Hcritical).
      split.
      * right; apply in_or_app; right; apply in_or_app; right; left; reflexivity.
      * apply (dispatched_after_logs w "WARNING" _ [_; b; c]).
        apply dispatched_sendAlert.
    + split; [| split].
      * right; apply in_or_app; right; apply in_or_app; right; left; reflexivity.
      * change (published (console_log_ev ?x :: ?l)) with (published l).
        rewrite !published_app, published_month_events; reflexivity.
      * intros [H | H]; [discriminate |].
        apply in_app_or in H as [H | H]; [exact (month_events_no_log _ _ H) |].
        apply in_app_or in H as [H | H]; simpl in H;
          unfold a, b, c in H; intuition discriminate.
Qed.

(** C2.  [checkCostAlerts] computes the percentage used as the total cost
    divided by the configured budget limit times 100 and acts on its class:
    CRITICAL and WARNING log their line and dispatch a notification of that
    level, OK logs its line and dispatches nothing.  A total of 12.0 against
    a limit of 10.0 is CRITICAL, 8.5 is WARNING, 5.0 is OK. *)
Theorem checkCostAlerts_classifies_percentage_used :
  (forall w st,
     checkCostAlerts w st = (Returned tt, extend st (alert_events w))
     /\ percent_used w
        = JS.mul (JS.div (month_total w) (Config.budgetLimit (CONFIG w)))
                 (JS.parseFloat "100")
     /\ match classify (Config.alertThreshold (CONFIG w)) (percent_used w) with
        | CRITICAL =>
            In (console_log_ev critical_line) (alert_events w)
            /\ dispatched w "CRITICAL" (alert_events w)
        | WARNING =>
            In (console_log_ev warning_line) (alert_events w)
            /\ dispatched w "WARNING" (alert_events w)
        | OK =>
            In (console_log_ev ok_line) (alert_events w)
            /\ nothing_dispatched (alert_events w)
        end)
  /\ (let w := Samples.world (Some "10.0") Samples.topic
                 [Samples.group "Amazon Amplify" "12.0"] [] in
      month_total w = JS.parseFloat "12.0"
      /\ Config.budgetLimit (CONFIG w) = JS.parseFloat "10.0"
      /\ classify (Config.alertThreshold (CONFIG w)) (percent_used w) = CRITICAL
      /\ map Subject (published (alert_events w)) = ["SlightBuild Cost Alert - CRITICAL"])
  /\ (let w := Samples.world (Some "10.0") Samples.topic
                 [Samples.group "Amazon Amplify" "8.5"] [] in
      month_total w = JS.parseFloat "8.5"
      /\ Config.budgetLimit (CONFIG w) = JS.parseFloat "10.0"
      /\ Config.alertThreshold (CONFIG w) = JS.parseFloat "0.8"
      /\ classify (Config.alertThreshold (CONFIG w)) (percent_used w) = WARNING
      /\ map Subject (published (alert_events w)) = ["SlightBuild Cost Alert - WARNING"])
  /\ (let w := Samples.world (Some "10.0") Samples.topic
                 [Samples.group "Amazon Amplify" "5.0"] [] in
      month_total w = JS.parseFloat "5.0"
      /\ Config.budgetLimit (CONFIG w) = JS.parseFloat "10.0"
      /\ classify (Config.alertThreshold (CONFIG w)) (percent_used w) = OK
      /\ published (alert_events w) = []).
Proof.
  split; [| repeat split; vm_compute; reflexivity].
  intros w st.
  split; [apply checkCostAlerts_run |].
  split; [reflexivity | apply alert_events_by_class].
Qed.

(** ** C6: [sendAlert] *)

(** C6.  With no topic configured (the variable unset or empty) [sendAlert]
    returns without a publish request: it only logs that it skips, and
    leaves the rest of the state as it was.  With a topic configured it
    issues one request; when that request is rejected the error is logged
    and [sendAlert] still returns. *)
Theorem sendAlert_never_raises :
  forall w level message st,
    match SNS_ALERT_TOPIC w with
    | Some (String c r) =>
        let params := alert_params w (String c r) level message in
        match sns_publish w params with
        | inl error =>
            sendAlert w level message st
            = (Returned tt,
               extend st [publish_ev params;
                          console_error_ev ("Error sending alert: " ++ Aws.message error)])
        | inr _ =>
            sendAlert w level message st
            = (Returned tt,
               extend st [publish_ev params; console_log_ev "Alert notification sent"])
        end
    | _ =>
        sendAlert w level message st
        = (Returned tt, extend st [console_log_ev skip_line])
        /\ published (sendAlert_events w level message) = []
    end.
Proof.
  intros w level message st. unfold sendAlert_events, sendAlert.
  destruct (SNS_ALERT_TOPIC w) as [[| c r] |]; try (split; reflexivity).
  unfold alert_params; cbv zeta.
  unfold try_catch, await, console_log, console_error, bind, emit, ret, throw.
  change (Config.appName (CONFIG w)) with (JS.str_or_else (APP_NAME w) "slightbuild").
  destruct (sns_publish w _) as [e | []]; same_trace.
Qed.

(** ** C10: the budget limit of the environment *)

(** C10.  When [COST_BUDGET_LIMIT] is a string that [parseFloat] maps to
    zero or to NaN, ["0"] among them, the configured budget limit is the
    default 10.0; the configured limit is never zero. *)
Theorem zero_budget_limit_falls_back_to_default :
  forall w,
    (forall s, COST_BUDGET_LIMIT w = Some s ->
               is_zero (JS.parseFloat s) || is_nan (JS.parseFloat s) = true ->
               Config.budgetLimit (CONFIG w) = JS.parseFloat "10.0")
    /\ (COST_BUDGET_LIMIT w = Some "0" ->
        Config.budgetLimit (CONFIG w) = JS.parseFloat "10.0")
    /\ is_zero (JS.parseFloat "0") = true
    /\ is_zero (Config.budgetLimit (CONFIG w)) = false.
Proof.
  intros w. unfold CONFIG; cbn [Config.budgetLimit].
  assert (Hdefault : lit_10_0 = JS.parseFloat "10.0") by (vm_compute; reflexivity).
  assert (Hfallback : forall s, COST_BUDGET_LIMIT w = Some s ->
            is_zero (JS.parseFloat s) || is_nan (JS.parseFloat s) = true ->
            JS.or_else (JS.parseFloat_env (COST_BUDGET_LIMIT w)) lit_10_0
            = JS.parseFloat "10.0").
  { intros s -> H. unfold JS.or_else, JS.parseFloat_env.
    destruct (JS.parseFloat s); simpl in *; try discriminate; exact Hdefault. }
  split; [exact Hfallback |].
  split; [intros H; apply (Hfallback "0" H); vm_compute; reflexivity |].
  split; [vm_compute; reflexivity |].
  unfold JS.or_else.
  destruct (JS.parseFloat_env (COST_BUDGET_LIMIT w)); simpl; try reflexivity;
    vm_compute; reflexivity.
Qed.

(** With [COST_BUDGET_LIMIT=0] the limit is the default, as it is with the
    variable unset. *)
Lemma zero_budget_limit_falls_back_to_default_witness :
  let w := Samples.world (Some "0") None [] [] in
  Config.budgetLimit (CONFIG w) = JS.parseFloat "10.0".
Proof.
  intros w.
  exact (proj1 (proj2 (zero_budget_limit_falls_back_to_default w)) eq_refl).
Defined.

(** ** C9: the two paths at the threshold *)




(** ** C4: the optimisation report *)

Lemma recommend_recommended group : recommend group = recommended group.
Proof.
  unfold recommend, recommended, cost_threshold, advice.
  destruct (hd_error (Keys group)) as [name |]; [| reflexivity].
  change (JS.parseFloat "2.0") with lit_2_0.
  change (JS.parseFloat "1.0") with lit_1_0.
  destruct (String.eqb name "Amazon Amplify"); [reflexivity |].
  destruct (String.eqb name "Amazon CloudFront"); [reflexivity |].
  destruct (String.eqb name "Amazon Route 53"); reflexivity.
Qed.

Lemma recommendations_of_flat_map groups :
  recommendations_of groups = flat_map recommend groups.
Proof.
  unfold recommendations_of.
  enough (H : forall acc, fold_left (fun recs g => (recs ++ recommend g)%list) groups acc
                          = (acc ++ flat_map recommend groups)%list) by apply (H []).
  induction groups as [| g gs IH]; intros acc; simpl.
  - now rewrite List.app_nil_r.
  - now rewrite IH, List.app_assoc.
Qed.

Lemma forEach_indexed_print_returns recs : forall index st,
  exists st', forEach_indexed index recs print_recommendation st = (Returned tt, st').
Proof.
  induction recs as [| rec rest IH]; intros index st; simpl.
  - eexists; reflexivity.
  - unfold print_recommendation at 1.
    unfold bind at 1 2. unfold ret at 1.
    rewrite !(bind_returned _ _ _ _ _ (console_log_run _ _)).
    rewrite console_log_run. apply IH.
Qed.

(** [generateOptimizationReport] always returns, with the recommendations
    for the groups of the month. *)
Lemma generateOptimizationReport_returns w st :
  exists st',
    generateOptimizationReport w st
    = (Returned (recommendations_of (month_groups w)), st').
Proof.
  unfold generateOptimizationReport.
  rewrite (bind_returned _ _ _ _ _ (console_log_run _ _)).
  unfold try_catch.
  rewrite (bind_returned _ _ _ _ _ (getCurrentMonthCosts_run _ _)).
  rewrite !(bind_returned _ _ _ _ _ (console_log_run _ _)).
  fold (month_groups w).
  assert (Hprint : forall st0, exists st1,
            match recommendations_of (month_groups w) with
            | [] => console_log "No specific recommendations - costs are optimized"
            | _ :: _ =>
                forEach_indexed 0 (recommendations_of (month_groups w))
                  print_recommendation
            end st0 = (Returned tt, st1)).
  { intros st0. destruct (recommendations_of (month_groups w)) eqn:E.
    - eexists; apply console_log_run.
    - apply forEach_indexed_print_returns. }
  destruct (Hprint (extend
                      (extend
                         (extend (extend st [console_log_ev
                            ("Generating Cost Optimization Recommendations..." ++ nl)])
                            (month_events w))
                         [console_log_ev "OPTIMIZATION RECOMMENDATIONS"])
                      [console_log_ev "================================"]))
    as [st1 H1].
  rewrite (bind_returned _ _ _ _ _ H1).
  rewrite !(bind_returned _ _ _ _ _ (console_log_run _ _)).
  eexists; reflexivity.
Qed.

(** C4, as the claim states it, fails: Amazon S3 is a tracked service, and a
    group for it yields no recommendation however large its cost, for the
    [switch] has no case for it. *)
Lemma tracked_service_without_threshold :
  In "Amazon S3" (Config.services (CONFIG (Samples.world None None [] [])))
  /\ JS.toFixed (group_cost (Samples.group "Amazon S3" "1000000")) 2 = "1000000.00"
  /\ recommendations_of [Samples.group "Amazon S3" "1000000"] = []
  /\ (forall amount, recommendations_of [Samples.group "Amazon S3" amount] = []).
Proof.
  split; [vm_compute; tauto |].
  split; [vm_compute; reflexivity |].
  split; [vm_compute; reflexivity |].
  intros amount. rewrite recommendations_of_flat_map; reflexivity.
Qed.

(** C4, amended.  Three services have a cost threshold: Amazon Amplify 2.0,
    Amazon CloudFront 1.0 and Amazon Route 53 1.0.  The recommendations
    [generateOptimizationReport] computes are, group by group in the order of
    the breakdown, one recommendation for each group whose service has a
    threshold and whose cost is over it, with the advice of that service, and
    none for any other group: the other tracked services have no threshold.
    For Amplify at 3.5 and Route 53 at 0.3 there is exactly one, for
    Amplify. *)
Theorem recommendations_follow_three_thresholds :
  (forall w st,
     exists st',
       generateOptimizationReport w st
       = (Returned (flat_map recommended (month_groups w)), st'))
  /\ (forall group, (List.length (recommended group) <= 1)%nat)
  /\ (forall service,
        cost_threshold service <> None <->
        In service ["Amazon Amplify"; "Amazon CloudFront"; "Amazon Route 53"])
  /\ cost_threshold "Amazon Amplify" = Some (JS.parseFloat "2.0")
  /\ cost_threshold "Amazon CloudFront" = Some (JS.parseFloat "1.0")
  /\ cost_threshold "Amazon Route 53" = Some (JS.parseFloat "1.0")
  /\ (let groups := [Samples.group "Amazon Amplify" "3.5";
                     Samples.group "Amazon Route 53" "0.3"] in
      let w := Samples.world None None groups [] in
      month_groups w = groups
      /\ map Recommendation.service (flat_map recommended (month_groups w))
         = [Some "Amazon Amplify"]
      /\ recommended (Samples.group "Amazon Route 53" "0.3") = []).
Proof.
  split; [| split; [| split; [| repeat split; vm_compute; reflexivity]]].
  - intros w st.
    destruct (generateOptimizationReport_returns w st) as [st' H].
    exists st'. rewrite H, recommendations_of_flat_map.
    do 2 f_equal. apply flat_map_ext; intros g; apply recommend_recommended.
  - intros group. unfold recommended.
    destruct (hd_error (Keys group)) as [service |]; simpl; [| lia].
    destruct (cost_threshold service); simpl; [| lia].
    destruct (JS.gt _ _); [destruct (advice service) as [[? ?] ?] |]; simpl; lia.
  - intros service. unfold cost_threshold.
    destruct (String.eqb_spec service "Amazon Amplify") as [-> | H1];
      [split; [simpl; tauto | discriminate] |].
    destruct (String.eqb_spec service "Amazon CloudFront") as [-> | H2];
      [split; [simpl; tauto | discriminate] |].
    destruct (String.eqb_spec service "Amazon Route 53") as [-> | H3];
      [split; [simpl; tauto | discriminate] |].
    split; [congruence |].
    simpl; intros [H | [H | [H | []]]]; congruence.
Qed.

(** ** C3: totals and percentages in the report *)

(** C3, as the claim states it, fails.  Three services at 0.004 each give a
    report whose total reads 0.01 while every cost in the breakdown reads
    0.00: the costs of the breakdown add up to 0, which is not within 1e-6 of
    the total.  And a breakdown whose amounts are all zero has percentages
    that are not numbers. *)
Lemma rendered_costs_do_not_add_up :
  (let w := Samples.world None None
              [Samples.group "Amazon Amplify" "0.004";
               Samples.group "Amazon CloudFront" "0.004";
               Samples.group "Amazon S3" "0.004"] [] in
   let r := Samples.the_report w in
   Samples.report_of w = Some r
   /\ totalCost (summary r) = "0.01"
   /\ map Breakdown.cost (serviceBreakdown r) = ["0.00"; "0.00"; "0.00"]
   /\ within (JS.parseFloat "1e-6") (JS.parseFloat (totalCost (summary r)))
             (breakdown_sum r) = false)
  /\ (let w := Samples.world None None
                 [Samples.group "Amazon Route 53" "0";
                  Samples.group "Amazon S3" "0"] [] in
      let r := Samples.the_report w in
      Samples.report_of w = Some r
      /\ map Breakdown.percentage (serviceBreakdown r) = ["NaN"; "NaN"]
      /\ within (JS.parseFloat "1") (percentage_sum r) (JS.parseFloat "100") = false).
Proof.
  repeat split; vm_compute; reflexivity.
Qed.

(** C3, amended.  In every report the total is the sum of the per-service
    amounts, added from 0 in the order of the breakdown, written with two
    decimals, and each cost of the breakdown is its own amount written with
    two decimals.  When the total is neither zero nor NaN, each percentage is
    the amount divided by the total times 100, written with one decimal. *)
Theorem report_costs_are_rendered_amounts :
  forall w st r st',
    generateCostReport w st = (Returned r, st') ->
    totalCost (summary r) = JS.toFixed (month_total w) 2
    /\ map Breakdown.cost (serviceBreakdown r)
       = map (fun g => JS.toFixed (group_cost g) 2) (month_groups w)
    /\ (JS.truthy (month_total w) = true ->
        map Breakdown.percentage (serviceBreakdown r)
        = map (fun g =>
                 JS.toFixed
                   (JS.mul (JS.div (group_cost g) (month_total w)) (JS.parseFloat "100")) 1)
              (month_groups w)).
Proof.
  intros w st r st' H.
  apply generateCostReport_returned_inv in H as (budget & st0 & st1 & st2 & _ & H).
  apply build_report_returned_inv in H as (Hsummary & Hbreakdown & _).
  rewrite Hsummary, Hbreakdown, map_map. cbn [totalCost].
  unfold month_total, month_groups. rewrite <- total_of_sum.
  split; [reflexivity |].
  split; [reflexivity |].
  intros _. rewrite map_map. reflexivity.
Qed.

Lemma report_costs_are_rendered_amounts_witness :
  let w := Samples.world None None
             [Samples.group "Amazon Amplify" "3.5";
              Samples.group "Amazon Route 53" "0.3"]
             [Samples.budget "slightbuild-monthly-budget"] in
  let r := Samples.the_report w in
  totalCost (summary r) = "3.80"
  /\ map Breakdown.cost (serviceBreakdown r) = ["3.50"; "0.30"]
  /\ map Breakdown.percentage (serviceBreakdown r) = ["92.1"; "7.9"].
Proof.
  intros w r.
  assert (H : generateCostReport w (initial [])
              = (Returned r, snd (generateCostReport w (initial []))))
    by (vm_compute; reflexivity).
  destruct (report_costs_are_rendered_amounts w _ _ _ H) as (Htotal & Hcosts & Hpercent).
  split; [rewrite Htotal; vm_compute; reflexivity |].
  split; [rewrite Hcosts; vm_compute; reflexivity |].
  rewrite Hpercent; vm_compute; reflexivity.
Defined.

(** ** C5: failures of the fetches *)

Lemma no_account_extend st evs : no_account st -> no_account (extend st evs).
Proof. exact (fun H => H). Qed.

(** A rejected identity request is thrown by [getBudgetInfo]: the request is
    awaited before the [try] block. *)
Lemma getBudgetInfo_throws w st error :
  no_account st ->
  sts_getCallerIdentity w = inl error ->
  getBudgetInfo w st = (Threw error, extend st [getCallerIdentity_ev]).
Proof.
  intros Hst Hsts. unfold getBudgetInfo, getAccountId, bind at 1.
  destruct Hst as [-> | ->]; rewrite Hsts; reflexivity.
Qed.

(** C5 at the failing input.  When the identity request is rejected, and no
    account id is memoised, [generateCostReport] does not return a report: it
    logs the error and ends the process with code 1, and writes no file,
    whatever the other requests answer. *)
Theorem identity_failure_aborts_report :
  forall w st error,
    no_account st ->
    sts_getCallerIdentity w = inl error ->
    exists st',
      generateCostReport w st = (Exited 1, st')
      /\ files st' = files st
      /\ In (console_error_ev ("Error generating cost report: " ++ message error))
            (trace st').
Proof.
  intros w st error Hst Hsts.
  eexists. split.
  - unfold generateCostReport.
    rewrite (bind_returned _ _ _ _ _ (console_log_run _ _)).
    unfold try_catch.
    rewrite (bind_returned _ _ _ _ _ (getCurrentMonthCosts_run _ _)).
    rewrite (bind_returned _ _ _ _ _ (getDailyCosts_run _ _)).
    rewrite (bind_returned _ _ _ _ _ (getCostForecast_run _ _)).
    erewrite bind_threw
      by (apply getBudgetInfo_throws;
          [repeat apply no_account_extend; exact Hst | exact Hsts]).
    rewrite (bind_returned _ _ _ _ _ (console_error_run _ _)).
    unfold process_exit. reflexivity.
  - split; [reflexivity |].
    rewrite !trace_extend. apply in_or_app; right; left; reflexivity.
Qed.

Lemma identity_failure_aborts_report_witness :
  let w :=
    {| AWS_REGION := None; APP_NAME := None; COST_BUDGET_LIMIT := None;
       SNS_ALERT_TOPIC := None;
       reportsDir := "/site/reports";
       now := "2024-05-17T09:30:00.000Z";
       costExplorer_getCostAndUsage :=
         costExplorer_getCostAndUsage
           (Samples.world None None [Samples.group "Amazon Amplify" "3.5"] []);
       costExplorer_getCostForecast :=
         inr {| ForecastResultsByTime := [{| MeanValue := "9.256" |}] |};
       sts_getCallerIdentity := inl {| message := "ExpiredToken" |};
       budgets_describeBudgets := fun _ => inr {| Budgets := Some [] |};
       sns_publish := fun _ => inr tt;
       fs_mkdirSync := fun _ => inr tt;
       fs_writeFileSync := fun _ => inr tt |} in
  fst (generateCostReport w (initial [])) = Exited 1
  /\ files (snd (generateCostReport w (initial []))) = [].
Proof.
  intros w.
  destruct (identity_failure_aborts_report w (initial []) {| message := "ExpiredToken" |}
              (or_introl eq_refl) eq_refl) as (st' & Hrun & Hfiles & _).
  rewrite Hrun. split; [reflexivity | exact Hfiles].
Defined.

(** ** The characters of a printed Number *)

Lemma has_char_app c a b : has_char c (a ++ b) = has_char c a || has_char c b.
Proof.
  induction a as [| c' a IH]; simpl; [reflexivity |].
  now rewrite IH, orb_assoc.
Qed.

Lemma has_char_take c n s : has_char c s = false -> has_char c (JS.take n s) = false.
Proof.
  revert s; induction n as [| n IH]; intros [| c' s]; simpl; auto.
  intros H; apply orb_false_iff in H as [-> H]; simpl; auto.
Qed.

Lemma has_char_drop c n s : has_char c s = false -> has_char c (JS.drop n s) = false.
Proof.
  revert s; induction n as [| n IH]; intros [| c' s]; simpl; auto.
  intros H; apply orb_false_iff in H as [_ H]; auto.
Qed.

Lemma no_slash_repeat c n : c <> slash -> has_char slash (JS.repeat_char c n) = false.
Proof.
  intros Hc; induction n as [| n IH]; cbn [JS.repeat_char has_char]; [reflexivity |].
  rewrite IH, orb_false_r. apply Ascii.eqb_neq; congruence.
Qed.

Lemma no_slash_uint d : has_char slash (NilEmpty.string_of_uint d) = false.
Proof. induction d; simpl; auto. Qed.

Lemma no_slash_digits n : has_char slash (JS.digits_of_N n) = false.
Proof. apply no_slash_uint. Qed.

Lemma no_slash_sign (s : bool) : has_char slash (if s then "-" else "") = false.
Proof. destruct s; reflexivity. Qed.

Lemma has_char_cons c c' s :
  has_char c (String c' s) = Ascii.eqb c c' || has_char c s.
Proof. reflexivity. Qed.

Lemma no_slash_exponent ex :
  has_char slash ((if ex <? 0 then "-" else "+")
                  ++ JS.digits_of_N (Z.to_N (Z.abs ex))) = false.
Proof.
  rewrite has_char_app, no_slash_digits, orb_false_r. now destruct (ex <? 0).
Qed.

Lemma no_slash_layout d q : has_char slash (JS.layout d q) = false.
Proof.
  unfold JS.layout; cbv zeta.
  pose proof (no_slash_digits d) as Hd.
  destruct (_ && _).
  { rewrite has_char_app, Hd. apply no_slash_repeat; discriminate. }
  destruct (_ && _).
  { rewrite !has_char_app, has_char_take, has_char_drop by assumption. reflexivity. }
  destruct (_ && _).
  { rewrite !has_char_app, Hd, orb_false_r.
    rewrite (no_slash_repeat "0"%char) by discriminate. reflexivity. }
  destruct (JS.digits_of_N d) as [| c [| c' r]]; [reflexivity | |];
    rewrite has_char_cons in Hd; apply orb_false_iff in Hd as [Hc Hd].
  - rewrite has_char_cons, Hc, has_char_app, no_slash_exponent. reflexivity.
  - rewrite has_char_cons, Hc, !has_char_app, Hd, no_slash_digits.
    now destruct (_ <? 0).
Qed.

Lemma no_slash_Number_toString x : has_char slash (JS.Number_toString x) = false.
Proof.
  destruct x as [s | s | | s m e]; simpl; try reflexivity.
  - now destruct s.
  - destruct (JS.shortest m e) as [d q].
    rewrite has_char_app, no_slash_sign, no_slash_layout; reflexivity.
Qed.

Lemma no_slash_fixed_digits n f : has_char slash (JS.fixed_digits n f) = false.
Proof.
  unfold JS.fixed_digits. destruct f as [| f]; [apply no_slash_digits |].
  set (m' := if (_ <=? _)%nat then _ else _).
  assert (Hm : has_char slash m' = false).
  { unfold m'. destruct (_ <=? _)%nat; [| apply no_slash_digits].
    rewrite has_char_app, no_slash_digits, orb_false_r.
    apply no_slash_repeat; discriminate. }
  rewrite !has_char_app, has_char_take, has_char_drop by assumption. reflexivity.
Qed.

(** No Number prints with a slash in it. *)
Lemma no_slash_toFixed x f : has_char slash (JS.toFixed x f) = false.
Proof.
  destruct x as [s | s | | s m e]; unfold JS.toFixed.
  - apply no_slash_fixed_digits.
  - apply no_slash_Number_toString.
  - apply no_slash_Number_toString.
  - destruct (_ && _); [apply no_slash_Number_toString |].
    rewrite has_char_app, no_slash_sign, no_slash_fixed_digits; reflexivity.
Qed.

Lemma toFixed_is_not_NA x f : JS.toFixed x f <> "N/A".
Proof.
  intros H. pose proof (no_slash_toFixed x f) as Hs. rewrite H in Hs. discriminate.
Qed.

(** ** C7: the budget used *)

Lemma getBudgetInfo_returned_inv w st budget st' :
  getBudgetInfo w st = (Returned budget, st') ->
  exists account, budget = matching_budget w account.
Proof.
  unfold getBudgetInfo; intros H.
  apply bind_returned_inv in H as (account & st1 & _ & H).
  exists account. unfold matching_budget.
  unfold try_catch, await, defined, console_error, bind, emit, ret, throw in H.
  destruct (budgets_describeBudgets w account) as [e | [[budgets |]]];
    cbn in H; now inversion H.
Qed.

(** With a budget record found, [budgetUsed] is not the quotient itself but
    the string that writes it with one decimal: for a total of 3.456 against
    the limit 10 the quotient times 100 is 34.56 and [budgetUsed] is
    ["34.6"], which reads back as another Number. *)
Lemma budgetUsed_is_rounded_to_one_decimal :
  let w := Samples.world (Some "10") None [Samples.group "Amazon Amplify" "3.456"]
             [Samples.budget "slightbuild-monthly-budget"] in
  let r := Samples.the_report w in
  Samples.report_of w = Some r
  /\ matching_budget w "123456789012" = Some (Samples.budget "slightbuild-monthly-budget")
  /\ percent_used w = JS.parseFloat "34.56"
  /\ budgetUsed (summary r) = "34.6"
  /\ eq_num (JS.parseFloat (budgetUsed (summary r))) (percent_used w) = false.
Proof. repeat split; vm_compute; reflexivity. Qed.

(** C7, amended.  In every report [budgetUsed] is ["N/A"] exactly when the
    budget lookup found no matching record.  Otherwise it is the string that
    writes, with one decimal ([toFixed(1)]), the total cost divided by the
    configured budget limit times 100: the limit is the one of the
    configuration, which comes from the environment, and nothing of the
    record found enters the value. *)
Theorem budgetUsed_is_NA_iff_no_budget_record :
  forall w st r st',
    generateCostReport w st = (Returned r, st') ->
    exists account,
      (budgetUsed (summary r) = "N/A" <-> matching_budget w account = None)
      /\ (forall record,
            matching_budget w account = Some record ->
            budgetUsed (summary r)
            = JS.toFixed
                (JS.mul (JS.div (month_total w) (Config.budgetLimit (CONFIG w)))
                        (JS.parseFloat "100")) 1)
      /\ Config.budgetLimit (CONFIG w)
         = JS.or_else (JS.parseFloat_env (COST_BUDGET_LIMIT w)) (JS.parseFloat "10.0").
Proof.
  intros w st r st' H.
  apply generateCostReport_returned_inv in H as (budget & st0 & st1 & st2 & Hb & H).
  apply build_report_returned_inv in H as (Hsummary & _).
  apply getBudgetInfo_returned_inv in Hb as [account ->].
  exists account. rewrite Hsummary; cbn [budgetUsed].
  unfold month_total, month_groups; rewrite <- total_of_sum.
  split; [| split; [| reflexivity]].
  - destruct (matching_budget w account); split; intros H; try congruence.
    now apply toFixed_is_not_NA in H.
  - intros record ->. reflexivity.
Qed.

Lemma budgetUsed_is_NA_iff_no_budget_record_witness :
  (let w := Samples.world None None [Samples.group "Amazon Amplify" "3.5"]
              [Samples.budget "slightbuild-monthly-budget"] in
   budgetUsed (summary (Samples.the_report w)) = "35.0")
  /\ (let w := Samples.world None None [Samples.group "Amazon Amplify" "3.5"]
                 [Samples.budget "another-budget"] in
      budgetUsed (summary (Samples.the_report w)) = "N/A").
Proof.
  split; intros w.
  - assert (H : generateCostReport w (initial [])
                = (Returned (Samples.the_report w),
                   snd (generateCostReport w (initial []))))
      by (vm_compute; reflexivity).
    destruct (budgetUsed_is_NA_iff_no_budget_record w _ _ _ H) as (account & _ & Hused & _).
    assert (Hfound : matching_budget w account
                     = Some (Samples.budget "slightbuild-monthly-budget"))
      by reflexivity.
    rewrite (Hused _ Hfound). vm_compute; reflexivity.
  - assert (H : generateCostReport w (initial [])
                = (Returned (Samples.the_report w),
                   snd (generateCostReport w (initial []))))
      by (vm_compute; reflexivity).
    destruct (budgetUsed_is_NA_iff_no_budget_record w _ _ _ H) as (account & Hna & _).
    apply Hna. reflexivity.
Defined.

(* ================================================================== *)
(** * The report file *)
(* ================================================================== *)

(** ** Strings of digits *)

Lemma append_assoc (a b c : string) : (a ++ b) ++ c = a ++ (b ++ c).
Proof. induction a as [| x a IH]; simpl; [reflexivity | now rewrite IH]. Qed.

Lemma append_nil_r (a : string) : a ++ "" = a.
Proof. induction a as [| x a IH]; simpl; [reflexivity | now rewrite IH]. Qed.

Lemma length_append (a b : string) : length (a ++ b) = (length a + length b)%nat.
Proof. induction a as [| x a IH]; simpl; [reflexivity | now rewrite IH]. Qed.

Lemma all_digits_app a b : all_digits (a ++ b) = all_digits a && all_digits b.
Proof.
  induction a as [| c a IH]; cbn [append all_digits]; [reflexivity |].
  now rewrite IH, andb_assoc.
Qed.

Lemma all_digits_uint d : all_digits (NilEmpty.string_of_uint d) = true.
Proof. induction d; simpl; auto. Qed.

Lemma all_digits_of_N n : all_digits (JS.digits_of_N n) = true.
Proof. apply all_digits_uint. Qed.

Lemma all_digits_zeros n : all_digits (JS.zeros n) = true.
Proof. induction n; simpl; auto. Qed.

Lemma all_digits_take n s : all_digits s = true -> all_digits (JS.take n s) = true.
Proof.
  revert s; induction n as [| n IH]; intros [| c s]; cbn [JS.take all_digits]; auto.
  intros H; apply andb_true_iff in H as [-> H]; simpl; auto.
Qed.

Lemma all_digits_drop n s : all_digits s = true -> all_digits (JS.drop n s) = true.
Proof.
  revert s; induction n as [| n IH]; intros [| c s]; cbn [JS.drop all_digits]; auto.
  intros H; apply andb_true_iff in H as [_ H]; auto.
Qed.

Lemma take_drop n s : JS.take n s ++ JS.drop n s = s.
Proof.
  revert s; induction n as [| n IH]; intros [| c s]; simpl; auto. now rewrite IH.
Qed.

Lemma length_drop n s : length (JS.drop n s) = (length s - n)%nat.
Proof. revert s; induction n as [| n IH]; intros [| c s]; simpl; auto. Qed.

Lemma length_zeros n : length (JS.zeros n) = n.
Proof. induction n; simpl; auto. Qed.

Lemma span_digits_app a rest :
  all_digits a = true -> no_digit_ahead rest -> JS.span_digits (a ++ rest) = (a, rest).
Proof.
  intros Ha Hrest. induction a as [| c a IH]; cbn [JS.span_digits append].
  - destruct rest as [| c r]; [reflexivity |].
    cbn [JS.span_digits no_digit_ahead] in *. now rewrite Hrest.
  - cbn [all_digits] in Ha. apply andb_true_iff in Ha as [-> Ha]. now rewrite IH.
Qed.

(** Reading digits *)

Lemma digits_onto_app acc a b :
  JS.digits_onto acc (a ++ b) = JS.digits_onto (JS.digits_onto acc a) b.
Proof. revert acc; induction a as [| c a IH]; intros acc; simpl; auto. Qed.

Lemma digits_onto_zeros acc n :
  JS.digits_onto acc (JS.zeros n) = (acc * 10 ^ N.of_nat n)%N.
Proof.
  revert acc; induction n as [| n IH]; intros acc.
  - simpl. lia.
  - change (JS.zeros (S n)) with (String "0" (JS.zeros n)).
    cbn [JS.digits_onto]. rewrite IH.
    change (JS.digit_value "0") with 0%N.
    rewrite Nat2N.inj_succ, N.pow_succ_r'. lia.
Qed.

Lemma digits_onto_uint_acc d acc :
  JS.digits_onto (N.pos acc) (NilEmpty.string_of_uint d) = N.pos (Pos.of_uint_acc d acc).
Proof.
  revert acc; induction d; intros acc;
    cbn [NilEmpty.string_of_uint JS.digits_onto Pos.of_uint_acc];
    try reflexivity;
    rewrite <- IHd; f_equal; unfold JS.digit_value; cbn [nat_of_ascii];
    vm_compute (N.of_nat _); lia.
Qed.

Lemma digits_onto_uint d :
  JS.digits_onto 0 (NilEmpty.string_of_uint d) = Pos.of_uint d.
Proof.
  induction d; cbn [NilEmpty.string_of_uint JS.digits_onto Pos.of_uint];
    try reflexivity; try exact IHd;
    rewrite <- digits_onto_uint_acc; f_equal.
Qed.

Lemma N_of_digits_of_N n : JS.N_of_digits (JS.digits_of_N n) = n.
Proof.
  unfold JS.N_of_digits, JS.digits_of_N. rewrite digits_onto_uint.
  apply DecimalN.Unsigned.of_to.
Qed.

Lemma N_of_digits_leading_zeros n s :
  JS.N_of_digits (JS.zeros n ++ s) = JS.N_of_digits s.
Proof.
  unfold JS.N_of_digits. rewrite digits_onto_app, digits_onto_zeros. reflexivity.
Qed.

(** The decimal digits of a positive number start with a digit that is not
    zero. *)
Lemma nzhead_head d :
  match nzhead d with
  | D0 _ => False
  | _ => True
  end.
Proof. induction d; simpl; auto. Qed.

Lemma digits_of_N_head n :
  (0 < n)%N ->
  exists c r, JS.digits_of_N n = String c r
              /\ JS.is_digit c = true /\ Ascii.eqb c "0" = false.
Proof.
  intros Hn. destruct n as [| p]; [lia |].
  unfold JS.digits_of_N, N.to_uint.
  assert (Hnorm : Pos.to_uint p = unorm (Pos.to_uint p)).
  { pose proof (DecimalPos.Unsigned.to_of (Pos.to_uint p)) as H.
    rewrite DecimalPos.Unsigned.of_to in H. exact H. }
  pose proof (DecimalPos.Unsigned.to_uint_nonzero p) as Hnz.
  pose proof (nzhead_head (Pos.to_uint p)) as Hhead.
  rewrite Hnorm. unfold unorm in *.
  destruct (nzhead (Pos.to_uint p)) eqn:E; try contradiction;
    try (rewrite Hnorm in Hnz; unfold unorm in Hnz; rewrite E in Hnz; congruence);
    simpl; eauto.
Qed.

Lemma digits_of_N_nonempty n : JS.digits_of_N n <> "".
Proof.
  destruct n as [| p]; [discriminate |].
  destruct (digits_of_N_head (N.pos p)) as (c & r & -> & _); [lia | discriminate].
Qed.

(** ** Reading back a printed Number *)

Lemma number_ends_no_digit rest : number_ends rest -> no_digit_ahead rest.
Proof. destruct rest; simpl; tauto. Qed.

Lemma read_fraction_none rest :
  number_ends rest -> JSON.read_fraction rest = Some ("", rest).
Proof.
  destruct rest as [| c r]; [reflexivity |].
  intros (_ & Hdot & _). unfold JSON.read_fraction. now rewrite Hdot.
Qed.

Lemma read_exponent_none rest :
  number_ends rest -> JSON.read_exponent rest = Some (0, rest).
Proof.
  destruct rest as [| c r]; [reflexivity |].
  intros (_ & _ & He & HE). unfold JSON.read_exponent. now rewrite He, HE.
Qed.

Lemma read_fraction_digits fp rest :
  all_digits fp = true -> fp <> "" -> no_digit_ahead rest ->
  JSON.read_fraction ("." ++ fp ++ rest) = Some (fp, rest).
Proof.
  intros Hfp Hne Hrest. change ("." ++ fp ++ rest) with (String "." (fp ++ rest)).
  unfold JSON.read_fraction. rewrite Ascii.eqb_refl, span_digits_app by assumption.
  destruct fp; [contradiction | reflexivity].
Qed.

Lemma read_exponent_digits ex rest :
  no_digit_ahead rest ->
  JSON.read_exponent
    ("e" ++ ((if ex <? 0 then "-" else "+") ++ JS.digits_of_N (Z.to_N (Z.abs ex))) ++ rest)
  = Some (ex, rest).
Proof.
  intros Hrest. rewrite append_assoc.
  change ("e" ++ ?s) with (String "e" s).
  unfold JSON.read_exponent. rewrite Ascii.eqb_refl. cbn [orb].
  destruct (Z.ltb_spec ex 0) as [Hneg | Hpos].
  - change (JS.read_sign ("-" ++ ?s)) with (true, s). cbv beta iota.
    rewrite span_digits_app by (auto using all_digits_of_N).
    pose proof (digits_of_N_nonempty (Z.to_N (Z.abs ex))) as Hne.
    destruct (JS.digits_of_N (Z.to_N (Z.abs ex))) eqn:E; [contradiction |].
    rewrite <- E, N_of_digits_of_N. do 2 f_equal. lia.
  - change (JS.read_sign ("+" ++ ?s)) with (false, s). cbv beta iota.
    rewrite span_digits_app by (auto using all_digits_of_N).
    pose proof (digits_of_N_nonempty (Z.to_N (Z.abs ex))) as Hne.
    destruct (JS.digits_of_N (Z.to_N (Z.abs ex))) eqn:E; [contradiction |].
    rewrite <- E, N_of_digits_of_N. do 2 f_equal. lia.
Qed.

Lemma of_decimal_shift neg d j :
  (0 < d)%N ->
  JS.of_decimal neg (d * 10 ^ N.of_nat j) 0 = JS.of_decimal neg d (Z.of_nat j).
Proof.
  intros Hd.
  assert (0 < 10 ^ N.of_nat j)%N by (apply N.neq_0_lt_0, N.pow_nonzero; discriminate).
  rewrite !of_decimal_pos by nia.
  destruct (Z.leb_spec 0 (Z.of_nat j)); [| lia]. simpl (0 <=? 0). cbv iota.
  rewrite N2Z.inj_mul, N2Z.inj_pow, nat_N_Z, Z.pow_0_r, Z.mul_1_r. reflexivity.
Qed.

Lemma valid_int_digit c r : Ascii.eqb c "0" = false -> JSON.valid_int (String c r) = true.
Proof. intros H; unfold JSON.valid_int; now rewrite H. Qed.

Lemma valid_int_single c : JSON.valid_int (String c "") = true.
Proof. unfold JSON.valid_int. now rewrite orb_true_r. Qed.

(** The digits [d] at the exponent [q], laid out as [Number::toString] does,
    read back as the decimal [d * 10^q]. *)
Lemma parse_unsigned_layout neg d q rest :
  (0 < d)%N -> number_ends rest ->
  JSON.parse_unsigned neg (JS.layout d q ++ rest) = Some (JS.of_decimal neg d q, rest).
Proof.
  intros Hd Hrest.
  destruct (digits_of_N_head d Hd) as (c & r0 & Hds & Hc & Hc0).
  pose proof (all_digits_of_N d) as Hall.
  pose proof (N_of_digits_of_N d) as Hval.
  pose proof (number_ends_no_digit rest Hrest) as Hnd.
  unfold JS.layout; cbv zeta.
  set (ds := JS.digits_of_N d) in *.
  set (k := Z.of_nat (length ds)).
  assert (Hk : 1 <= k) by (unfold k; rewrite Hds; simpl length; lia).
  assert (Hvalid : forall z, JSON.valid_int (ds ++ z) = true).
  { intros z. rewrite Hds. cbn [append]. now apply valid_int_digit. }
  unfold JSON.parse_unsigned.
  destruct ((k <=? k + q) && (k + q <=? 21)) eqn:Ha.
  { (* digits followed by zeros *)
    apply andb_true_iff in Ha as [Ha _]. apply Z.leb_le in Ha.
    rewrite span_digits_app; auto.
    2:{ rewrite all_digits_app, Hall, all_digits_zeros; reflexivity. }
    rewrite Hvalid.
    rewrite read_fraction_none, read_exponent_none by assumption.
    rewrite append_nil_r. cbn [length Z.of_nat]. rewrite Z.sub_0_r.
    unfold JS.N_of_digits. rewrite digits_onto_app, digits_onto_zeros.
    fold (JS.N_of_digits ds). rewrite Hval, of_decimal_shift by assumption.
    do 3 f_equal. lia. }
  assert (Hlen : Z.of_nat (length ds) = k) by reflexivity.
  destruct ((0 <? k + q) && (k + q <=? 21)) eqn:Hb.
  { (* a point inside the digits *)
    apply andb_true_iff in Hb as [Hb Hb']. apply Z.ltb_lt in Hb.
    rewrite Hb', andb_true_r in Ha. apply Z.leb_gt in Ha.
    set (i := Z.to_nat (k + q)).
    assert (Hi : (1 <= i < length ds)%nat) by (unfold i; lia).
    rewrite !append_assoc.
    rewrite span_digits_app; auto using all_digits_take.
    2:{ reflexivity. }
    assert (Htake : JSON.valid_int (JS.take i ds) = true).
    { rewrite Hds. destruct i as [| i']; [lia |]. cbn [JS.take].
      now apply valid_int_digit. }
    rewrite Htake.
    rewrite read_fraction_digits; auto using all_digits_drop.
    2:{ intros H. apply (f_equal length) in H. rewrite length_drop in H.
        simpl in H. lia. }
    rewrite read_exponent_none by assumption.
    rewrite take_drop, Hval, length_drop.
    do 3 f_equal. lia. }
  destruct ((-6 <? k + q) && (k + q <=? 0)) eqn:Hc'.
  { (* zeros after the point *)
    apply andb_true_iff in Hc' as [_ Hc']. apply Z.leb_le in Hc'.
    set (j := Z.to_nat (- (k + q))).
    change (("0." ++ JS.zeros j ++ ds) ++ rest)
      with ("0" ++ "." ++ (JS.zeros j ++ ds) ++ rest).
    rewrite span_digits_app; [| reflexivity | reflexivity].
    rewrite valid_int_single.
    rewrite read_fraction_digits; auto.
    2:{ rewrite all_digits_app, all_digits_zeros, Hall; reflexivity. }
    2:{ intros H. apply (f_equal length) in H.
        rewrite length_append, length_zeros in H. simpl in H. lia. }
    rewrite read_exponent_none by assumption.
    change ("0" ++ JS.zeros j ++ ds) with (JS.zeros (S j) ++ ds).
    rewrite N_of_digits_leading_zeros, Hval, length_append, length_zeros.
    do 3 f_equal. lia. }
  (* exponent notation *)
  set (ex := k + q - 1).
  set (exs := (if ex <? 0 then "-" else "+") ++ JS.digits_of_N (Z.to_N (Z.abs ex))).
  assert (Hvalue : JS.N_of_digits (String c r0) = d) by (rewrite <- Hds; exact Hval).
  assert (Hr0 : all_digits r0 = true).
  { rewrite Hds in Hall. cbn [all_digits] in Hall.
    now apply andb_true_iff in Hall as [_ Hall]. }
  assert (Hk' : k = Z.of_nat (S (length r0))) by (unfold k; now rewrite Hds).
  rewrite Hds.
  destruct r0 as [| c1 r1].
  - change (String c ("e" ++ exs) ++ rest) with (String c "" ++ ("e" ++ exs ++ rest)).
    rewrite span_digits_app; [| cbn [all_digits]; now rewrite Hc | reflexivity].
    rewrite valid_int_single.
    change (JSON.read_fraction ("e" ++ exs ++ rest)) with (Some ("", "e" ++ exs ++ rest)).
    cbv beta iota.
    unfold exs. rewrite read_exponent_digits by assumption.
    rewrite append_nil_r, Hvalue.
    do 3 f_equal. simpl in Hk'. cbn [length Z.of_nat]. lia.
  - set (r0 := String c1 r1) in *.
    replace (String c ("." ++ r0 ++ "e" ++ exs) ++ rest)
      with (String c "" ++ ("." ++ r0 ++ ("e" ++ exs ++ rest)))
      by (cbn [append]; now rewrite !append_assoc).
    rewrite span_digits_app; [| cbn [all_digits]; now rewrite Hc | reflexivity].
    rewrite valid_int_single.
    rewrite read_fraction_digits; [| assumption | discriminate | reflexivity].
    unfold exs. rewrite read_exponent_digits by assumption.
    change (String c "" ++ r0) with (String c r0). rewrite Hvalue.
    do 3 f_equal. lia.
Qed.

(** A printed Number starts with a digit, or with a minus sign. *)
Lemma layout_head d q :
  (0 < d)%N -> exists c r, JS.layout d q = String c r /\ JS.is_digit c = true.
Proof.
  intros Hd.
  destruct (digits_of_N_head d Hd) as (c & r0 & Hds & Hc & _).
  unfold JS.layout; cbv zeta. rewrite Hds.
  set (k := Z.of_nat (length (String c r0))).
  assert (Hk : 1 <= k) by (unfold k; simpl length; lia).
  destruct ((k <=? k + q) && (k + q <=? 21)).
  { cbn [append]. exists c; eexists; split; [reflexivity | exact Hc]. }
  destruct ((0 <? k + q) && (k + q <=? 21)) eqn:Hb.
  { apply andb_true_iff in Hb as [Hb _]. apply Z.ltb_lt in Hb.
    destruct (Z.to_nat (k + q)) as [| i] eqn:Ei; [lia |].
    cbn [JS.take append]. exists c; eexists; split; [reflexivity | exact Hc]. }
  destruct ((-6 <? k + q) && (k + q <=? 0)).
  { exists "0"%char; eexists; split; reflexivity. }
  destruct r0; exists c; eexists; split; try reflexivity; exact Hc.
Qed.

Lemma is_digit_not_minus c : JS.is_digit c = true -> Ascii.eqb c "-" = false.
Proof.
  destruct c as [[] [] [] [] [] [] [] []]; simpl; intros H; try discriminate; reflexivity.
Qed.

(** A finite Number printed by [Number::toString] reads back as itself. *)
Lemma parse_number_toString x rest :
  JS.wf x -> JS.is_finite x = true -> number_ends rest ->
  JSON.parse_number (JS.Number_toString x ++ rest) = Some (unsigned_zero x, rest).
Proof.
  intros Hwf Hfin Hrest. destruct x as [s | s | | s m e]; try discriminate.
  - cbn [JS.Number_toString unsigned_zero append JSON.parse_number].
    change (Ascii.eqb "0" "-") with false. cbv iota.
    unfold JSON.parse_unsigned.
    change (String "0" rest) with ("0" ++ rest).
    rewrite span_digits_app; [| reflexivity | now apply number_ends_no_digit].
    rewrite valid_int_single, read_fraction_none, read_exponent_none by assumption.
    reflexivity.
  - cbn [JS.Number_toString unsigned_zero].
    pose proof (shortest_reads_back m e Hwf) as H.
    destruct (JS.shortest m e) as [d q]. destruct H as [Hback Hd].
    destruct s.
    + rewrite append_assoc. cbn [append JSON.parse_number].
      rewrite Ascii.eqb_refl, parse_unsigned_layout by assumption.
      now rewrite (of_decimal_sign true _ _ _ _ Hback).
    + cbn [append].
      destruct (layout_head d q Hd) as (c & r & Hlay & Hc).
      rewrite Hlay. cbn [append JSON.parse_number].
      rewrite (is_digit_not_minus _ Hc).
      change (String c (r ++ rest)) with (String c r ++ rest).
      rewrite <- Hlay, parse_unsigned_layout by assumption.
      now rewrite Hback.
Qed.

(** ** Reading back a quoted string *)

Lemma hex_value_digit k :
  (k < 16)%nat -> JSON.hex_value (JSON.hex_digit k) = Some k.
Proof.
  intros Hk. do 16 (destruct k as [| k]; [reflexivity |]). lia.
Qed.

Lemma parse_chars_quote s rest :
  JSON.parse_chars (JSON.quote_chars s ++ String JSON.dquote rest) = Some (s, rest).
Proof.
  induction s as [| c s IH].
  - reflexivity.
  - cbn [JSON.quote_chars]. rewrite append_assoc.
    destruct c as [[] [] [] [] [] [] [] []];
      match goal with
      | |- context [JSON.quote_char ?c] =>
          let q := eval vm_compute in (JSON.quote_char c) in
          change (JSON.quote_char c) with q
      end;
      simpl; rewrite IH; reflexivity.
Qed.

(** ** Reading back a serialized value *)

Lemma all_ws_app a b : all_ws (a ++ b) = all_ws a && all_ws b.
Proof.
  induction a as [| c a IH]; cbn [append all_ws]; [reflexivity |].
  now rewrite IH, andb_assoc.
Qed.

Lemma all_ws_spaces n : all_ws (JS.repeat_char " " n) = true.
Proof. induction n; simpl; auto. Qed.

Lemma skip_ws_app ws t : all_ws ws = true -> JSON.skip_ws (ws ++ t) = JSON.skip_ws t.
Proof.
  induction ws as [| c ws IH]; cbn [append all_ws JSON.skip_ws]; [reflexivity |].
  intros H; apply andb_true_iff in H as [-> H]; auto.
Qed.

Lemma skip_ws_head c r :
  JSON.is_json_ws c = false -> JSON.skip_ws (String c r) = String c r.
Proof. cbn [JSON.skip_ws]. now intros ->. Qed.

Lemma parse_value_skip_ws fuel ws t :
  all_ws ws = true -> JSON.parse_value fuel (ws ++ t) = JSON.parse_value fuel t.
Proof.
  intros H. destruct fuel; [reflexivity |].
  cbn [JSON.parse_value]. now rewrite skip_ws_app.
Qed.

Lemma parse_members_skip_ws fuel ws t :
  all_ws ws = true -> JSON.parse_members fuel (ws ++ t) = JSON.parse_members fuel t.
Proof.
  intros H. destruct fuel; [reflexivity |].
  cbn [JSON.parse_members]. now rewrite skip_ws_app.
Qed.

(** Induction on values, with the hypothesis for every item and member. *)
Lemma value_induction (P : JSON.value -> Prop) :
  P JSON.Null ->
  (forall b, P (JSON.Bool b)) ->
  (forall x, P (JSON.Num x)) ->
  (forall s, P (JSON.Str s)) ->
  (forall items, Forall P items -> P (JSON.Arr items)) ->
  (forall members, Forall (fun kv => P (snd kv)) members -> P (JSON.Obj members)) ->
  forall v, P v.
Proof.
  intros Hnull Hbool Hnum Hstr Harr Hobj.
  fix IH 1. intros [| b | x | s | items | members].
  - exact Hnull.
  - apply Hbool.
  - apply Hnum.
  - apply Hstr.
  - apply Harr. induction items as [| item items IHitems]; constructor.
    + apply IH.
    + exact IHitems.
  - apply Hobj. induction members as [| [key item] members IHmembers]; constructor.
    + apply IH.
    + exact IHmembers.
Qed.

Lemma Number_toString_head x :
  JS.wf x -> JS.is_finite x = true ->
  exists c r, JS.Number_toString x = String c r /\ is_number_start c = true.
Proof.
  intros Hwf Hfin. destruct x as [s | s | | s m e]; try discriminate.
  - exists "0"%char, "". split; reflexivity.
  - cbn [JS.Number_toString].
    pose proof (shortest_reads_back m e Hwf) as H.
    destruct (JS.shortest m e) as [d q]. destruct H as [_ Hd].
    destruct s.
    + exists "-"%char; eexists; split; reflexivity.
    + destruct (layout_head d q Hd) as (c & r & -> & Hc).
      exists c, r. split; [reflexivity |]. unfold is_number_start. now rewrite Hc.
Qed.

Lemma number_start_opens c : is_number_start c = true -> opens_value c.
Proof.
  destruct c as [[] [] [] [] [] [] [] []]; cbv; intros H; try discriminate; auto.
Qed.

Lemma number_start_dispatch c :
  is_number_start c = true ->
  Ascii.eqb c "n" = false /\ Ascii.eqb c "t" = false /\ Ascii.eqb c "f" = false
  /\ Ascii.eqb c JSON.dquote = false /\ Ascii.eqb c "[" = false
  /\ Ascii.eqb c "{" = false.
Proof.
  destruct c as [[] [] [] [] [] [] [] []]; cbv; intros H; try discriminate; auto 7.
Qed.

Lemma serialize_Arr gap indent item items :
  gap <> "" ->
  JSON.serialize gap indent (JSON.Arr (item :: items))
  = "[" ++ JSON.nl ++ (indent ++ gap)
    ++ JSON.join ("," ++ JSON.nl ++ (indent ++ gap))
         (map (JSON.serialize gap (indent ++ gap)) (item :: items))
    ++ JSON.nl ++ indent ++ "]".
Proof. destruct gap; [congruence | reflexivity]. Qed.

Lemma serialize_Obj gap indent member members :
  gap <> "" ->
  JSON.serialize gap indent (JSON.Obj (member :: members))
  = "{" ++ JSON.nl ++ (indent ++ gap)
    ++ JSON.join ("," ++ JSON.nl ++ (indent ++ gap))
         (map (member_text gap (indent ++ gap)) (member :: members))
    ++ JSON.nl ++ indent ++ "}".
Proof. destruct gap; [congruence | reflexivity]. Qed.

Section Gap.

Variable gap : string.

Hypothesis gap_ws : all_ws gap = true.

Hypothesis gap_nonempty : gap <> "".

Lemma serialize_head indent v :
  value_wf v ->
  exists c r, JSON.serialize gap indent v = String c r /\ opens_value c.
Proof.
  intros Hwf. destruct v as [| [] | x | s | items | members].
  - exists "n"%char; eexists; split; [reflexivity | cbv; auto].
  - exists "t"%char; eexists; split; [reflexivity | cbv; auto].
  - exists "f"%char; eexists; split; [reflexivity | cbv; auto].
  - cbn [JSON.serialize]. destruct (JS.is_finite x) eqn:Hfin.
    + destruct (Number_toString_head x Hwf Hfin) as (c & r & -> & Hc).
      exists c, r. split; [reflexivity | now apply number_start_opens].
    + exists "n"%char; eexists; split; [reflexivity | cbv; auto].
  - exists JSON.dquote; eexists; split; [reflexivity | cbv; auto].
  - exists "["%char. cbn [JSON.serialize].
    destruct (map _ items), gap; eexists; (split; [reflexivity | cbv; auto]).
  - exists "{"%char. cbn [JSON.serialize].
    destruct (map _ members), gap; eexists; (split; [reflexivity | cbv; auto]).
Qed.

Lemma parse_elements_skip_ws fuel ws t :
  all_ws ws = true -> JSON.parse_elements fuel (ws ++ t) = JSON.parse_elements fuel t.
Proof.
  intros H. destruct fuel; [reflexivity |].
  cbn [JSON.parse_elements]. now rewrite parse_value_skip_ws.
Qed.

Lemma closing_tail indent c rest :
  all_ws indent = true -> JSON.is_json_ws c = false ->
  JSON.skip_ws (JSON.nl ++ indent ++ String c rest) = String c rest.
Proof.
  intros Hws Hc. rewrite <- append_assoc.
  rewrite skip_ws_app by (rewrite all_ws_app, Hws; reflexivity).
  now apply skip_ws_head.
Qed.

Lemma number_dispatch fuel s c r :
  s = String c r -> is_number_start c = true ->
  JSON.parse_value (S fuel) s
  = match JSON.parse_number s with
    | Some (x, rest) => Some (JSON.Num x, rest)
    | None => None
    end.
Proof.
  intros -> Hc. cbn [JSON.parse_value].
  destruct (number_start_opens c Hc) as (Hws & _).
  destruct (number_start_dispatch c Hc) as (H1 & H2 & H3 & H4 & H5 & H6).
  rewrite skip_ws_head by assumption.
  now rewrite H1, H2, H3, H4, H5, H6.
Qed.

Lemma parse_elements_join inner indent items :
  all_ws inner = true -> all_ws indent = true ->
  Forall (reads_back_at gap) items -> Forall value_wf items -> items <> [] ->
  forall fuel rest,
    (length (JSON.join ("," ++ JSON.nl ++ inner)
               (map (JSON.serialize gap inner) items)) < fuel)%nat ->
    JSON.parse_elements fuel
      (JSON.join ("," ++ JSON.nl ++ inner) (map (JSON.serialize gap inner) items)
       ++ JSON.nl ++ indent ++ "]" ++ rest)
    = Some (map norm items, rest).
Proof.
  intros Hinner Hindent Hall Hwf.
  induction items as [| item items IH]; [congruence |]. intros _ fuel rest Hlen.
  inversion Hall as [| ? ? Hitem Hitems]; subst.
  inversion Hwf as [| ? ? Hwf1 Hwfs]; subst.
  destruct fuel as [| fuel]; [lia |].
  destruct items as [| item2 items].
  - cbn [map JSON.join] in *. cbn [JSON.parse_elements].
    rewrite (Hitem Hwf1) by (first [assumption | lia | now cbv]).
    cbn [append]. rewrite closing_tail by (first [assumption | reflexivity]).
    reflexivity.
  - specialize (IH Hitems Hwfs ltac:(discriminate)).
    set (items' := item2 :: items) in *.
    change (map (JSON.serialize gap inner) (item :: items'))
      with (JSON.serialize gap inner item :: map (JSON.serialize gap inner) items') in *.
    assert (Hjoin : forall sep p, JSON.join sep (p :: map (JSON.serialize gap inner) items')
                    = p ++ sep ++ JSON.join sep (map (JSON.serialize gap inner) items'))
      by reflexivity.
    rewrite Hjoin in *. rewrite !length_append in Hlen.
    rewrite !append_assoc.
    cbn [JSON.parse_elements].
    rewrite (Hitem Hwf1) by (first [assumption | lia | now cbv]).
    set (text := JSON.join _ _ ++ _).
    change (JSON.after_char "," (JSON.skip_ws ("," ++ JSON.nl ++ inner ++ text)))
      with (Some (JSON.nl ++ inner ++ text)). cbv iota.
    rewrite parse_elements_skip_ws by reflexivity.
    rewrite parse_elements_skip_ws by assumption.
    subst text. rewrite IH by (change (String.length JSON.nl) with 1%nat in Hlen; change (String.length ",") with 1%nat in Hlen; lia).
    reflexivity.
Qed.

Lemma member_text_app inner kv tail :
  member_text gap inner kv ++ tail
  = String JSON.dquote
      (JSON.quote_chars (fst kv)
       ++ String JSON.dquote (": " ++ JSON.serialize gap inner (snd kv) ++ tail)).
Proof.
  unfold member_text, JSON.quote. cbn [append]. now rewrite !append_assoc.
Qed.

Lemma member_text_head inner kv :
  exists r, member_text gap inner kv = String JSON.dquote r.
Proof. unfold member_text, JSON.quote. cbn [append]. eauto. Qed.

Lemma parse_members_member fuel inner kv tail :
  JSON.parse_members (S fuel) (member_text gap inner kv ++ tail)
  = match JSON.parse_value fuel (JSON.serialize gap inner (snd kv) ++ tail) with
    | Some (v, r3) =>
        match JSON.after_char "," (JSON.skip_ws r3) with
        | Some r4 =>
            match JSON.parse_members fuel r4 with
            | Some (ms, rest) => Some ((fst kv, v) :: ms, rest)
            | None => None
            end
        | None =>
            match JSON.after_char "}" (JSON.skip_ws r3) with
            | Some rest => Some ([(fst kv, v)], rest)
            | None => None
            end
        end
    | None => None
    end.
Proof.
  rewrite member_text_app. cbn [JSON.parse_members].
  set (text := JSON.serialize gap inner (snd kv) ++ tail).
  set (after_key := JSON.quote_chars _ ++ _).
  change (JSON.after_char JSON.dquote (JSON.skip_ws (String JSON.dquote after_key)))
    with (Some after_key).
  cbv iota. subst after_key. rewrite parse_chars_quote.
  change (JSON.after_char ":" (JSON.skip_ws (": " ++ text))) with (Some (" " ++ text)).
  cbv iota. now rewrite parse_value_skip_ws by reflexivity.
Qed.

Lemma parse_members_join inner indent members :
  all_ws inner = true -> all_ws indent = true ->
  Forall (fun kv => reads_back_at gap (snd kv)) members ->
  Forall (fun kv => value_wf (snd kv)) members -> members <> [] ->
  forall fuel rest,
    (length (JSON.join ("," ++ JSON.nl ++ inner)
               (map (member_text gap inner) members)) < fuel)%nat ->
    JSON.parse_members fuel
      (JSON.join ("," ++ JSON.nl ++ inner) (map (member_text gap inner) members)
       ++ JSON.nl ++ indent ++ "}" ++ rest)
    = Some (map (fun kv => (fst kv, norm (snd kv))) members, rest).
Proof.
  intros Hinner Hindent Hall Hwf.
  induction members as [| member members IH]; [congruence |]. intros _ fuel rest Hlen.
  inversion Hall as [| ? ? Hitem Hitems]; subst.
  inversion Hwf as [| ? ? Hwf1 Hwfs]; subst.
  destruct fuel as [| fuel]; [lia |].
  assert (Hmember : (length (JSON.serialize gap inner (snd member))
                     <= length (member_text gap inner member))%nat)
    by (unfold member_text; rewrite !length_append; lia).
  destruct members as [| member2 members].
  - cbn [map JSON.join] in *.
    rewrite parse_members_member.
    rewrite (Hitem Hwf1) by (first [assumption | lia | now cbv]).
    cbn [append]. rewrite closing_tail by (first [assumption | reflexivity]).
    reflexivity.
  - specialize (IH Hitems Hwfs ltac:(discriminate)).
    set (members' := member2 :: members) in *.
    change (map (member_text gap inner) (member :: members'))
      with (member_text gap inner member :: map (member_text gap inner) members') in *.
    assert (Hjoin : forall sep p, JSON.join sep (p :: map (member_text gap inner) members')
                    = p ++ sep ++ JSON.join sep (map (member_text gap inner) members'))
      by reflexivity.
    rewrite Hjoin in *. rewrite !length_append in Hlen.
    change (String.length JSON.nl) with 1%nat in Hlen.
    change (String.length ",") with 1%nat in Hlen.
    rewrite !append_assoc.
    rewrite parse_members_member.
    rewrite (Hitem Hwf1) by (first [assumption | lia | now cbv]).
    set (text := JSON.join _ _ ++ _).
    change (JSON.after_char "," (JSON.skip_ws ("," ++ JSON.nl ++ inner ++ text)))
      with (Some (JSON.nl ++ inner ++ text)). cbv iota.
    rewrite parse_members_skip_ws by reflexivity.
    rewrite parse_members_skip_ws by assumption.
    subst text. rewrite IH by lia.
    reflexivity.
Qed.

Lemma value_wf_items items :
  value_wf (JSON.Arr items) -> Forall value_wf items.
Proof.
  cbn [value_wf]. induction items as [| item items IH]; cbn [fold_right].
  - constructor.
  - intros [H1 H2]. constructor; auto.
Qed.

Lemma value_wf_members members :
  value_wf (JSON.Obj members) -> Forall (fun kv => value_wf (snd kv)) members.
Proof.
  cbn [value_wf]. induction members as [| member members IH]; cbn [fold_right].
  - constructor.
  - intros [H1 H2]. constructor; auto.
Qed.

Lemma parse_literal_word word v rest :
  JSON.parse_literal word v (word ++ rest) = Some (v, rest).
Proof.
  unfold JSON.parse_literal.
  assert (Hprefix : prefix word (word ++ rest) = true).
  { induction word as [| c word IH]; cbn [append].
    - now destruct rest.
    - cbn [prefix]. now destruct (ascii_dec c c). }
  rewrite Hprefix. clear Hprefix. do 2 f_equal.
  induction word as [| c word IH]; [reflexivity | exact IH].
Qed.

Lemma join_head sep c r parts :
  exists r', JSON.join sep (String c r :: parts) = String c r'.
Proof. destruct parts; cbn [JSON.join append]; eauto. Qed.

Lemma open_array fuel text c r :
  JSON.skip_ws text = String c r -> Ascii.eqb c "]" = false ->
  JSON.parse_value (S fuel) ("[" ++ text)
  = match JSON.parse_elements fuel text with
    | Some (items, rest) => Some (JSON.Arr items, rest)
    | None => None
    end.
Proof.
  intros H Hc. cbn [append JSON.parse_value JSON.skip_ws JSON.is_json_ws].
  change (Ascii.eqb "[" "n") with false. change (Ascii.eqb "[" "t") with false.
  change (Ascii.eqb "[" "f") with false.
  change (Ascii.eqb "[" JSON.dquote) with false.
  change (Ascii.eqb "[" "[") with true. cbv iota.
  rewrite H. cbn [JSON.after_char]. now rewrite Hc.
Qed.

Lemma open_object fuel text c r :
  JSON.skip_ws text = String c r -> Ascii.eqb c "}" = false ->
  JSON.parse_value (S fuel) ("{" ++ text)
  = match JSON.parse_members fuel text with
    | Some (members, rest) => Some (JSON.Obj members, rest)
    | None => None
    end.
Proof.
  intros H Hc. cbn [append JSON.parse_value JSON.skip_ws JSON.is_json_ws].
  change (Ascii.eqb "{" "n") with false. change (Ascii.eqb "{" "t") with false.
  change (Ascii.eqb "{" "f") with false.
  change (Ascii.eqb "{" JSON.dquote) with false.
  change (Ascii.eqb "{" "[") with false.
  change (Ascii.eqb "{" "{") with true. cbv iota.
  rewrite H. cbn [JSON.after_char]. now rewrite Hc.
Qed.

(** A serialized value, followed by anything that does not continue a
    number, is read back. *)
Lemma parse_value_serialize v : reads_back_at gap v.
Proof.
  induction v as [| b | x | s | items IH | members IH] using value_induction;
    intros Hwf indent rest fuel Hindent Hrest Hlen;
    (destruct fuel as [| fuel];
     [destruct (serialize_head indent _ Hwf) as (c & r & Hs & _);
      rewrite Hs in Hlen; cbn [String.length] in Hlen; lia |]).
  - exact (parse_literal_word "null" JSON.Null rest).
  - destruct b.
    + exact (parse_literal_word "true" (JSON.Bool true) rest).
    + exact (parse_literal_word "false" (JSON.Bool false) rest).
  - cbn [JSON.serialize norm] in *. unfold norm_num.
    destruct (JS.is_finite x) eqn:Hfin;
      [| exact (parse_literal_word "null" JSON.Null rest)].
    destruct (Number_toString_head x Hwf Hfin) as (c & r & Hs & Hc).
    rewrite (number_dispatch fuel _ c (r ++ rest)) by (rewrite ?Hs; auto).
    now rewrite parse_number_toString.
  - cbn [JSON.serialize norm]. unfold JSON.quote. cbn [append].
    rewrite append_assoc. cbn [append JSON.parse_value].
    set (text := JSON.quote_chars s ++ _).
    change (JSON.skip_ws (String JSON.dquote text)) with (String JSON.dquote text).
    cbv iota. change (Ascii.eqb JSON.dquote "n") with false.
    change (Ascii.eqb JSON.dquote "t") with false.
    change (Ascii.eqb JSON.dquote "f") with false.
    rewrite Ascii.eqb_refl. cbv iota.
    subst text. now rewrite parse_chars_quote.
  - destruct items as [| item items]; [reflexivity |].
    rewrite serialize_Arr in * by exact gap_nonempty.
    assert (Hinner : all_ws (indent ++ gap) = true)
      by (rewrite all_ws_app, Hindent, gap_ws; reflexivity).
    pose proof (value_wf_items _ Hwf) as Hwfs.
    inversion Hwfs as [| ? ? Hwf1 _]; subst.
    destruct (serialize_head (indent ++ gap) item Hwf1) as (c & r & Hs & Hws & Hc & _).
    set (inner := indent ++ gap) in *.
    destruct (join_head ("," ++ JSON.nl ++ inner) c r
                (map (JSON.serialize gap inner) items)) as [r' Hjoin].
    cbn [map] in *. rewrite <- Hs in Hjoin.
    set (text := JSON.join _ _) in *.
    rewrite !length_append in Hlen.
    change (String.length "[") with 1%nat in Hlen.
    change (String.length JSON.nl) with 1%nat in Hlen.
    rewrite !append_assoc.
    rewrite (open_array fuel _ c (r' ++ JSON.nl ++ indent ++ "]" ++ rest))
      by (rewrite ?skip_ws_app by (first [assumption | reflexivity]);
          first [rewrite Hjoin; now apply skip_ws_head | assumption]).
    rewrite !parse_elements_skip_ws by (first [assumption | reflexivity]).
    subst text. rewrite (parse_elements_join inner indent (item :: items))
      by (first [assumption | discriminate | cbn [map]; lia]).
    reflexivity.
  - destruct members as [| member members]; [reflexivity |].
    rewrite serialize_Obj in * by exact gap_nonempty.
    assert (Hinner : all_ws (indent ++ gap) = true)
      by (rewrite all_ws_app, Hindent, gap_ws; reflexivity).
    pose proof (value_wf_members _ Hwf) as Hwfs.
    set (inner := indent ++ gap) in *.
    destruct (member_text_head inner member) as [r Hs].
    destruct (join_head ("," ++ JSON.nl ++ inner) JSON.dquote r
                (map (member_text gap inner) members)) as [r' Hjoin].
    cbn [map] in *. rewrite <- Hs in Hjoin.
    set (text := JSON.join _ _) in *.
    rewrite !length_append in Hlen.
    change (String.length "{") with 1%nat in Hlen.
    change (String.length JSON.nl) with 1%nat in Hlen.
    rewrite !append_assoc.
    rewrite (open_object fuel _ JSON.dquote (r' ++ JSON.nl ++ indent ++ "}" ++ rest))
      by (rewrite ?skip_ws_app by (first [assumption | reflexivity]);
          first [rewrite Hjoin; now apply skip_ws_head | reflexivity]).
    rewrite !parse_members_skip_ws by (first [assumption | reflexivity]).
    subst text. rewrite (parse_members_join inner indent (member :: members))
      by (first [assumption | discriminate | cbn [map]; lia]).
    reflexivity.
Qed.

End Gap.

(** [JSON.parse (JSON.stringify v null space)] for a positive [space]. *)
Lemma parse_stringify v space :
  value_wf v -> (0 < space)%nat ->
  JSON.parse (JSON.stringify v space) = Some (norm v).
Proof.
  intros Hwf Hspace. unfold JSON.parse, JSON.stringify.
  set (gap := JS.repeat_char " " (Nat.min space 10)).
  assert (Hgap : gap <> "").
  { subst gap. destruct space as [| n]; [lia |]. discriminate. }
  pose proof (parse_value_serialize gap (all_ws_spaces _) Hgap v Hwf "" ""
                (S (length (JSON.serialize gap "" v))) eq_refl I
                ltac:(lia)) as H.
  rewrite append_nil_r in H. rewrite H. reflexivity.
Qed.

(** ** C8: the report file reads back *)

Lemma writeFileSync_returned_inv w path content st u st' :
  writeFileSync w path content st = (Returned u, st') ->
  files st' = (path, content) :: files st.
Proof.
  unfold writeFileSync, await. intros H.
  apply bind_returned_inv in H as (? & st1 & H1 & H).
  apply bind_returned_inv in H1 as (? & st0 & H0 & H1).
  inversion H0; subst. inversion H; subst.
  destruct (fs_writeFileSync w path); inversion H1; subst. reflexivity.
Qed.

(** The file a returned run has written, lines 256-262. *)
Lemma generateCostReport_writes w st r st' :
  generateCostReport w st = (Returned r, st') ->
  readFile st' (reportFile_of w r) = Some (JSON.stringify (json_of_report r) 2).
Proof.
  unfold generateCostReport; intros H.
  rewrite (bind_returned _ _ _ _ _ (console_log_run _ _)) in H.
  apply (try_exit_returned_inv _
           (fun error => "Error generating cost report: " ++ message error)) in H.
  rewrite (bind_returned _ _ _ _ _ (getCurrentMonthCosts_run _ _)) in H.
  rewrite (bind_returned _ _ _ _ _ (getDailyCosts_run _ _)) in H.
  rewrite (bind_returned _ _ _ _ _ (getCostForecast_run _ _)) in H.
  apply bind_returned_inv in H as (budget & st1 & Hbudget & H).
  apply bind_returned_inv in H as (report & st2 & Hreport & H).
  apply bind_returned_inv in H as (? & st3 & _ & H).
  apply bind_returned_inv in H as (? & st4 & _ & H).
  apply bind_returned_inv in H as (? & st5 & _ & H).
  apply bind_returned_inv in H as (? & st6 & Hwrite & H).
  apply bind_returned_inv in H as (? & st7 & Hlog & H).
  inversion H; subst. inversion Hlog; subst.
  apply writeFileSync_returned_inv in Hwrite.
  unfold readFile. cbn [files extend]. rewrite Hwrite.
  cbn [find fst]. rewrite String.eqb_refl. reflexivity.
Qed.

(** The budget limit is a binary64 number and is never zero or NaN. *)
Lemma budgetLimit_wf w : JS.wf (Config.budgetLimit (CONFIG w)).
Proof.
  cbn [CONFIG Config.budgetLimit]. unfold JS.or_else.
  destruct (JS.truthy _).
  - destruct (COST_BUDGET_LIMIT w); apply parseFloat_wf.
  - apply of_decimal_wf.
Qed.

Lemma budgetLimit_truthy w : JS.truthy (Config.budgetLimit (CONFIG w)) = true.
Proof.
  cbn [CONFIG Config.budgetLimit]. unfold JS.or_else.
  destruct (JS.truthy (JS.parseFloat_env _)) eqn:H; [exact H | reflexivity].
Qed.

Lemma value_wf_Arr items :
  Forall value_wf items -> value_wf (JSON.Arr items).
Proof. induction 1; cbn [value_wf fold_right] in *; auto. Qed.

Lemma norm_breakdown b : norm (json_of_breakdown b) = json_of_breakdown b.
Proof. unfold json_of_breakdown. now destruct (Breakdown.service b). Qed.

Lemma norm_trend d : norm (json_of_trend d) = json_of_trend d.
Proof. reflexivity. Qed.

Lemma norm_report r :
  JS.is_finite (budgetLimit (summary r)) = true ->
  JS.truthy (budgetLimit (summary r)) = true ->
  norm (json_of_report r) = json_of_report r.
Proof.
  intros Hfin Htruthy. unfold json_of_report, json_of_summary.
  cbn [norm map fst snd]. unfold norm_num. rewrite Hfin.
  rewrite !map_map.
  rewrite (map_ext _ _ norm_breakdown), (map_ext _ _ norm_trend).
  replace (unsigned_zero (budgetLimit (summary r))) with (budgetLimit (summary r))
    by (destruct (budgetLimit (summary r)); try reflexivity; discriminate).
  now destruct (forecast r).
Qed.

Lemma value_wf_report r :
  JS.wf (budgetLimit (summary r)) -> value_wf (json_of_report r).
Proof.
  intros Hwf. unfold json_of_report, json_of_summary.
  cbn [value_wf fold_right snd]. repeat split; try exact Hwf.
  - apply (value_wf_Arr (map json_of_breakdown (serviceBreakdown r))).
    apply Forall_forall. intros v Hv. apply in_map_iff in Hv as (b & <- & _).
    unfold json_of_breakdown.
    destruct (Breakdown.service b); cbn [value_wf fold_right snd List.app]; repeat split.
  - apply (value_wf_Arr (map json_of_trend (dailyTrend r))).
    apply Forall_forall. intros v Hv. apply in_map_iff in Hv as (d & <- & _).
    cbn [value_wf fold_right snd json_of_trend]; repeat split.
  - destruct (forecast r); cbn [value_wf fold_right snd]; repeat split.
Qed.

(** With a budget limit of [Infinity] the file holds [null] for it. *)
Lemma infinite_budget_limit_is_written_as_null :
  let w := Samples.world (Some "Infinity") None
             [Samples.group "Amazon Amplify" "6.25"; Samples.group "Amazon S3" "2.5"]
             [Samples.budget "slightbuild-monthly-budget"] in
  let run := generateCostReport w (initial []) in
  let r := Samples.the_report w in
  fst run = Returned r
  /\ placed_values (summary r)
     = (Some (JSON.Str "8.75"), Some (JSON.Num JS.Infinity),
        Some (JSON.Str "0.0"), Some (JSON.Str "OK"))
  /\ exists text,
       readFile (snd run) "/site/reports/cost-report-2024-05.json" = Some text
       /\ option_map summary_values (parsed_summary text)
          = Some (Some (JSON.Str "8.75"), Some JSON.Null,
                  Some (JSON.Str "0.0"), Some (JSON.Str "OK")).
Proof.
  intros w run r.
  split; [vm_compute; reflexivity |].
  split; [vm_compute; reflexivity |].
  exists (JSON.stringify (json_of_report r) 2).
  split; vm_compute; reflexivity.
Qed.

(** C8 (amended).  When the budget limit is finite, the file written by a
    returned run of [generateCostReport] parses to the report, and the four
    summary values read from it are those placed into the report. *)
Theorem written_report_reads_back :
  forall w st r st',
    generateCostReport w st = (Returned r, st') ->
    JS.is_finite (Config.budgetLimit (CONFIG w)) = true ->
    exists text,
      readFile st' (reportFile_of w r) = Some text
      /\ JSON.parse text = Some (json_of_report r)
      /\ option_map summary_values (parsed_summary text)
         = Some (placed_values (summary r)).
Proof.
  intros w st r st' H Hfin.
  pose proof (generateCostReport_writes _ _ _ _ H) as Hfile.
  apply generateCostReport_returned_inv in H as (budget & st0 & st1 & st2 & _ & H).
  apply build_report_returned_inv in H as (Hsummary & _).
  assert (Hlimit : budgetLimit (summary r) = Config.budgetLimit (CONFIG w))
    by now rewrite Hsummary.
  assert (Hparse : JSON.parse (JSON.stringify (json_of_report r) 2)
                   = Some (json_of_report r)).
  { rewrite parse_stringify by
      (first [lia | apply value_wf_report; rewrite Hlimit; apply budgetLimit_wf]).
    rewrite norm_report; [reflexivity | |]; rewrite Hlimit;
      [exact Hfin | apply budgetLimit_truthy]. }
  eexists. split; [exact Hfile |]. split; [exact Hparse |].
  unfold parsed_summary. rewrite Hparse. reflexivity.
Qed.

Lemma written_report_reads_back_witness :
  let w := Samples.world (Some "12.5") None
             [Samples.group "Amazon Amplify" "6.25"; Samples.group "Amazon S3" "2.5"]
             [Samples.budget "slightbuild-monthly-budget"] in
  let run := generateCostReport w (initial []) in
  exists text,
    readFile (snd run) "/site/reports/cost-report-2024-05.json" = Some text
    /\ JSON.parse text = Some (json_of_report (Samples.the_report w))
    /\ option_map summary_values (parsed_summary text)
       = Some (Some (JSON.Str "8.75"), Some (JSON.Num (JS.parseFloat "12.5")),
               Some (JSON.Str "70.0"), Some (JSON.Str "OK")).
Proof.
  intros w run.
  assert (H : generateCostReport w (initial []) = (Returned (Samples.the_report w), snd run))
    by (vm_compute; reflexivity).
  assert (Hfin : JS.is_finite (Config.budgetLimit (CONFIG w)) = true)
    by (vm_compute; reflexivity).
  destruct (written_report_reads_back w _ _ _ H Hfin) as (text & Hfile & Hparse & Hvalues).
  exists text. split; [exact Hfile |]. split; [exact Hparse |].
  rewrite Hvalues. vm_compute. reflexivity.
Defined.

(** ** A failed forecast request

    What the script reads of a state is the account id it has memoised and
    the directories that exist; the trace and the files are only written.
    Two runs from states that agree on the former go the same way. *)

Lemma agrees_refl st : agrees st st.
Proof. split; reflexivity. Qed.

Lemma agrees_extend st1 st2 evs1 evs2 :
  agrees st1 st2 -> agrees (extend st1 evs1) (extend st2 evs2).
Proof. exact (fun H => H). Qed.

Lemma related_ret {A B} (R : A -> B -> Prop) a b : R a b -> related R (ret a) (ret b).
Proof. intros H st1 st2 Hst. now split. Qed.

Lemma related_throw {A B} (R : A -> B -> Prop) e : related R (throw e) (throw e).
Proof. intros st1 st2 Hst. now split. Qed.

Lemma related_exit {A B} (R : A -> B -> Prop) code :
  related R (process_exit code) (process_exit code).
Proof. intros st1 st2 Hst. now split. Qed.

Lemma related_bind {A B A' B'} (Ra : A -> A' -> Prop) (Rb : B -> B' -> Prop)
    m1 m2 (k1 : A -> M B) (k2 : A' -> M B') :
  related Ra m1 m2 ->
  (forall a a', Ra a a' -> related Rb (k1 a) (k2 a')) ->
  related Rb (bind m1 k1) (bind m2 k2).
Proof.
  intros Hm Hk st1 st2 Hst. specialize (Hm st1 st2 Hst). unfold bind.
  destruct (m1 st1) as [[a | e | c] s1], (m2 st2) as [[a' | e' | c'] s2];
    try contradiction; try exact Hm.
  destruct Hm as [Ha Hs]. exact (Hk a a' Ha s1 s2 Hs).
Qed.

Lemma related_try_catch {A B} (R : A -> B -> Prop) m1 m2 h1 h2 :
  related R m1 m2 ->
  (forall e, related R (h1 e) (h2 e)) ->
  related R (try_catch m1 h1) (try_catch m2 h2).
Proof.
  intros Hm Hh st1 st2 Hst. specialize (Hm st1 st2 Hst). unfold try_catch.
  destruct (m1 st1) as [[a | e | c] s1], (m2 st2) as [[a' | e' | c'] s2];
    try contradiction; try exact Hm.
  destruct Hm as [<- Hs]. exact (Hh e s1 s2 Hs).
Qed.

Lemma related_emit e1 e2 : related eq (emit e1) (emit e2).
Proof. intros st1 st2 Hst. now split. Qed.

Lemma related_await {A} ev1 ev2 (response : Error + A) :
  related eq (await ev1 response) (await ev2 response).
Proof.
  unfold await. eapply related_bind; [apply related_emit |]. intros _ _ _.
  destruct response; [apply related_throw | now apply related_ret].
Qed.

Lemma related_defined {A} (v : option A) property :
  related eq (defined v property) (defined v property).
Proof. destruct v; [now apply related_ret | apply related_throw]. Qed.

Lemma related_forEach {A} (xs : list A) f g :
  (forall x, related eq (f x) (g x)) -> related eq (forEach xs f) (forEach xs g).
Proof.
  intros H. induction xs as [| x xs IH]; cbn [forEach].
  - now apply related_ret.
  - eapply related_bind; [apply H | intros _ _ _; exact IH].
Qed.

Lemma related_mapM {A B} (f : A -> M B) xs :
  (forall x, related eq (f x) (f x)) -> related eq (mapM f xs) (mapM f xs).
Proof.
  intros H. induction xs as [| x xs IH]; cbn [mapM].
  - now apply related_ret.
  - eapply related_bind; [apply H |]. intros y _ <-.
    eapply related_bind; [exact IH |]. intros ys _ <-. now apply related_ret.
Qed.

Lemma related_getAccountId w : related eq (getAccountId w) (getAccountId w).
Proof.
  intros st1 st2 [Hid Hdirs]. unfold getAccountId. rewrite <- Hid.
  destruct (accountId st1) as [[| c r] |] eqn:Hacc;
    unfold bind, await, emit, ret, throw;
    try destruct (sts_getCallerIdentity w);
    repeat split; cbn; congruence.
Qed.

Lemma related_getBudgetInfo w : related eq (getBudgetInfo w) (getBudgetInfo w).
Proof.
  unfold getBudgetInfo.
  eapply related_bind; [apply related_getAccountId |]. intros account _ <-.
  apply related_try_catch.
  - eapply related_bind; [apply related_await |]. intros result _ <-.
    eapply related_bind; [apply related_defined |]. intros budgets _ <-.
    now apply related_ret.
  - intros e. eapply related_bind; [apply related_emit |]. intros _ _ _.
    now apply related_ret.
Qed.

Lemma related_trend_of day : related eq (trend_of day) (trend_of day).
Proof.
  unfold trend_of.
  eapply related_bind; [apply related_defined |]. intros p _ <-.
  eapply related_bind; [apply related_defined |]. intros t _ <-.
  now apply related_ret.
Qed.

Lemma related_console_log l1 l2 : related eq (console_log l1) (console_log l2).
Proof. apply related_emit. Qed.

(** A sequence of lines to the console is related to doing nothing. *)
Lemma related_log_then {A B} (R : A -> B -> Prop) line m1 m2 :
  related R m1 m2 -> related R (console_log line ;; m1) m2.
Proof.
  intros H st1 st2 Hst. unfold bind, console_log, emit.
  exact (H (extend st1 [console_log_ev line]) st2 Hst).
Qed.

Lemma related_print_report r :
  related eq (print_report r) (print_report (without_forecast r)).
Proof.
  unfold print_report. cbn [without_forecast summary serviceBreakdown dailyTrend forecast].
  repeat (eapply related_bind; [apply related_console_log | intros _ _ _]).
  eapply related_bind.
  { apply related_forEach. intros b.
    eapply related_bind; [apply related_defined |]. intros name _ <-.
    apply related_console_log. }
  intros _ _ _.
  eapply related_bind; [apply related_console_log | intros _ _ _].
  eapply related_bind.
  { destruct (dailyTrend r); [now apply related_ret |].
    repeat (eapply related_bind; [apply related_console_log | intros _ _ _]).
    eapply related_bind; [| intros _ _ _; apply related_console_log].
    apply related_forEach. intros d. apply related_console_log. }
  intros _ _ _.
  destruct (forecast r); [| now apply related_ret].
  repeat apply related_log_then.
  intros st1 st2 Hst. now split.
Qed.

Lemma related_existsSync path : related eq (existsSync path) (existsSync path).
Proof.
  intros st1 st2 [Hid Hdirs]. unfold existsSync. rewrite Hdirs. now repeat split.
Qed.

Lemma related_mkdirSync w path : related eq (mkdirSync w path) (mkdirSync w path).
Proof.
  unfold mkdirSync. eapply related_bind; [apply related_await |]. intros _ _ _.
  intros st1 st2 [Hid Hdirs]. repeat split; cbn; congruence.
Qed.

Lemma related_writeFileSync w path c1 c2 :
  related eq (writeFileSync w path c1) (writeFileSync w path c2).
Proof.
  unfold writeFileSync. eapply related_bind; [apply related_await |]. intros _ _ _.
  intros st1 st2 [Hid Hdirs]. repeat split; cbn; congruence.
Qed.

(** The run with a rejected forecast request goes as the run with any other
    answer, and returns the same report but for its forecast. *)
Lemma related_generateCostReport w error :
  related (fun r r' => r' = without_forecast r)
    (generateCostReport w)
    (generateCostReport (with_forecast w (inl error))).
Proof.
  set (w' := with_forecast w (inl error)).
  unfold generateCostReport.
  eapply related_bind; [apply related_console_log | intros _ _ _].
  apply related_try_catch.
  2:{ intros e. eapply related_bind; [apply related_emit | intros _ _ _].
      apply related_exit. }
  eapply related_bind with (Ra := eq).
  { intros st1 st2 Hst. change (getCurrentMonthCosts w') with (getCurrentMonthCosts w).
    rewrite !getCurrentMonthCosts_run. now split. }
  intros currentCosts _ <-.
  eapply related_bind with (Ra := eq).
  { intros st1 st2 Hst. change (getDailyCosts w') with (getDailyCosts w).
    rewrite !getDailyCosts_run. now split. }
  intros dailyCosts _ <-.
  eapply related_bind with (Ra := fun _ fc' => forecast_of fc' = None).
  { intros st1 st2 Hst. rewrite !getCostForecast_run. now split. }
  intros fc fc' Hfc.
  eapply related_bind with (Ra := eq);
    [exact (related_getBudgetInfo w) |]. intros budget _ <-.
  eapply related_bind with (Ra := fun r r' => r' = without_forecast r).
  { unfold build_report.
    eapply related_bind with (Ra := eq);
      [apply related_mapM; intros; apply related_trend_of |].
    intros trend _ <-. apply related_ret.
    unfold without_forecast. cbn. now rewrite Hfc. }
  intros r _ ->.
  eapply related_bind; [apply related_print_report | intros _ _ _].
  eapply related_bind with (Ra := eq);
    [exact (related_existsSync (Config.outputDir (CONFIG w))) |].
  intros dir_exists _ <-.
  eapply related_bind with (Ra := eq).
  { destruct dir_exists; [now apply related_ret | exact (related_mkdirSync w _)]. }
  intros _ _ _.
  eapply related_bind with (Ra := eq);
    [exact (related_writeFileSync w (reportFile_of w r) _ _) |].
  intros _ _ _.
  eapply related_bind; [apply related_console_log | intros _ _ _].
  now apply related_ret.
Qed.

(** A rejected forecast request leaves the report as it is but for its
    forecast, which is null: if the run returns the report [r] for some
    answer to the forecast request, then, the request rejected, the run from
    the same state returns [r] with [forecast: null]; the summary and the
    service breakdown are those of [r]. *)
Theorem forecast_failure_is_isolated :
  forall w error st r st',
    generateCostReport w st = (Returned r, st') ->
    exists r' st'',
      generateCostReport (with_forecast w (inl error)) st = (Returned r', st'')
      /\ forecast r' = None
      /\ summary r' = summary r
      /\ serviceBreakdown r' = serviceBreakdown r
      /\ dailyTrend r' = dailyTrend r.
Proof.
  intros w error st r st' H.
  pose proof (related_generateCostReport w error st st (agrees_refl st)) as Hrel.
  rewrite H in Hrel.
  destruct (generateCostReport (with_forecast w (inl error)) st) as [[r' | e | c] st''];
    try contradiction.
  destruct Hrel as [-> _]. exists (without_forecast r), st''. now repeat split.
Qed.

Lemma forecast_failure_is_isolated_witness :
  let w := Samples.world None None
             [Samples.group "Amazon Amplify" "3.5"; Samples.group "Amazon Route 53" "0.3"]
             [Samples.budget "slightbuild-monthly-budget"] in
  let error := {| message := "ThrottlingException" |} in
  option_map Forecast.nextMonth (forecast (Samples.the_report w)) = Some "9.26"
  /\ exists r' st'',
       generateCostReport (with_forecast w (inl error)) (initial []) = (Returned r', st'')
       /\ forecast r' = None
       /\ totalCost (summary r') = "3.80"
       /\ map Breakdown.cost (serviceBreakdown r') = ["3.50"; "0.30"].
Proof.
  intros w error.
  assert (H : generateCostReport w (initial [])
              = (Returned (Samples.the_report w),
                 snd (generateCostReport w (initial []))))
    by (vm_compute; reflexivity).
  split; [vm_compute; reflexivity |].
  destruct (forecast_failure_is_isolated w error _ _ _ H)
    as (r' & st'' & Hrun & Hforecast & Hsummary & Hbreakdown & _).
  exists r', st''. split; [exact Hrun |]. split; [exact Hforecast |].
  rewrite Hsummary, Hbreakdown. split; vm_compute; reflexivity.
Defined.

(** ** The fetches that catch their failure *)

(** A rejected Cost Explorer or Budgets request is caught where it is made:
    the three Cost Explorer fetches and the budget request log the error and
    return their default ([{ Groups: [] }], [[]],
    [{ ForecastResultsByTime: [] }] and [null]).  For the budget request the
    account id is taken as memoised: fetching it is outside the [try]. *)
Theorem rejected_requests_yield_defaults :
  forall w st error,
    (costExplorer_getCostAndUsage w MONTHLY = inl error ->
     getCurrentMonthCosts w st
     = (Returned no_groups,
        extend st [getCostAndUsage_ev MONTHLY;
                   console_error_ev ("Error fetching cost data: " ++ message error)]))
    /\ (costExplorer_getCostAndUsage w DAILY = inl error ->
        getDailyCosts w st
        = (Returned [],
           extend st [getCostAndUsage_ev DAILY;
                      console_error_ev ("Error fetching daily cost data: "
                                        ++ message error)]))
    /\ (costExplorer_getCostForecast w = inl error ->
        getCostForecast w st
        = (Returned {| ForecastResultsByTime := [] |},
           extend st [getCostForecast_ev;
                      console_error_ev ("Error fetching cost forecast: "
                                        ++ message error)]))
    /\ (forall c r,
          accountId st = Some (String c r) ->
          budgets_describeBudgets w (String c r) = inl error ->
          getBudgetInfo w st
          = (Returned None,
             extend st [describeBudgets_ev (String c r);
                        console_error_ev ("Error fetching budget info: "
                                          ++ message error)])).
Proof.
  intros w st error. repeat split.
  - intros H. unfold getCurrentMonthCosts, try_catch, bind, await, emit, throw,
      console_error, ret. rewrite H. cbn. now rewrite extend_extend.
  - intros H. unfold getDailyCosts, try_catch, bind, await, emit, throw,
      console_error, ret. rewrite H. cbn. now rewrite extend_extend.
  - intros H. unfold getCostForecast, try_catch, bind, await, emit, throw,
      console_error, ret. rewrite H. cbn. now rewrite extend_extend.
  - intros c r Hid H. unfold getBudgetInfo, getAccountId, try_catch, await,
      console_error, bind, emit, throw, ret. rewrite Hid, H. cbn.
    now rewrite extend_extend.
Qed.

Lemma rejected_requests_yield_defaults_witness :
  let w := with_forecast (Samples.world None None [] [])
             (inl {| message := "ThrottlingException" |}) in
  getCostForecast w (initial [])
  = (Returned {| ForecastResultsByTime := [] |},
     extend (initial [])
       [getCostForecast_ev;
        console_error_ev "Error fetching cost forecast: ThrottlingException"]).
Proof.
  intros w.
  exact (proj1 (proj2 (proj2 (rejected_requests_yield_defaults w (initial []) _)))
           eq_refl).
Defined.

(** ** The account id is fetched once *)

(** Once [getAccountId] has returned a non-empty account id, the next call
    returns it from [CONFIG.accountId]: no request is issued and the state is
    left as it is. *)
Theorem getAccountId_is_memoised :
  forall w st account st',
    getAccountId w st = (Returned account, st') ->
    account <> "" ->
    getAccountId w st' = (Returned account, st').
Proof.
  intros w st account st' H Hne. unfold getAccountId in *.
  destruct (accountId st) as [[| c r] |] eqn:Hid.
  - unfold bind, await, emit, ret, throw in H.
    destruct (sts_getCallerIdentity w) as [e | result]; [discriminate |].
    cbn in H. inversion H; subst. cbn [accountId].
    destruct (Account result); [congruence | reflexivity].
  - inversion H; subst. now rewrite Hid.
  - unfold bind, await, emit, ret, throw in H.
    destruct (sts_getCallerIdentity w) as [e | result]; [discriminate |].
    cbn in H. inversion H; subst. cbn [accountId].
    destruct (Account result); [congruence | reflexivity].
Qed.

Lemma getAccountId_is_memoised_witness :
  let w := Samples.world None None [] [] in
  let st' := snd (getAccountId w (initial [])) in
  trace st' = [getCallerIdentity_ev]
  /\ getAccountId w st' = (Returned "123456789012", st').
Proof.
  intros w st'. split; [reflexivity |].
  apply (getAccountId_is_memoised w (initial [])); [reflexivity | discriminate].
Defined.

(* ================================================================== *)
(** * Runs, requests and outcomes *)
(* ================================================================== *)

(** ** Requests and console lines *)

Lemma requests_app a b : requests (a ++ b)%list = (requests a ++ requests b)%list.
Proof. apply filter_app. Qed.

Lemma published_requests evs : published (requests evs) = published evs.
Proof.
  unfold requests, published.
  induction evs as [| e evs IH]; [reflexivity |].
  destruct e; cbn [filter is_request flat_map List.app]; now rewrite ?IH.
Qed.

Lemma after_refl st : after st [] st.
Proof. unfold after. now rewrite List.app_nil_r. Qed.

Lemma after_extend st evs : after st (requests evs) (extend st evs).
Proof. unfold after. cbn [dirs files trace extend]. now rewrite requests_app. Qed.

Lemma after_trans st rs st1 rs' st2 :
  after st rs st1 -> after st1 rs' st2 -> after st (rs ++ rs')%list st2.
Proof.
  intros (Hd & Hf & Ht) (Hd' & Hf' & Ht'). unfold after.
  rewrite Hd', Hf', Ht', Hd, Hf, Ht. now rewrite List.app_assoc.
Qed.

Lemma quietly_ret {A} (a : A) : quietly (ret a) (returns a).
Proof. intros st. exists (Returned a), []. now rewrite extend_nil. Qed.

Lemma quietly_throw {A} (e : Error) : quietly (@throw A e) throws.
Proof. intros st. exists (Threw e), []. rewrite extend_nil. repeat split. now exists e. Qed.

Lemma quietly_log line : quietly (console_log line) (returns tt).
Proof. intros st. exists (Returned tt), [console_log_ev line]. now repeat split. Qed.

Lemma quietly_bind {A B} (m : M A) (k : A -> M B) a P :
  quietly m (returns a) -> quietly (k a) P -> quietly (bind m k) P.
Proof.
  intros Hm Hk st.
  destruct (Hm st) as (o & evs & Hrun & Hreq & ->).
  destruct (Hk (extend st evs)) as (o' & evs' & Hrun' & Hreq' & HP).
  exists o', (evs ++ evs')%list. unfold bind. rewrite Hrun, Hrun', extend_extend.
  rewrite requests_app, Hreq, Hreq'. now repeat split.
Qed.

Lemma quietly_bind_throws {A B} (m : M A) (k : A -> M B) :
  quietly m throws -> quietly (bind m k) throws.
Proof.
  intros Hm st. destruct (Hm st) as (o & evs & Hrun & Hreq & e & ->).
  exists (Threw e), evs. unfold bind. rewrite Hrun. repeat split; [exact Hreq | now exists e].
Qed.

Lemma quietly_forEach {A} (xs : list A) (f : A -> M unit) :
  (forall x, In x xs -> quietly (f x) (returns tt)) ->
  quietly (forEach xs f) (returns tt).
Proof.
  induction xs as [| x xs IH]; intros H; cbn [forEach].
  - apply quietly_ret.
  - eapply quietly_bind; [apply H; now left |].
    apply IH. intros y Hy. apply H. now right.
Qed.

Lemma quietly_forEach_throws {A} (xs : list A) (f : A -> M unit) (ok : A -> bool) :
  (forall x, ok x = true -> quietly (f x) (returns tt)) ->
  (forall x, ok x = false -> quietly (f x) throws) ->
  forallb ok xs = false ->
  quietly (forEach xs f) throws.
Proof.
  intros Hok Hbad. induction xs as [| x xs IH]; cbn [forEach forallb]; [discriminate |].
  destruct (ok x) eqn:Hx; cbn [andb]; intros Hxs.
  - eapply quietly_bind; [now apply Hok | now apply IH].
  - apply quietly_bind_throws. now apply Hbad.
Qed.

(** ** The steps of [generateCostReport] *)

Lemma requests_month_events w : requests (month_events w) = [getCostAndUsage_ev MONTHLY].
Proof. destruct (month_events_cases w) as [line [-> | ->]]; reflexivity. Qed.

Lemma requests_daily_events w : requests (daily_events w) = [getCostAndUsage_ev DAILY].
Proof.
  unfold daily_events, getDailyCosts, try_catch, bind, await, emit, console_error,
    ret, throw.
  destruct (costExplorer_getCostAndUsage w DAILY); reflexivity.
Qed.

Lemma requests_forecast_events w : requests (forecast_events w) = [getCostForecast_ev].
Proof.
  unfold forecast_events, getCostForecast, try_catch, bind, await, emit, console_error,
    ret, throw.
  destruct (costExplorer_getCostForecast w); reflexivity.
Qed.

(** The budget lookup for a known account always returns. *)
Lemma budget_lookup_returns w account st :
  exists evs,
    try_catch
      (result <- await (describeBudgets_ev account) (budgets_describeBudgets w account) ;;
       budgets <- defined (Budgets result) "find" ;;
       ret (find (fun budget =>
                    JS.includes (Config.appName (CONFIG w)) (BudgetName budget)
                    || JS.includes "monthly-budget" (BudgetName budget))
                 budgets))
      (fun error =>
         console_error ("Error fetching budget info: " ++ message error) ;;
         ret None) st
    = (Returned (matching_budget w account), extend st evs)
    /\ requests evs = [describeBudgets_ev account].
Proof.
  unfold matching_budget, try_catch, bind, await, defined, emit, console_error, ret, throw.
  destruct (budgets_describeBudgets w account) as [e | [[budgets |]]];
    cbn; rewrite ?extend_extend; eexists; split; reflexivity.
Qed.

Lemma getAccountId_returns w st :
  identity_available w st = true ->
  exists st',
    getAccountId w st = (Returned (account_of w st), st')
    /\ after st (if memoised st then [] else [getCallerIdentity_ev]) st'.
Proof.
  unfold identity_available, memoised, account_of, getAccountId.
  destruct (accountId st) as [[| c r] |] eqn:Hid; cbn [orb];
    try (intros _; eexists; split; [reflexivity | apply after_refl]);
    intros Hsts; unfold bind, await, emit, ret, throw;
    (destruct (sts_getCallerIdentity w) as [e | result]; [discriminate |]);
    cbn; eexists; (split; [reflexivity |]); unfold after;
    cbn [dirs files trace extend]; now rewrite requests_app.
Qed.

Lemma getBudgetInfo_returns w st :
  identity_available w st = true ->
  exists st',
    getBudgetInfo w st = (Returned (matching_budget w (account_of w st)), st')
    /\ after st ((if memoised st then [] else [getCallerIdentity_ev])
                 ++ [describeBudgets_ev (account_of w st)])%list st'.
Proof.
  intros H. destruct (getAccountId_returns w st H) as (st1 & Hacc & Hafter).
  unfold getBudgetInfo. rewrite (bind_returned _ _ _ _ _ Hacc).
  destruct (budget_lookup_returns w (account_of w st) st1) as (evs & -> & Hreq).
  eexists. split; [reflexivity |].
  eapply after_trans; [exact Hafter |]. rewrite <- Hreq. apply after_extend.
Qed.

Lemma getBudgetInfo_fails w st :
  identity_available w st = false ->
  memoised st = false
  /\ exists e st',
       getBudgetInfo w st = (Threw e, st') /\ after st [getCallerIdentity_ev] st'.
Proof.
  unfold identity_available. intros H. apply orb_false_iff in H as [Hmem Hsts].
  split; [exact Hmem |].
  destruct (sts_getCallerIdentity w) as [e | result] eqn:Hanswer; [| discriminate].
  assert (Hno : no_account st).
  { unfold memoised in Hmem. unfold no_account.
    destruct (accountId st) as [[| c r] |]; auto; discriminate. }
  exists e, (extend st [getCallerIdentity_ev]).
  split; [now apply getBudgetInfo_throws |]. apply (after_extend st [getCallerIdentity_ev]).
Qed.

(** The trend: every day of it must be complete. *)
Lemma trend_of_complete day :
  day_complete day = true ->
  exists entry,
    trend_entry day = Some entry /\ forall st, trend_of day st = (Returned entry, st).
Proof.
  unfold day_complete, trend_entry, trend_of, bind, defined, ret.
  destruct (TimePeriod day), (Total day); try discriminate. eauto.
Qed.

Lemma trend_of_incomplete day st :
  day_complete day = false -> exists e, trend_of day st = (Threw e, st).
Proof.
  unfold day_complete, trend_of, bind, defined, ret, throw.
  destruct (TimePeriod day), (Total day); try discriminate; eauto.
Qed.

Lemma mapM_trend_of_returns days :
  forallb day_complete days = true ->
  exists trend,
    (forall st, mapM trend_of days st = (Returned trend, st))
    /\ map Some trend = map trend_entry days.
Proof.
  induction days as [| day days IH]; cbn [forallb mapM map].
  - intros _. exists []. now split.
  - intros H. apply andb_true_iff in H as [Hday Hdays].
    destruct (trend_of_complete day Hday) as (entry & Hentry & Hrun).
    destruct (IH Hdays) as (trend & Hruns & Htrend).
    exists (entry :: trend). split.
    + intros st. unfold bind. now rewrite Hrun, Hruns.
    + cbn [map]. now rewrite Hentry, Htrend.
Qed.

Lemma mapM_trend_of_throws days st :
  forallb day_complete days = false ->
  exists e, mapM trend_of days st = (Threw e, st).
Proof.
  induction days as [| day days IH]; cbn [forallb mapM]; [discriminate |].
  destruct (day_complete day) eqn:Hday; cbn [andb]; intros Hdays.
  - destruct (trend_of_complete day Hday) as (entry & _ & Hrun).
    destruct (IH Hdays) as [e Hthrow]. exists e. unfold bind. now rewrite Hrun, Hthrow.
  - destruct (trend_of_incomplete day st Hday) as [e Hthrow].
    exists e. unfold bind. now rewrite Hthrow.
Qed.

Lemma build_report_returns w budget :
  forallb day_complete (trend_days w) = true ->
  exists r,
    (forall st,
       build_report w (month_result w) (daily_result w) (forecast_result w) budget st
       = (Returned r, st))
    /\ map Some (dailyTrend r) = map trend_entry (trend_days w)
    /\ serviceBreakdown r = map (breakdown_of (total_of (month_groups w))) (month_groups w)
    /\ period r = JS.substring0 7 (now w).
Proof.
  intros Hdays. unfold build_report, trend_days in *.
  destruct (mapM_trend_of_returns _ Hdays) as (trend & Hrun & Htrend).
  eexists. split; [| split; [| split]].
  - intros st. unfold bind. rewrite Hrun. reflexivity.
  - exact Htrend.
  - reflexivity.
  - reflexivity.
Qed.

Lemma build_report_throws w budget st :
  forallb day_complete (trend_days w) = false ->
  exists e,
    build_report w (month_result w) (daily_result w) (forecast_result w) budget st
    = (Threw e, st).
Proof.
  intros Hdays. unfold build_report, trend_days in *.
  destruct (mapM_trend_of_throws _ st Hdays) as [e Hthrow].
  exists e. unfold bind. now rewrite Hthrow.
Qed.

Lemma quietly_forEach_all {A} (xs : list A) (f : A -> M unit) (ok : A -> bool) :
  (forall x, ok x = true -> quietly (f x) (returns tt)) ->
  forallb ok xs = true ->
  quietly (forEach xs f) (returns tt).
Proof.
  intros Hok Hall. apply quietly_forEach. intros x Hx. apply Hok.
  now apply (proj1 (forallb_forall ok xs) Hall).
Qed.

Lemma quietly_print_line (service : Breakdown.t) :
  service_named service = true ->
  quietly (name <- defined (Breakdown.service service) "padEnd" ;;
           console_log (JS.padEnd 25 name ++ " $" ++ JS.padStart 6 (Breakdown.cost service)
                        ++ " (" ++ Breakdown.percentage service ++ "%)"))
          (returns tt).
Proof.
  unfold service_named. destruct (Breakdown.service service); [| discriminate]. intros _.
  eapply quietly_bind; [apply quietly_ret | apply quietly_log].
Qed.

Lemma quietly_print_line_throws (service : Breakdown.t) :
  service_named service = false ->
  quietly (name <- defined (Breakdown.service service) "padEnd" ;;
           console_log (JS.padEnd 25 name ++ " $" ++ JS.padStart 6 (Breakdown.cost service)
                        ++ " (" ++ Breakdown.percentage service ++ "%)"))
          throws.
Proof.
  unfold service_named. destruct (Breakdown.service service); [discriminate |]. intros _.
  apply quietly_bind_throws, quietly_throw.
Qed.

Ltac quiet_logs := repeat (eapply quietly_bind; [apply quietly_log |]).

(** The console report returns when every service of the breakdown has a
    name, and throws otherwise; it makes no request. *)
Lemma print_report_returns r :
  forallb service_named (serviceBreakdown r) = true ->
  quietly (print_report r) (returns tt).
Proof.
  intros Hnamed. unfold print_report. quiet_logs.
  eapply quietly_bind.
  { apply (fun H => quietly_forEach_all _ _ service_named H Hnamed).
    intros service. apply quietly_print_line. }
  quiet_logs.
  eapply quietly_bind.
  { destruct (dailyTrend r); [apply quietly_ret |]. quiet_logs.
    eapply quietly_bind; [| apply quietly_log].
    apply quietly_forEach. intros day _. apply quietly_log. }
  destruct (forecast r); [| apply quietly_ret]. quiet_logs. apply quietly_log.
Qed.

Lemma print_report_throws r :
  forallb service_named (serviceBreakdown r) = false ->
  quietly (print_report r) throws.
Proof.
  intros Hnamed. unfold print_report. quiet_logs.
  apply quietly_bind_throws.
  apply (fun Hok Hbad => quietly_forEach_throws _ _ service_named Hok Hbad Hnamed).
  - intros service. apply quietly_print_line.
  - intros service. apply quietly_print_line_throws.
Qed.

Lemma service_named_breakdown total groups :
  forallb service_named (map (breakdown_of total) groups) = forallb group_keyed groups.
Proof.
  induction groups as [| g groups IH]; [reflexivity |]. cbn [map forallb]. rewrite IH.
  f_equal. unfold service_named, breakdown_of, group_keyed. cbn.
  now destruct (Keys g).
Qed.

(** The file system. *)
Lemma existsSync_run path st :
  existsSync path st = (Returned (existsb (String.eqb path) (dirs st)), st).
Proof. reflexivity. Qed.

Lemma mkdirSync_returns w path st :
  resolves (fs_mkdirSync w path) = true ->
  exists st',
    mkdirSync w path st = (Returned tt, st')
    /\ dirs st' = path :: dirs st /\ files st' = files st
    /\ requests (trace st') = (requests (trace st) ++ [mkdirSync_ev path])%list.
Proof.
  unfold mkdirSync, bind, await, emit, ret, throw.
  destruct (fs_mkdirSync w path); [discriminate |]. intros _. cbn.
  eexists. split; [reflexivity |]. cbn. now rewrite requests_app.
Qed.

Lemma mkdirSync_throws w path st :
  resolves (fs_mkdirSync w path) = false ->
  exists e, mkdirSync w path st = (Threw e, extend st [mkdirSync_ev path]).
Proof.
  unfold mkdirSync, bind, await, emit, ret, throw.
  destruct (fs_mkdirSync w path) as [e |]; [| discriminate]. intros _. now exists e.
Qed.

Lemma writeFileSync_returns w path content st :
  resolves (fs_writeFileSync w path) = true ->
  exists st',
    writeFileSync w path content st = (Returned tt, st')
    /\ dirs st' = dirs st /\ files st' = (path, content) :: files st
    /\ requests (trace st')
       = (requests (trace st) ++ [writeFileSync_ev path content])%list.
Proof.
  unfold writeFileSync, bind, await, emit, ret, throw.
  destruct (fs_writeFileSync w path); [discriminate |]. intros _. cbn.
  eexists. split; [reflexivity |]. cbn. now rewrite requests_app.
Qed.

Lemma writeFileSync_throws w path content st :
  resolves (fs_writeFileSync w path) = false ->
  exists e,
    writeFileSync w path content st
    = (Threw e, extend st [writeFileSync_ev path content]).
Proof.
  unfold writeFileSync, bind, await, emit, ret, throw.
  destruct (fs_writeFileSync w path) as [e |]; [| discriminate]. intros _. now exists e.
Qed.

(** Saving the report: the directory is made when it is missing, then the
    file is written. *)
Lemma save_report_outcome w r st :
  period r = JS.substring0 7 (now w) ->
  let made := dir_exists w st || resolves (fs_mkdirSync w (report_dir w)) in
  let written := made && resolves (fs_writeFileSync w (report_path w)) in
  let text := JSON.stringify (json_of_report r) 2 in
  exists o st',
    save_report w r st = (o, st')
    /\ (if written then o = Returned r else exists e, o = Threw e)
    /\ files st' = (if written then (report_path w, text) :: files st else files st)
    /\ (written = true ->
        dirs st' = if dir_exists w st then dirs st else report_dir w :: dirs st)
    /\ requests (trace st')
       = (requests (trace st)
          ++ (if dir_exists w st then [] else [mkdirSync_ev (report_dir w)])
          ++ (if made then [writeFileSync_ev (report_path w) text] else []))%list.
Proof.
  intros Hperiod made written text. subst made written.
  assert (Hpath : reportFile_of w r = report_path w)
    by (unfold reportFile_of, report_path, report_dir; now rewrite Hperiod).
  unfold save_report. rewrite Hpath.
  rewrite (bind_returned _ _ _ _ _ (existsSync_run _ _)).
  fold (report_dir w). fold (dir_exists w st).
  destruct (dir_exists w st) eqn:Hdir; cbn [orb andb List.app].
  - rewrite (bind_returned _ _ _ _ _ (eq_refl : ret tt st = (Returned tt, st))).
    destruct (resolves (fs_writeFileSync w (report_path w))) eqn:Hwrite.
    + destruct (writeFileSync_returns w _ text st Hwrite) as (st1 & Hrun & Hd & Hf & Ht).
      rewrite (bind_returned _ _ _ _ _ Hrun).
      rewrite (bind_returned _ _ _ _ _ (console_log_run _ _)).
      do 2 eexists. split; [reflexivity |]. cbn [dirs files trace extend].
      rewrite requests_app, Ht, List.app_nil_r. now repeat split.
    + destruct (writeFileSync_throws w _ text st Hwrite) as (e & Hrun).
      rewrite (bind_threw _ _ _ _ _ Hrun).
      do 2 eexists. split; [reflexivity |]. cbn [dirs files trace extend].
      rewrite requests_app. repeat split; first [now exists e | discriminate | reflexivity].
  - destruct (resolves (fs_mkdirSync w (report_dir w))) eqn:Hmk; cbn [andb].
    + destruct (mkdirSync_returns w _ st Hmk) as (st1 & Hrun & Hd & Hf & Ht).
      rewrite (bind_returned _ _ _ _ _ Hrun).
      destruct (resolves (fs_writeFileSync w (report_path w))) eqn:Hwrite.
      * destruct (writeFileSync_returns w _ text st1 Hwrite)
          as (st2 & Hrun2 & Hd2 & Hf2 & Ht2).
        rewrite (bind_returned _ _ _ _ _ Hrun2).
        rewrite (bind_returned _ _ _ _ _ (console_log_run _ _)).
        do 2 eexists. split; [reflexivity |]. cbn [dirs files trace extend].
        rewrite requests_app, Ht2, Ht, Hf2, Hf, Hd2, Hd, List.app_nil_r.
        rewrite <- List.app_assoc. now repeat split.
      * destruct (writeFileSync_throws w _ text st1 Hwrite) as (e & Hrun2).
        rewrite (bind_threw _ _ _ _ _ Hrun2).
        do 2 eexists. split; [reflexivity |]. cbn [dirs files trace extend].
        rewrite requests_app, Ht, Hf. rewrite <- List.app_assoc.
        repeat split; first [now exists e | discriminate | reflexivity].
    + destruct (mkdirSync_throws w _ st Hmk) as (e & Hrun).
      rewrite (bind_threw _ _ _ _ _ Hrun).
      do 2 eexists. split; [reflexivity |]. cbn [dirs files trace extend].
      rewrite requests_app. repeat split; first [now exists e | discriminate | reflexivity].
Qed.

(** ** The outcome of [generateCostReport] *)

Lemma generateCostReport_unfold w :
  generateCostReport w
  = (console_log ("Generating SlightBuild Cost Report..." ++ nl) ;;
     try_catch
       (currentCosts <- getCurrentMonthCosts w ;;
        dailyCosts <- getDailyCosts w ;;
        forecast <- getCostForecast w ;;
        budget <- getBudgetInfo w ;;
        report <- build_report w currentCosts dailyCosts forecast budget ;;
        print_report report ;;
        save_report w report)
       (fun error =>
          console_error ("Error generating cost report: " ++ message error) ;;
          process_exit 1)).
Proof. reflexivity. Qed.

(** What a run of [generateCostReport] from [st] comes to: the report is
    returned and saved when it is producible; otherwise the process ends with
    code 1 and no file is written.  The requests are those of
    [report_requests]. *)
Lemma generateCostReport_outcome w st :
  exists o st',
    generateCostReport w st = (o, st')
    /\ o = (if producible w st then Returned (report_from w st) else Exited 1)
    /\ files st'
       = (if producible w st then (report_path w, report_text w st) :: files st
          else files st)
    /\ (producible w st = true ->
        dirs st' = if dir_exists w st then dirs st else report_dir w :: dirs st)
    /\ requests (trace st') = (requests (trace st) ++ report_requests w st)%list.
Proof.
  rewrite generateCostReport_unfold.
  rewrite (bind_returned _ _ _ _ _ (console_log_run _ _)).
  unfold try_catch.
  rewrite (bind_returned _ _ _ _ _ (getCurrentMonthCosts_run _ _)).
  rewrite (bind_returned _ _ _ _ _ (getDailyCosts_run _ _)).
  rewrite (bind_returned _ _ _ _ _ (getCostForecast_run _ _)).
  set (st3 := extend _ (forecast_events w)).
  assert (H3 : after st [getCostAndUsage_ev MONTHLY; getCostAndUsage_ev DAILY;
                         getCostForecast_ev] st3).
  { subst st3. rewrite !extend_extend.
    replace [getCostAndUsage_ev MONTHLY; getCostAndUsage_ev DAILY; getCostForecast_ev]
      with (requests ([console_log_ev ("Generating SlightBuild Cost Report..." ++ nl)]
                      ++ month_events w ++ daily_events w ++ forecast_events w)%list).
    - apply after_extend.
    - rewrite !requests_app, requests_month_events, requests_daily_events,
        requests_forecast_events. reflexivity. }
  unfold producible, report_requests, report_text.
  change (memoised st) with (memoised st3).
  change (identity_available w st) with (identity_available w st3).
  change (account_of w st) with (account_of w st3).
  change (report_from w st) with (report_from w st3).
  destruct H3 as (Hd3 & Hf3 & Ht3).
  assert (Hdir3 : dir_exists w st = dir_exists w st3) by reflexivity.
  rewrite Hdir3. clearbody st3.
  destruct (identity_available w st3) eqn:Hid; cbn [andb].
  2:{ destruct (getBudgetInfo_fails w st3 Hid) as (Hmem & e & st4 & Hrun & Hd & Hf & Ht).
      rewrite (bind_threw _ _ _ _ _ Hrun), Hmem.
      do 2 eexists. split; [reflexivity |]. cbn [dirs files trace extend].
      rewrite requests_app, Ht, Ht3, Hf, Hf3, <- ?List.app_assoc.
      repeat split; first [discriminate | reflexivity]. }
  destruct (getBudgetInfo_returns w st3 Hid) as (st4 & Hrun & Hd4 & Hf4 & Ht4).
  rewrite (bind_returned _ _ _ _ _ Hrun).
  destruct (forallb day_complete (trend_days w)) eqn:Hdays; cbn [andb].
  2:{ destruct (build_report_throws w (matching_budget w (account_of w st3)) st4 Hdays)
        as (e & Hbuild).
      rewrite (bind_threw _ _ _ _ _ Hbuild).
      do 2 eexists. split; [reflexivity |]. cbn [dirs files trace extend].
      rewrite requests_app, Ht4, Ht3, Hf4, Hf3, <- ?List.app_assoc.
      repeat split; first [discriminate | reflexivity]. }
  destruct (build_report_returns w (matching_budget w (account_of w st3)) Hdays)
    as (r & Hbuild & _ & Hbreakdown & Hperiod).
  rewrite (bind_returned _ _ _ _ _ (Hbuild st4)).
  assert (Hr : report_from w st3 = r) by (unfold report_from; now rewrite Hbuild).
  rewrite Hr.
  assert (Hnamed : forallb service_named (serviceBreakdown r)
                   = forallb group_keyed (month_groups w))
    by (rewrite Hbreakdown; apply service_named_breakdown).
  destruct (forallb group_keyed (month_groups w)) eqn:Hkeys; cbn [andb].
  2:{ destruct (print_report_throws r Hnamed st4) as (o & evs & Hprint & Hreq & e & ->).
      rewrite (bind_threw _ _ _ _ _ Hprint).
      do 2 eexists. split; [reflexivity |]. cbn [dirs files trace extend].
      rewrite !requests_app, Hreq, Ht4, Ht3, Hf4, Hf3, <- ?List.app_assoc.
      repeat split; first [discriminate | reflexivity]. }
  destruct (print_report_returns r Hnamed st4) as (o & evs & Hprint & Hreq & ->).
  rewrite (bind_returned _ _ _ _ _ Hprint).
  destruct (save_report_outcome w r (extend st4 evs) Hperiod)
    as (o & st5 & Hsave & Ho & Hf5 & Hd5 & Ht5).
  assert (Hdir : dir_exists w (extend st4 evs) = dir_exists w st3)
    by (unfold dir_exists; cbn [dirs extend]; now rewrite Hd4).
  rewrite Hdir in *. cbn [dirs files trace extend] in *.
  rewrite Hsave.
  destruct ((dir_exists w st3 || resolves (fs_mkdirSync w (report_dir w)))
            && resolves (fs_writeFileSync w (report_path w))) eqn:Hwritten.
  - subst o. do 2 eexists. split; [reflexivity |].
    rewrite Hf5, Ht5, Hd5, requests_app, Hreq, Ht4, Ht3, Hf4, Hf3, Hd4, Hd3 by reflexivity.
    apply andb_true_iff in Hwritten as [-> _].
    rewrite List.app_nil_r, <- ?List.app_assoc. now repeat split.
  - destruct Ho as [e ->].
    do 2 eexists. split; [reflexivity |]. cbn [dirs files trace extend].
    rewrite requests_app, Hf5, Ht5, requests_app, Hreq, Ht4, Ht3, Hf4, Hf3.
    rewrite !List.app_nil_r, <- ?List.app_assoc.
    repeat split; first [discriminate | reflexivity].
Qed.

(** [generateCostReport] returns a report only if the report is producible
    from the state it starts in: an account id is memoised or the identity
    request resolves, each of the last seven daily results has its
    [TimePeriod] and [Total], every group of the month has a key, the
    directory of the reports exists or can be made, and the file can be
    written.  When one of these fails it ends the process with code 1.  No
    exception leaves it.  The state it starts in matters through the account
    id and the directory alone: once a run has returned a report, a run from
    any state in which an account id is at hand and the directory exists or
    can be made returns one too. *)
Theorem generateCostReport_returns_only_if_producible :
  forall w st,
    ((exists r st', generateCostReport w st = (Returned r, st')) ->
     producible w st = true)
    /\ (producible w st = false ->
        exists st', generateCostReport w st = (Exited 1, st'))
    /\ (forall e st', generateCostReport w st <> (Threw e, st'))
    /\ (forall r st' st2,
          generateCostReport w st = (Returned r, st') ->
          identity_available w st2 = true ->
          dir_exists w st2 || resolves (fs_mkdirSync w (report_dir w)) = true ->
          exists r2 st2', generateCostReport w st2 = (Returned r2, st2')).
Proof.
  intros w st.
  destruct (generateCostReport_outcome w st) as (o & st' & Hrun & Ho & _).
  rewrite Hrun. destruct (producible w st) eqn:Hp; subst o.
  - split; [reflexivity |]. split; [discriminate |]. split; [discriminate |].
    intros r st1 st2 _ Hid Hdir.
    destruct (generateCostReport_outcome w st2) as (o2 & st2' & Hrun2 & Ho2 & _).
    assert (Hp2 : producible w st2 = true).
    { unfold producible in *.
      repeat (apply andb_true_iff in Hp as [Hp ?]).
      repeat (apply andb_true_iff; split); assumption. }
    rewrite Hp2 in Ho2. subst o2. eauto.
  - split; [intros (? & ? & H); discriminate |]. split; [eauto |].
    split; [discriminate |]. intros r st1 st2 H. discriminate.
Qed.

Lemma generateCostReport_returns_only_if_producible_witness :
  let ok := Samples.world None None [Samples.group "Amazon Amplify" "3.5"] [] in
  let no_total :=
    world_with_days ok
      [Samples.day "2024-05-15" "0.41";
       {| TimePeriod := Some {| Start := "2024-05-16"; End_ := "2024-05-17" |};
          Total := None; Groups := [] |}] in
  let no_key :=
    Samples.world None None [{| Keys := []; Metrics := Metrics (Samples.group "" "3.5") |}] [] in
  let read_only :=
    world_with_disk ok (fun _ => inr tt) (fun _ => inl {| message := "EROFS" |}) in
  producible ok (initial []) = true
  /\ (exists r st', generateCostReport ok (snd (generateCostReport ok (initial [])))
                    = (Returned r, st'))
  /\ (exists st', generateCostReport no_total (initial []) = (Exited 1, st'))
  /\ (exists st', generateCostReport no_key (initial []) = (Exited 1, st'))
  /\ (exists st', generateCostReport read_only (initial []) = (Exited 1, st')).
Proof.
  intros ok no_total no_key read_only.
  assert (H : generateCostReport ok (initial [])
              = (Returned (Samples.the_report ok), snd (generateCostReport ok (initial []))))
    by (vm_compute; reflexivity).
  split; [| split; [| split; [| split]]].
  - apply (proj1 (generateCostReport_returns_only_if_producible ok (initial []))). eauto.
  - apply (proj2 (proj2 (proj2 (generateCostReport_returns_only_if_producible
                                  ok (initial [])))) _ _ _ H);
      vm_compute; reflexivity.
  - apply (proj1 (proj2 (generateCostReport_returns_only_if_producible
                           no_total (initial [])))).
    vm_compute; reflexivity.
  - apply (proj1 (proj2 (generateCostReport_returns_only_if_producible
                           no_key (initial [])))).
    vm_compute; reflexivity.
  - apply (proj1 (proj2 (generateCostReport_returns_only_if_producible
                           read_only (initial [])))).
    vm_compute; reflexivity.
Defined.



(** The requests of a run that returns a report, in the order in which they
    are issued: the monthly and the daily cost request and the forecast
    request; the identity request unless an account id is memoised; the
    budgets request for that account; the request that makes the directory of
    the reports, when it does not exist; the write of the report file, whose
    text is the report as JSON.  Afterwards the directory exists and the files
    written before are still there. *)
Theorem report_requests_in_order :
  forall w st r st',
    generateCostReport w st = (Returned r, st') ->
    requests (trace st')
    = (requests (trace st)
       ++ [getCostAndUsage_ev MONTHLY; getCostAndUsage_ev DAILY; getCostForecast_ev]
       ++ (if memoised st then [] else [getCallerIdentity_ev])
       ++ [describeBudgets_ev (account_of w st)]
       ++ (if dir_exists w st then [] else [mkdirSync_ev (report_dir w)])
       ++ [writeFileSync_ev (report_path w) (JSON.stringify (json_of_report r) 2)])%list
    /\ In (report_dir w) (dirs st')
    /\ files st' = (report_path w, JSON.stringify (json_of_report r) 2) :: files st.
Proof.
  intros w st r st' H.
  destruct (generateCostReport_outcome w st) as (o & st1 & Hrun & Ho & Hfiles & Hdirs & Hreq).
  rewrite H in Hrun. injection Hrun as <- <-.
  destruct (producible w st) eqn:Hp; [| discriminate].
  inversion Ho; subst r. specialize (Hdirs eq_refl).
  unfold producible in Hp.
  repeat (apply andb_true_iff in Hp as [Hp ?]).
  split; [| split].
  - rewrite Hreq. unfold report_requests, report_text.
    repeat match goal with H : _ = true |- _ => rewrite H; clear H end.
    cbn [andb]. reflexivity.
  - rewrite Hdirs. unfold dir_exists.
    destruct (existsb _ (dirs st)) eqn:Hd; [| now left].
    apply existsb_exists in Hd as (d & Hin & Heq). apply String.eqb_eq in Heq. now subst.
  - exact Hfiles.
Qed.

Lemma report_requests_in_order_witness :
  let w := Samples.world None None [Samples.group "Amazon Amplify" "3.5"] [] in
  let run := generateCostReport w (initial []) in
  let r := Samples.the_report w in
  requests (trace (snd run))
  = [getCostAndUsage_ev MONTHLY; getCostAndUsage_ev DAILY; getCostForecast_ev;
     getCallerIdentity_ev; describeBudgets_ev "123456789012";
     mkdirSync_ev "/site/reports";
     writeFileSync_ev "/site/reports/cost-report-2024-05.json"
       (JSON.stringify (json_of_report r) 2)]
  /\ dirs (snd run) = ["/site/reports"].
Proof.
  intros w run r.
  assert (H : generateCostReport w (initial []) = (Returned r, snd run))
    by (vm_compute; reflexivity).
  destruct (report_requests_in_order w _ _ _ H) as (Hreq & _ & _).
  split; [rewrite Hreq; vm_compute; reflexivity | vm_compute; reflexivity].
Defined.

(** ** The alert check, the optimisation report and [main] *)

Lemma asks_bind {A B} rs rs' (m : M A) (k : A -> M B) a P :
  asks rs m (returns a) -> asks rs' (k a) P -> asks (rs ++ rs')%list (bind m k) P.
Proof.
  intros Hm Hk st.
  destruct (Hm st) as (o & evs & Hrun & Hreq & ->).
  destruct (Hk (extend st evs)) as (o' & evs' & Hrun' & Hreq' & HP).
  exists o', (evs ++ evs')%list. unfold bind. rewrite Hrun, Hrun', extend_extend.
  rewrite requests_app, Hreq, Hreq'. now repeat split.
Qed.

Lemma asks_after_quiet {A B} rs (m : M A) (k : A -> M B) a P :
  quietly m (returns a) -> asks rs (k a) P -> asks rs (bind m k) P.
Proof. exact (asks_bind [] rs m k a P). Qed.

Lemma asks_try_catch {A} rs (m : M A) h a :
  asks rs m (returns a) -> asks rs (try_catch m h) (returns a).
Proof.
  intros Hm st. destruct (Hm st) as (o & evs & Hrun & Hreq & ->).
  exists (Returned a), evs. unfold try_catch. now rewrite Hrun.
Qed.

Lemma asks_getCurrentMonthCosts w :
  asks [getCostAndUsage_ev MONTHLY] (getCurrentMonthCosts w) (returns (month_result w)).
Proof.
  intros st. exists (Returned (month_result w)), (month_events w).
  split; [apply getCurrentMonthCosts_run |]. split; [apply requests_month_events |].
  reflexivity.
Qed.

Lemma quietly_forEach_indexed {A} (xs : list A) (f : nat -> A -> M unit) :
  (forall index x, quietly (f index x) (returns tt)) ->
  forall index, quietly (forEach_indexed index xs f) (returns tt).
Proof.
  intros H. induction xs as [| x xs IH]; intros index; cbn [forEach_indexed].
  - apply quietly_ret.
  - eapply quietly_bind; [apply H | apply IH].
Qed.

Lemma quietly_print_recommendation index rec :
  quietly (print_recommendation index rec) (returns tt).
Proof.
  unfold print_recommendation.
  eapply quietly_bind; [apply quietly_ret |]. quiet_logs. apply quietly_log.
Qed.

(** [generateOptimizationReport] issues the monthly cost request and nothing
    else, and returns. *)
Lemma asks_generateOptimizationReport w :
  asks [getCostAndUsage_ev MONTHLY] (generateOptimizationReport w)
    (returns (recommendations_of (month_groups w))).
Proof.
  unfold generateOptimizationReport.
  eapply asks_after_quiet; [apply quietly_log |].
  apply asks_try_catch.
  apply (asks_bind [getCostAndUsage_ev MONTHLY] [] _ _ (month_result w));
    [apply asks_getCurrentMonthCosts |].
  fold (month_groups w). quiet_logs.
  eapply quietly_bind.
  { destruct (recommendations_of (month_groups w)); [apply quietly_log |].
    apply quietly_forEach_indexed. apply quietly_print_recommendation. }
  quiet_logs. apply quietly_ret.
Qed.

Lemma requests_sendAlert_events w level message :
  requests (sendAlert_events w level message)
  = map publish_ev (published (sendAlert_events w level message))
  /\ (List.length (published (sendAlert_events w level message)) <= 1)%nat.
Proof.
  pose proof (sendAlert_events_cases w level message) as H.
  destruct (SNS_ALERT_TOPIC w) as [[| c r] |].
  - rewrite H. split; [reflexivity | cbn; lia].
  - destruct H as (body & last & -> & [-> | [e ->]]); split; cbn; try reflexivity; lia.
  - rewrite H. split; [reflexivity | cbn; lia].
Qed.

Lemma requests_alert_events w :
  requests (alert_events w) = alert_requests w
  /\ (List.length (published (alert_events w)) <= 1)%nat.
Proof.
  unfold alert_requests. rewrite alert_events_cases.
  change (console_log_ev ?l :: ?a ++ ?b)%list with ([console_log_ev l] ++ a ++ b)%list.
  rewrite !requests_app, !published_app, requests_month_events, published_month_events.
  cbn [requests filter is_request published flat_map List.app].
  destruct (JS.ge (percent_used w) lit_100);
    [| destruct (JS.ge (percent_used w) _)].
  - destruct (requests_sendAlert_events w "CRITICAL" (critical_message w)) as [Hr Hl].
    cbn [requests filter is_request published flat_map List.app] in *.
    unfold requests, published in *. now rewrite Hr.
  - destruct (requests_sendAlert_events w "WARNING" (warning_message w)) as [Hr Hl].
    cbn [requests filter is_request published flat_map List.app] in *.
    unfold requests, published in *. now rewrite Hr.
  - split; [reflexivity | cbn; lia].
Qed.

Lemma asks_checkCostAlerts w : asks (alert_requests w) (checkCostAlerts w) (returns tt).
Proof.
  intros st. exists (Returned tt), (alert_events w).
  split; [apply checkCostAlerts_run |]. split; [apply requests_alert_events |].
  reflexivity.
Qed.

Lemma asks_then {A B} rs (m : M A) (a : A) (b : B) :
  asks rs m (returns a) -> asks rs (m ;; ret b) (returns b).
Proof.
  intros H. rewrite <- (List.app_nil_r rs).
  eapply asks_bind; [exact H | apply quietly_ret].
Qed.

(** What [main] comes to for the arguments [args]. *)
Lemma main_outcome w args st :
  exists st',
    main w args st
    = (if runs_report args && negb (producible w st) then Exited 1 else Returned tt, st')
    /\ requests (trace st')
       = (requests (trace st)
          ++ (if runs_report args then report_requests w st else [])
          ++ (if runs_report args && negb (producible w st) then []
              else (if runs_alerts args then alert_requests w else [])
                   ++ (if runs_optimization args
                       then [getCostAndUsage_ev MONTHLY] else [])))%list.
Proof.
  unfold main, runs_report, runs_alerts, runs_optimization, has_flag.
  destruct (generateCostReport_outcome w st) as (o & st1 & Hrun & Ho & _ & _ & Hreq).
  destruct (existsb (String.eqb "--report") args); cbn [orb negb andb].
  { unfold try_catch, bind. rewrite Hrun.
    destruct (producible w st); subst o; cbn [negb];
      eexists; (split; [reflexivity |]); cbn [trace]; rewrite Hreq;
      now rewrite ?List.app_nil_r. }
  destruct (existsb (String.eqb "--alert") args); cbn [orb negb andb].
  { destruct (asks_try_catch _ _
                (fun error => console_error ("Script execution failed: " ++ message error) ;;
                              process_exit 1) _ (asks_checkCostAlerts w) st)
      as (o' & evs & Hrun' & Hreq' & ->).
    rewrite Hrun'. eexists. split; [reflexivity |].
    cbn [trace extend]. now rewrite requests_app, Hreq', List.app_nil_r. }
  destruct (existsb (String.eqb "--optimize") args); cbn [orb negb andb].
  { destruct (asks_try_catch _ _
                (fun error => console_error ("Script execution failed: " ++ message error) ;;
                              process_exit 1) _
                (asks_then _ _ _ tt (asks_generateOptimizationReport w)) st)
      as (o' & evs & Hrun' & Hreq' & ->).
    rewrite Hrun'. eexists. split; [reflexivity |].
    cbn [trace extend]. now rewrite requests_app, Hreq'. }
  unfold try_catch. unfold bind at 1. rewrite Hrun.
  destruct (producible w st); subst o; cbn [negb].
  2:{ eexists. split; [reflexivity |]. cbn [trace]. now rewrite Hreq, List.app_nil_r. }
  assert (Htail : asks (alert_requests w ++ [getCostAndUsage_ev MONTHLY])%list
                    (console_log separator ;;
                     checkCostAlerts w ;;
                     console_log separator ;;
                     generateOptimizationReport w ;;
                     ret tt)
                    (returns tt)).
  { eapply asks_after_quiet; [apply quietly_log |].
    apply (asks_bind (alert_requests w) [getCostAndUsage_ev MONTHLY] _ _ tt);
      [apply asks_checkCostAlerts |].
    eapply asks_after_quiet; [apply quietly_log |].
    eapply asks_then. apply asks_generateOptimizationReport. }
  destruct (Htail st1) as (o' & evs & Hrun' & Hreq' & ->).
  rewrite Hrun'. eexists. split; [reflexivity |].
  cbn [trace extend]. rewrite requests_app, Hreq', Hreq. now rewrite <- !List.app_assoc.
Qed.

(** [main] runs the report for [--report], and when neither [--alert] nor
    [--optimize] is given; other arguments are ignored.  When it runs the
    report and the report is not producible, it ends the process with code 1.
    However it ends, it returns or ends the process with code 1: no exception
    leaves it and no other code is used.  When [generateCostReport] returns a
    report from the state [main] starts in, [main] returns, whatever the
    arguments. *)
Theorem main_exits_with_1_when_the_report_fails :
  forall w args st,
    (runs_report args = true -> producible w st = false ->
     exists st', main w args st = (Exited 1, st'))
    /\ (exists st',
          main w args st = (Returned tt, st') \/ main w args st = (Exited 1, st'))
    /\ (forall r st1,
          generateCostReport w st = (Returned r, st1) ->
          exists st', main w args st = (Returned tt, st')).
Proof.
  intros w args st. destruct (main_outcome w args st) as (st' & Hrun & _).
  split; [| split].
  - intros Hmode Hp. rewrite Hmode, Hp in Hrun. now exists st'.
  - exists st'. destruct (runs_report args && negb (producible w st)); auto.
  - intros r st1 H.
    destruct (generateCostReport_outcome w st) as (o & st2 & Hrun2 & Ho & _).
    rewrite H in Hrun2. injection Hrun2 as <- <-.
    destruct (producible w st); [| discriminate].
    rewrite andb_false_r in Hrun. now exists st'.
Qed.

Lemma main_exits_with_1_when_the_report_fails_witness :
  let w :=
    {| AWS_REGION := None; APP_NAME := None; COST_BUDGET_LIMIT := None;
       SNS_ALERT_TOPIC := None; reportsDir := "/site/reports";
       now := "2024-05-17T09:30:00.000Z";
       costExplorer_getCostAndUsage :=
         costExplorer_getCostAndUsage
           (Samples.world None None [Samples.group "Amazon Amplify" "3.5"] []);
       costExplorer_getCostForecast := inl {| message := "AccessDenied" |};
       sts_getCallerIdentity := inl {| message := "AccessDenied" |};
       budgets_describeBudgets := fun _ => inl {| message := "AccessDenied" |};
       sns_publish := fun _ => inl {| message := "AccessDenied" |};
       fs_mkdirSync := fun _ => inl {| message := "EACCES" |};
       fs_writeFileSync := fun _ => inl {| message := "EACCES" |} |} in
  (exists st', main w ["--verbose"] (initial []) = (Exited 1, st'))
  /\ (exists st', main w ["--alert"; "--report"] (initial []) = (Exited 1, st')).
Proof.
  intros w. split.
  - apply (proj1 (main_exits_with_1_when_the_report_fails w _ (initial [])));
      vm_compute; reflexivity.
  - apply (proj1 (main_exits_with_1_when_the_report_fails w _ (initial [])));
      vm_compute; reflexivity.
Defined.

(** With none of the three flags [main] runs the report, the alert check and
    the optimisation report in that order, and each asks for the costs of the
    month again: three monthly cost requests in all.  When the report is not
    producible the run ends with the requests of the report: the alert check
    does not run and nothing is published. *)
Theorem default_run_requests :
  forall w args st,
    no_flag args = true ->
    exists o st',
      main w args st = (o, st')
      /\ requests (trace st')
         = (requests (trace st) ++ report_requests w st
            ++ (if producible w st
                then alert_requests w ++ [getCostAndUsage_ev MONTHLY]
                else []))%list
      /\ (producible w st = false -> published (trace st') = published (trace st)).
Proof.
  intros w args st Hargs. unfold no_flag in Hargs.
  apply negb_true_iff in Hargs. apply orb_false_iff in Hargs as [Hargs Hoptimize].
  apply orb_false_iff in Hargs as [Hreport Halert].
  destruct (main_outcome w args st) as (st' & Hrun & Hreq).
  unfold runs_report, runs_alerts, runs_optimization in *.
  rewrite Hreport, Halert, Hoptimize in *. cbn [orb negb andb] in *.
  do 2 eexists. split; [exact Hrun |].
  destruct (producible w st) eqn:Hp; cbn [negb] in *.
  - split; [exact Hreq | discriminate].
  - split; [exact Hreq |]. intros _.
    rewrite <- (published_requests (trace st')), Hreq, !published_app, published_requests.
    rewrite List.app_nil_r. rewrite <- (List.app_nil_r (published (trace st))) at 2.
    f_equal. unfold report_requests.
    destruct (memoised st), (identity_available w st),
      (forallb day_complete (trend_days w) && forallb group_keyed (month_groups w)),
      (dir_exists w st), (resolves (fs_mkdirSync w (report_dir w))); reflexivity.
Qed.

Lemma default_run_requests_witness :
  let w := Samples.world (Some "3.0") Samples.topic
             [Samples.group "Amazon Amplify" "3.5"] [] in
  let st' := snd (main w [] (initial ["/site/reports"])) in
  map (fun e => match e with
                | getCostAndUsage_ev MONTHLY => "month"
                | getCostAndUsage_ev DAILY => "days"
                | getCostForecast_ev => "forecast"
                | getCallerIdentity_ev => "identity"
                | describeBudgets_ev _ => "budgets"
                | publish_ev _ => "publish"
                | mkdirSync_ev _ => "mkdir"
                | writeFileSync_ev _ _ => "write"
                | _ => "line"
                end) (requests (trace st'))
  = ["month"; "days"; "forecast"; "identity"; "budgets"; "write";
     "month"; "publish"; "month"].
Proof.
  intros w st'.
  destruct (default_run_requests w [] (initial ["/site/reports"]) eq_refl)
    as (o & st1 & Hrun & Hreq & _).
  assert (Hst : st' = st1) by (subst st'; now rewrite Hrun).
  rewrite Hst, Hreq. vm_compute. reflexivity.
Defined.

(** The alert check and the optimisation report ask for little.  However it
    ends, the alert check has issued the monthly cost request and at most one
    publish request, and the optimisation report the monthly cost request
    alone.  Neither asks for the identity or the budgets, and neither touches
    the file system or the memoised account id. *)
Theorem alert_and_optimisation_requests :
  forall w st,
    (exists o evs,
       checkCostAlerts w st = (o, extend st evs)
       /\ requests evs = getCostAndUsage_ev MONTHLY :: map publish_ev (published evs)
       /\ (List.length (published evs) <= 1)%nat)
    /\ (exists o evs,
          generateOptimizationReport w st = (o, extend st evs)
          /\ requests evs = [getCostAndUsage_ev MONTHLY]).
Proof.
  intros w st. split.
  - exists (Returned tt), (alert_events w). split; [apply checkCostAlerts_run |].
    exact (requests_alert_events w).
  - destruct (asks_generateOptimizationReport w st) as (o & evs & Hrun & Hreq & _).
    now exists o, evs.
Qed.

(** ** No cost data *)

(** Rounding keeps the sign. *)
Lemma binary_round_aux_sign s m e l :
  match binary_round_aux JS.prec JS.emax s m e l with
  | S754_zero s' | S754_infinity s' | S754_finite s' _ _ => s' = s
  | S754_nan => True
  end.
Proof.
  unfold binary_round_aux.
  destruct (shr_fexp _ _ m e l) as [mrs e'].
  destruct (shr_fexp _ _ _ e' loc_Exact) as [mrs' e''].
  destruct (shr_m mrs'); [reflexivity | | exact I].
  now destruct (e'' <=? _).
Qed.

(** Zero is not greater than a positive limit times the threshold. *)
Lemma zero_not_over_positive limit :
  JS.gt limit JS.zero = true ->
  JS.gt JS.zero (JS.mul limit lit_0_8) = false.
Proof.
  assert (H08 : exists m e, lit_0_8 = S754_finite false m e)
    by (do 2 eexists; vm_compute; reflexivity).
  destruct H08 as (m8 & e8 & ->).
  unfold JS.gt, JS.zero, JS.mul, SFltb.
  destruct limit as [s | s | | s m e]; cbn [SFcompare SFmul]; try discriminate.
  - destruct s; [discriminate | reflexivity].
  - destruct s; [discriminate |]. intros _. cbn [xorb].
    pose proof (binary_round_aux_sign false (Z.pos (m * m8)) (e + e8) loc_Exact) as Hs.
    destruct (binary_round_aux _ _ _ _ _ _) as [s' | s' | | s' m' e'];
      try subst s'; reflexivity.
Qed.

(** Zero spend is under every threshold, whatever the limit. *)
Lemma zero_percent_is_ok w :
  month_groups w = [] ->
  classify (Config.alertThreshold (CONFIG w)) (percent_used w) = OK.
Proof.
  intros Hgroups. unfold classify, percent_used, month_total. rewrite Hgroups.
  cbn [map fold_left].
  pose proof (budgetLimit_truthy w) as Hlimit.
  assert (Hzero : exists s, JS.mul (JS.div JS.zero (Config.budgetLimit (CONFIG w))) lit_100
                            = S754_zero s).
  { rewrite lit_100_value. unfold JS.mul, JS.div, JS.zero.
    destruct (Config.budgetLimit (CONFIG w)) as [s | s | | s m e]; try discriminate;
      cbn [SFdiv SFmul]; eauto. }
  destruct Hzero as [s ->].
  assert (H100 : JS.ge (S754_zero s) lit_100 = false)
    by (rewrite lit_100_value; reflexivity).
  assert (H80 : JS.ge (S754_zero s) (JS.mul (Config.alertThreshold (CONFIG w)) lit_100)
                = false)
    by (change (Config.alertThreshold (CONFIG w)) with lit_0_8;
        destruct s; vm_compute; reflexivity).
  now rewrite H100, H80.
Qed.

Lemma no_data_no_groups w :
  (exists e, costExplorer_getCostAndUsage w MONTHLY = inl e)
  \/ costExplorer_getCostAndUsage w MONTHLY = inr {| ResultsByTime := None |}
  \/ costExplorer_getCostAndUsage w MONTHLY = inr {| ResultsByTime := Some [] |} ->
  month_groups w = [].
Proof.
  unfold month_groups, month_result, getCurrentMonthCosts, try_catch, bind, await,
    defined, emit, console_error, ret, throw.
  intros [[e ->] | [-> | ->]]; reflexivity.
Qed.

(** When the monthly cost request is rejected, or answers without a result,
    the script goes on as if nothing had been spent: the alert check logs that
    the spend is within the budget and publishes nothing, the optimisation
    report has no recommendation, and a report that is returned has the total
    ["0.00"], an empty breakdown and, for a positive budget limit, the status
    OK. *)
Theorem no_cost_data_reads_as_zero_spend :
  forall w,
    (exists e, costExplorer_getCostAndUsage w MONTHLY = inl e)
    \/ costExplorer_getCostAndUsage w MONTHLY = inr {| ResultsByTime := None |}
    \/ costExplorer_getCostAndUsage w MONTHLY = inr {| ResultsByTime := Some [] |} ->
    In (console_log_ev ok_line) (alert_events w)
    /\ published (alert_events w) = []
    /\ recommendations_of (month_groups w) = []
    /\ (forall st r st',
          generateCostReport w st = (Returned r, st') ->
          totalCost (summary r) = "0.00"
          /\ serviceBreakdown r = []
          /\ (JS.gt (Config.budgetLimit (CONFIG w)) JS.zero = true ->
              status (summary r) = "OK")).
Proof.
  intros w Hanswer. pose proof (no_data_no_groups w Hanswer) as Hgroups.
  pose proof (alert_events_by_class w) as Halert.
  rewrite (zero_percent_is_ok w Hgroups) in Halert.
  destruct Halert as (Hline & Hnone & _).
  split; [exact Hline |]. split; [exact Hnone |].
  split; [now rewrite Hgroups |].
  intros st r st' H.
  apply generateCostReport_returned_inv in H as (budget & st0 & st1 & st2 & _ & H).
  apply build_report_returned_inv in H as (Hsummary & Hbreakdown & _).
  fold (month_groups w) in *. rewrite Hgroups in *.
  rewrite Hsummary, Hbreakdown. cbn [totalCost status map].
  split; [vm_compute; reflexivity |]. split; [reflexivity |].
  intros Hpositive. change (total_of []) with JS.zero.
  change (Config.alertThreshold (CONFIG w)) with lit_0_8.
  now rewrite (zero_not_over_positive _ Hpositive).
Qed.

Lemma no_cost_data_reads_as_zero_spend_witness :
  let w :=
    {| AWS_REGION := None; APP_NAME := None; COST_BUDGET_LIMIT := Some "25";
       SNS_ALERT_TOPIC := Samples.topic; reportsDir := "/site/reports";
       now := "2024-05-17T09:30:00.000Z";
       costExplorer_getCostAndUsage := fun _ => inl {| message := "ThrottlingException" |};
       costExplorer_getCostForecast := inr {| ForecastResultsByTime := [] |};
       sts_getCallerIdentity := inr {| Account := "123456789012" |};
       budgets_describeBudgets := fun _ => inr {| Budgets := Some [] |};
       sns_publish := fun _ => inr tt;
       fs_mkdirSync := fun _ => inr tt;
       fs_writeFileSync := fun _ => inr tt |} in
  let r := Samples.the_report w in
  published (alert_events w) = []
  /\ totalCost (summary r) = "0.00"
  /\ status (summary r) = "OK".
Proof.
  intros w r.
  assert (Hanswer : (exists e, costExplorer_getCostAndUsage w MONTHLY = inl e)
                    \/ costExplorer_getCostAndUsage w MONTHLY
                       = inr {| ResultsByTime := None |}
                    \/ costExplorer_getCostAndUsage w MONTHLY
                       = inr {| ResultsByTime := Some [] |})
    by (left; eexists; reflexivity).
  destruct (no_cost_data_reads_as_zero_spend w Hanswer) as (_ & Hnone & _ & Hreport).
  assert (H : generateCostReport w (initial [])
              = (Returned r, snd (generateCostReport w (initial []))))
    by (vm_compute; reflexivity).
  destruct (Hreport _ _ _ H) as (Htotal & _ & Hstatus).
  split; [exact Hnone |]. split; [exact Htotal |].
  apply Hstatus. vm_compute. reflexivity.
Defined.

(** ** The daily trend *)

Lemma mapM_trend_of_returned_inv days : forall st trend st',
  mapM trend_of days st = (Returned trend, st') ->
  map Some trend = map trend_entry days.
Proof.
  induction days as [| day days IH]; intros st trend st' H; cbn [mapM] in H.
  - now inversion H.
  - apply bind_returned_inv in H as (entry & st1 & Hday & H).
    apply bind_returned_inv in H as (entries & st2 & Hdays & H).
    inversion H; subst. cbn [map]. rewrite (IH _ _ _ Hdays). f_equal.
    unfold trend_of, trend_entry, bind, defined, ret, throw in *.
    destruct (TimePeriod day), (Total day); try discriminate. now inversion Hday.
Qed.

Lemma length_slice_last {A} n (xs : list A) :
  List.length (JS.slice_last n xs) = Nat.min n (List.length xs).
Proof. unfold JS.slice_last. rewrite length_skipn. lia. Qed.

(** The daily trend of a report holds the last seven daily results, in
    their order: all of them when there are seven or fewer.  Each entry has
    the start of the day's period for its date and the day's total, with two
    decimals, for its cost. *)
Theorem dailyTrend_is_the_last_seven_days :
  forall w st r st',
    generateCostReport w st = (Returned r, st') ->
    map Some (dailyTrend r) = map trend_entry (JS.slice_last 7 (daily_result w))
    /\ List.length (dailyTrend r) = Nat.min 7 (List.length (daily_result w))
    /\ exists older,
         daily_result w = (older ++ JS.slice_last 7 (daily_result w))%list.
Proof.
  intros w st r st' H.
  apply generateCostReport_returned_inv in H as (budget & st0 & st1 & st2 & _ & H).
  unfold build_report in H.
  apply bind_returned_inv in H as (trend & st3 & Htrend & H).
  inversion H; subst; clear H. cbn [dailyTrend].
  apply mapM_trend_of_returned_inv in Htrend.
  split; [exact Htrend |]. split.
  - rewrite <- (length_map Some), Htrend, length_map. apply length_slice_last.
  - exists (firstn (List.length (daily_result w) - 7) (daily_result w)).
    unfold JS.slice_last. now rewrite firstn_skipn.
Qed.

Lemma dailyTrend_is_the_last_seven_days_witness :
  let days := map (fun d => Samples.day ("2024-05-0" ++ d) ("0." ++ d))
                ["1"; "2"; "3"; "4"; "5"; "6"; "7"; "8"; "9"] in
  let w := world_with_days (Samples.world None None [] []) days in
  map Some (dailyTrend (Samples.the_report w))
  = map (fun d => Some {| Trend.date := "2024-05-0" ++ d; Trend.cost := "0." ++ d ++ "0" |})
      ["3"; "4"; "5"; "6"; "7"; "8"; "9"]
  /\ List.length (dailyTrend (Samples.the_report w)) = 7%nat.
Proof.
  intros days w.
  assert (H : generateCostReport w (initial [])
              = (Returned (Samples.the_report w),
                 snd (generateCostReport w (initial []))))
    by (vm_compute; reflexivity).
  destruct (dailyTrend_is_the_last_seven_days w _ _ _ H) as (Htrend & Hlength & _).
  split.
  - rewrite Htrend. vm_compute. reflexivity.
  - rewrite Hlength. vm_compute. reflexivity.
Defined.

(** ** One report file for a month *)

Lemma append_cancel_l (a b c : string) : a ++ b = a ++ c -> b = c.
Proof. induction a as [| x a IH]; cbn [append]; [auto | intros [= H]; auto]. Qed.

Lemma append_cancel_r (a b s : string) : a ++ s = b ++ s -> a = b.
Proof.
  revert b. induction a as [| x a IH]; intros [| y b] H; cbn [append] in H.
  - reflexivity.
  - apply (f_equal String.length) in H. cbn [String.length] in H.
    rewrite length_append in H. lia.
  - apply (f_equal String.length) in H. cbn [String.length] in H.
    rewrite length_append in H. lia.
  - injection H as -> H. f_equal. now apply IH.
Qed.

(** The path of the report names the month and nothing else of the time. *)
Lemma report_path_inj w1 w2 :
  reportsDir w1 = reportsDir w2 ->
  (report_path w1 = report_path w2
   <-> JS.substring0 7 (now w1) = JS.substring0 7 (now w2)).
Proof.
  unfold report_path, report_dir, path_join. cbn [CONFIG Config.outputDir].
  intros ->. split.
  - intros H. apply append_cancel_l in H. apply (append_cancel_l "/cost-report-") in H.
    now apply append_cancel_r in H.
  - now intros ->.
Qed.

(** The report file is named after the month of the run ([YYYY-MM], the
    first seven characters of the timestamp).  Of two runs that return a
    report, one after the other, the second overwrites the file of the first
    when both fall in the same month; otherwise both files are there, each
    with its report. *)
Theorem one_report_file_per_month :
  forall w1 w2 st r1 st1 r2 st2,
    generateCostReport w1 st = (Returned r1, st1) ->
    generateCostReport w2 st1 = (Returned r2, st2) ->
    reportsDir w1 = reportsDir w2 ->
    let text1 := JSON.stringify (json_of_report r1) 2 in
    let text2 := JSON.stringify (json_of_report r2) 2 in
    readFile st2 (report_path w2) = Some text2
    /\ (JS.substring0 7 (now w1) = JS.substring0 7 (now w2) ->
        readFile st2 (report_path w1) = Some text2)
    /\ (JS.substring0 7 (now w1) <> JS.substring0 7 (now w2) ->
        readFile st2 (report_path w1) = Some text1).
Proof.
  intros w1 w2 st r1 st1 r2 st2 H1 H2 Hdir text1 text2.
  destruct (generateCostReport_outcome w1 st) as (o1 & s1 & Hrun1 & Ho1 & Hf1 & _).
  rewrite H1 in Hrun1. injection Hrun1 as <- <-.
  destruct (producible w1 st); [| discriminate]. injection Ho1 as ->.
  destruct (generateCostReport_outcome w2 st1) as (o2 & s2 & Hrun2 & Ho2 & Hf2 & _).
  rewrite H2 in Hrun2. injection Hrun2 as <- <-.
  destruct (producible w2 st1); [| discriminate]. injection Ho2 as ->.
  unfold readFile. rewrite Hf2, Hf1. cbn [find fst].
  pose proof (report_path_inj w1 w2 Hdir) as Hpath.
  split; [| split].
  - now rewrite String.eqb_refl.
  - intros Hmonth. apply Hpath in Hmonth. rewrite Hmonth, String.eqb_refl. reflexivity.
  - intros Hmonth.
    destruct (String.eqb (report_path w2) (report_path w1)) eqn:Heq.
    + apply String.eqb_eq in Heq. symmetry in Heq. apply Hpath in Heq. contradiction.
    + now rewrite String.eqb_refl.
Qed.

Lemma one_report_file_per_month_witness :
  let w1 := Samples.world None None [Samples.group "Amazon Amplify" "3.5"] [] in
  let w2 := Samples.world None None [Samples.group "Amazon Amplify" "4.75"] [] in
  let run1 := generateCostReport w1 (initial []) in
  let run2 := generateCostReport w2 (snd run1) in
  readFile (snd run1) "/site/reports/cost-report-2024-05.json"
  = Some (JSON.stringify (json_of_report (Samples.the_report w1)) 2)
  /\ readFile (snd run2) "/site/reports/cost-report-2024-05.json"
     = Some (JSON.stringify (json_of_report (Samples.the_report w2)) 2).
Proof.
  intros w1 w2 run1 run2.
  assert (H1 : generateCostReport w1 (initial []) = (Returned (Samples.the_report w1), snd run1))
    by (vm_compute; reflexivity).
  assert (H2 : generateCostReport w2 (snd run1) = (Returned (Samples.the_report w2), snd run2))
    by (vm_compute; reflexivity).
  split.
  - vm_compute. reflexivity.
  - exact (proj1 (proj2 (one_report_file_per_month w1 w2 _ _ _ _ _ H1 H2 eq_refl)) eq_refl).
Defined.

(** ** The message of an alert *)

Lemma sendAlert_events_configured w c r level message :
  SNS_ALERT_TOPIC w = Some (String c r) ->
  published (sendAlert_events w level message)
  = [alert_params w (String c r) level message].
Proof.
  intros Htopic. unfold sendAlert_events, sendAlert, alert_params. rewrite Htopic.
  unfold try_catch, bind, await, emit, console_log, console_error, ret, throw.
  cbn [CONFIG Config.appName].
  destruct (sns_publish w _); reflexivity.
Qed.

(** With a topic configured, what the alert check publishes: over the budget
    one CRITICAL message, with the total and the limit; from the threshold on
    one WARNING message, with the percentage as well; otherwise nothing.  Each
    message ends with the time of the run and the name of the application. *)
Theorem published_alert_message :
  forall w c r,
    SNS_ALERT_TOPIC w = Some (String c r) ->
    published (alert_events w)
    = if JS.ge (percent_used w) lit_100 then
        [alert_params w (String c r) "CRITICAL"
           ("Budget exceeded: $" ++ JS.toFixed (month_total w) 2 ++ " / $"
            ++ JS.Number_toString (Config.budgetLimit (CONFIG w)))]
      else if JS.ge (percent_used w) (JS.mul (Config.alertThreshold (CONFIG w)) lit_100) then
        [alert_params w (String c r) "WARNING"
           ("Budget " ++ JS.toFixed (percent_used w) 1 ++ "% used: $"
            ++ JS.toFixed (month_total w) 2 ++ " / $"
            ++ JS.Number_toString (Config.budgetLimit (CONFIG w)))]
      else [].
Proof.
  intros w c r Htopic. rewrite alert_events_cases.
  change (console_log_ev ?l :: ?a ++ ?b)%list with ([console_log_ev l] ++ a ++ b)%list.
  rewrite !published_app, published_month_events.
  assert (Hlog : forall line evs, published (console_log_ev line :: evs) = published evs)
    by reflexivity.
  rewrite !Hlog. change (published []) with (@nil PublishInput). cbn [List.app].
  assert (Htotal : total_of (month_groups w) = month_total w)
    by (unfold month_total; apply total_of_sum).
  destruct (JS.ge (percent_used w) lit_100);
    [| destruct (JS.ge (percent_used w) _)]; rewrite ?Hlog.
  - rewrite (sendAlert_events_configured w c r _ _ Htopic).
    unfold critical_message. now rewrite Htotal.
  - rewrite (sendAlert_events_configured w c r _ _ Htopic).
    unfold warning_message. now rewrite Htotal.
  - reflexivity.
Qed.

Lemma published_alert_message_witness :
  let w := Samples.world (Some "10.0") Samples.topic
             [Samples.group "Amazon Amplify" "8.5"] [] in
  map Message (published (alert_events w))
  = ["Budget 85.0% used: $8.50 / $10" ++ nl ++ nl
     ++ "Timestamp: 2024-05-17T09:30:00.000Z" ++ nl ++ "App: slightbuild"].
Proof.
  intros w.
  rewrite (published_alert_message w _ _ eq_refl). vm_compute. reflexivity.
Defined.

(** ** An amount that is not a number *)

Lemma add_nan_l x : JS.add S754_nan x = S754_nan.
Proof. reflexivity. Qed.

Lemma add_nan_r x : JS.add x S754_nan = S754_nan.
Proof. now destruct x. Qed.

Lemma fold_add_nan xs : fold_left JS.add xs S754_nan = S754_nan.
Proof. induction xs as [| x xs IH]; [reflexivity | exact IH]. Qed.

Lemma fold_add_with_nan xs : forall acc,
  In S754_nan xs -> fold_left JS.add xs acc = S754_nan.
Proof.
  induction xs as [| x xs IH]; intros acc Hin; [contradiction |].
  destruct Hin as [Hx | Hin]; cbn [fold_left].
  - subst x. rewrite add_nan_r. apply fold_add_nan.
  - now apply IH.
Qed.

(** An amount that [parseFloat] does not read as a number makes the total
    NaN, and every comparison with NaN is false: the alert check logs that
    the spend is within the budget and publishes nothing, and a report that is
    returned has the total ["NaN"] and the status OK. *)
Theorem unparseable_amount_silences_alerts :
  forall w group,
    In group (month_groups w) ->
    is_nan (group_cost group) = true ->
    is_nan (month_total w) = true
    /\ In (console_log_ev ok_line) (alert_events w)
    /\ published (alert_events w) = []
    /\ (forall st r st',
          generateCostReport w st = (Returned r, st') ->
          totalCost (summary r) = "NaN" /\ status (summary r) = "OK").
Proof.
  intros w group Hin Hnan.
  assert (Htotal : month_total w = S754_nan).
  { unfold month_total. apply fold_add_with_nan.
    apply in_map_iff. exists group. split; [| exact Hin].
    destruct (group_cost group); try discriminate. reflexivity. }
  assert (Hpercent : percent_used w = S754_nan)
    by (unfold percent_used; rewrite Htotal; reflexivity).
  pose proof (alert_events_by_class w) as Halert.
  unfold classify in Halert. rewrite Hpercent in Halert.
  change (JS.ge S754_nan lit_100) with false in Halert.
  change (JS.ge S754_nan ?x) with false in Halert.
  cbn [andb] in Halert. destruct Halert as (Hline & Hnone & _).
  split; [now rewrite Htotal |]. split; [exact Hline |]. split; [exact Hnone |].
  intros st r st' H.
  apply generateCostReport_returned_inv in H as (budget & st0 & st1 & st2 & _ & H).
  apply build_report_returned_inv in H as (Hsummary & _).
  rewrite Hsummary. cbn [totalCost status].
  fold (month_groups w). rewrite total_of_sum. fold (month_total w). rewrite Htotal.
  split; [reflexivity |].
  unfold JS.gt, SFltb.
  now destruct (JS.mul (Config.budgetLimit (CONFIG w)) (Config.alertThreshold (CONFIG w))).
Qed.

Lemma unparseable_amount_silences_alerts_witness :
  let w := Samples.world (Some "10.0") Samples.topic
             [Samples.group "Amazon Amplify" "250.00"; Samples.group "Amazon S3" "n/a"]
             [Samples.budget "slightbuild-monthly-budget"] in
  published (alert_events w) = []
  /\ status (summary (Samples.the_report w)) = "OK"
  /\ budgetUsed (summary (Samples.the_report w)) = "NaN".
Proof.
  intros w.
  destruct (unparseable_amount_silences_alerts w (Samples.group "Amazon S3" "n/a"))
    as (_ & _ & Hnone & Hreport).
  - right. left. reflexivity.
  - vm_compute. reflexivity.
  - assert (H : generateCostReport w (initial [])
                = (Returned (Samples.the_report w),
                   snd (generateCostReport w (initial []))))
      by (vm_compute; reflexivity).
    split; [exact Hnone |]. split; [exact (proj2 (Hreport _ _ _ H)) |].
    vm_compute. reflexivity.
Defined.
